(** * PolyglotEngine: the document-tree pipeline

    A shallow embedding of the StartTranslation and ProcessTranslated
    modules of the Polyglot Engine (src/start-translation/main.js and the
    process-translated module), and the properties of the pipeline that the
    design document states about them.

    Conventions of the embedding.
    - A JavaScript string is a [string] (a sequence of 8-bit characters);
      the characters the code inspects (whitespace, digits, letters, the
      punctuation of the regular expressions) are all ASCII.
    - An object property that may be missing is an [option]; [None] stands
      for both an absent key and the value [undefined]/[null].
    - An [async] function is modelled by its sequential behaviour; every
      request to an external service is recorded as an event of a trace and
      answered by an environment.
    - A [throw] that leaves a function is the result [Thrown]. *)

From stdpp Require Import gmap strings list.
From Stdlib Require Import Ascii String Lia.

Local Open Scope string_scope.
Local Open Scope list_scope.

#[local] Arguments String.append !s1 s2 : simpl nomatch.

(** ** JavaScript strings *)

Module Js.

Local Open Scope string_scope.

(** [WhiteSpace] and [LineTerminator] code points within ASCII, as removed
    by [String.prototype.trim].  Strings are modelled as ASCII text; the
    white space beyond it (no-break space, byte order mark, the Unicode
    space separators, line and paragraph separator) is outside the model. *)
Definition isWhiteSpace (c : ascii) : bool :=
  let n := nat_of_ascii c in
  Nat.eqb n 9 || Nat.eqb n 10 || Nat.eqb n 11 || Nat.eqb n 12 ||
  Nat.eqb n 13 || Nat.eqb n 32.

Fixpoint trimStart (s : string) : string :=
  match s with
  | String c s' => if isWhiteSpace c then trimStart s' else s
  | EmptyString => EmptyString
  end.

Fixpoint trimEnd (s : string) : string :=
  match s with
  | String c s' =>
      match trimEnd s' with
      | EmptyString => if isWhiteSpace c then EmptyString else String c EmptyString
      | t => String c t
      end
  | EmptyString => EmptyString
  end.

Definition trim (s : string) : string := trimEnd (trimStart s).

(** [isNonEmptyString(str)] for a value that is a string. *)
Definition nonEmpty (s : string) : bool :=
  negb (Nat.eqb (String.length (trim s)) 0).

(** [isNonEmptyString(v)] for a value that may be [undefined]. *)
Definition isNonEmptyString (v : option string) : bool :=
  match v with
  | Some s => nonEmpty s
  | None => false
  end.

(** [dropPrefix p s = Some r] when [s] is [p] followed by [r]. *)
Fixpoint dropPrefix (p s : string) : option string :=
  match p with
  | EmptyString => Some s
  | String a p' =>
      match s with
      | String b s' => if Ascii.eqb a b then dropPrefix p' s' else None
      | EmptyString => None
      end
  end.

Definition startsWith (s p : string) : bool :=
  match dropPrefix p s with Some _ => true | None => false end.

(** [s.includes(p)] *)
Fixpoint includes (s p : string) : bool :=
  startsWith s p ||
  match s with
  | String _ s' => includes s' p
  | EmptyString => false
  end.

Fixpoint endsWith (s p : string) : bool :=
  String.eqb s p ||
  match s with
  | String _ s' => endsWith s' p
  | EmptyString => false
  end.

(** [s.replaceAll(a, b)] for one-character strings [a] and [b]. *)
Fixpoint replaceAllChar (a b : ascii) (s : string) : string :=
  match s with
  | String c s' => String (if Ascii.eqb c a then b else c) (replaceAllChar a b s')
  | EmptyString => EmptyString
  end.

(** [s.replace(p, r)] with a string pattern: the first occurrence only. *)
Fixpoint replaceFirst (p r s : string) : string :=
  match dropPrefix p s with
  | Some rest => r ++ rest
  | None =>
      match s with
      | String c s' => String c (replaceFirst p r s')
      | EmptyString => EmptyString
      end
  end.

(** [s.split(sep)] for a non-empty separator.  [acc] is the piece being
    read; the fuel bounds the number of characters still to read. *)
Fixpoint splitFrom (fuel : nat) (sep acc s : string) : list string :=
  match fuel with
  | O => [acc ++ s]
  | S fuel' =>
      match s with
      | EmptyString => [acc]
      | String c s' =>
          match dropPrefix sep s with
          | Some rest => acc :: splitFrom fuel' sep EmptyString rest
          | None => splitFrom fuel' sep (acc ++ String c EmptyString) s'
          end
      end
  end.

Definition split (sep s : string) : list string :=
  splitFrom (String.length s) sep EmptyString s.

Fixpoint join (sep : string) (l : list string) : string :=
  match l with
  | [] => EmptyString
  | [x] => x
  | x :: l' => x ++ sep ++ join sep l'
  end.

Definition isDigit (c : ascii) : bool :=
  let n := nat_of_ascii c in Nat.leb 48 n && Nat.leb n 57.

Definition isLetter (c : ascii) : bool :=
  let n := nat_of_ascii c in
  (Nat.leb 65 n && Nat.leb n 90) || (Nat.leb 97 n && Nat.leb n 122).

Fixpoint anyChar (f : ascii -> bool) (s : string) : bool :=
  match s with
  | String c s' => f c || anyChar f s'
  | EmptyString => false
  end.

End Js.

(** ** Section numbering: [parsePagePath] *)

(** The regular expression [/(\d|zz)/]: some digit, or the back-matter
    marker [zz], anywhere in the string. *)
Definition hasSectionNumber (s : string) : bool :=
  Js.anyChar Js.isDigit s || Js.includes s "zz".

(** The result of [parsePagePath]: [[true, numberPart, titlePart]] or
    [[false]]. *)
Inductive ParsedPath :=
  | PathParsed (urlNumPrefix : string) (urlTitleExtract : string)
  | PathNotParsed.

Definition parseSuccess (r : ParsedPath) : bool :=
  match r with PathParsed _ _ => true | PathNotParsed => false end.

Definition parsePagePath (path : string) : ParsedPath :=
  let splitPath := Js.split "/" path in
  let relativePath := List.last splitPath EmptyString in
  let splitPagePath := Js.split "%3A" relativePath in
  match splitPagePath with
  | numberPart :: titlePart :: _ =>
      if hasSectionNumber numberPart
      then PathParsed numberPart (Js.trim (Js.replaceAllChar "_" " " titlePart))
      else PathNotParsed
  | _ => PathNotParsed
  end.

(** ** Outcomes of a call *)

(** A call returns, throws, or recurses deeper than the fuel it was given
    (the modelled code would then not return). *)
Inductive Outcome (A : Type) : Type :=
  | Returned (a : A)
  | Thrown
  | Diverges.

Arguments Returned {A} a.
Arguments Thrown {A}.
Arguments Diverges {A}.

Definition bind {A B : Type} (m : Outcome A) (k : A -> Outcome B) : Outcome B :=
  match m with
  | Returned a => k a
  | Thrown => Thrown
  | Diverges => Diverges
  end.

Notation "'call' x '<~' m ';' k" := (bind m (fun x => k))
  (at level 10, x pattern, m at level 100, k at level 200).

(** ** Data model: pages *)

(** [PageProp] *)
Record PageProp := mkProp { propName : string; propValue : string }.

(** The own fields of a [LibrePage] / [LibreTranslatedPage] object, except
    [subpages]. *)
Record PageData := mkPageData {
  lib : string;
  id : string;
  url : option string;
  title : string;
  tags : list string;
  path : option string;
  urlNumPrefix : option string;
  urlTitleExtract : option string;
  root : bool;
  parent : option string;
  contents : option string;
  summary : option string;
  props : option (list PageProp) }.

(** A page value: [null], or a page object with its array of subpages. *)
#[warnings="-register-all"]
Inductive Page :=
  | Null
  | Obj (d : PageData) (subpages : list Page).

Definition setContents (c : option string) (d : PageData) : PageData :=
  mkPageData (lib d) (id d) (url d) (title d) (tags d) (path d)
    (urlNumPrefix d) (urlTitleExtract d) (root d) (parent d)
    c (summary d) (props d).

(** [delete pageData.contents] *)
Definition deleteContents (d : PageData) : PageData := setContents None d.

(** ** Tree Flattener: [createFlatPageMetadataList]

    The function on page values.  Reading [subpages] of [null] throws.  The
    entries of the result are the nodes of the tree without their contents
    and without their subpages. *)
Definition flattenEach (flatten : Page -> Outcome (list PageData))
  : list Page -> Outcome (list PageData) :=
  fix loop (subpages : list Page) : Outcome (list PageData) :=
    match subpages with
    | [] => Returned []
    | sub :: rest =>
        call first <~ flatten sub;
        call others <~ loop rest;
        Returned (first ++ others)
    end.

Fixpoint createFlatPageMetadataList (page : Page) : Outcome (list PageData) :=
  match page with
  | Null => Thrown
  | Obj pageData subpages =>
      call pagesArr <~ flattenEach createFlatPageMetadataList subpages;
      Returned (deleteContents pageData :: pagesArr)
  end.

Fixpoint nodeCount (page : Page) : nat :=
  match page with
  | Null => 0
  | Obj _ subpages => S (list_sum (map nodeCount subpages))
  end.

(** ** The flattener on the object store

    [createFlatPageMetadataList] deletes [contents] and [subpages] from the
    objects it is given: [pageData] is the argument itself, not a copy.  The
    store maps a reference to the object's fields; the array [subpages]
    holds references ([None] is a [null] element). *)
Module Heap.

Definition loc := nat.

Record Object := mkObject {
  data : PageData;
  subpages : option (list (option loc)) }.

Abbreviation Store := (gmap loc Object).

(** The loop [for (i = 0; i < n; i += 1)] over [pageData.subpages[i]],
    which reads the array again at every turn. *)
Fixpoint flattenLoop (rec : Store -> option loc -> Outcome (list loc * Store))
    (page : loc) (turns : nat) (i : nat) (pagesArr : list loc) (h : Store)
    : Outcome (list loc * Store) :=
  match turns with
  | O => Returned (pagesArr, h)
  | S turns' =>
      match h !! page with
      | Some o =>
          match subpages o with
          | Some arr =>
              call (sub, h') <~ rec h (mjoin (arr !! i));
              flattenLoop rec page turns' (S i) (pagesArr ++ sub) h'
          | None => Thrown
          end
      | None => Thrown
      end
  end.

Fixpoint createFlatPageMetadataList (fuel : nat) (h : Store) (page : option loc)
    : Outcome (list loc * Store) :=
  match fuel with
  | O => Diverges
  | S fuel' =>
      match page with
      | None => Thrown
      | Some pageData =>
          match h !! pageData with
          | None => Thrown
          | Some o =>
              call (pagesArr, h1) <~
                match subpages o with
                | Some arr =>
                    flattenLoop (createFlatPageMetadataList fuel') pageData
                      (List.length arr) 0 [] h
                | None => Returned ([], h)
                end;
              match h1 !! pageData with
              | None => Thrown
              | Some o1 =>
                  Returned (pageData :: pagesArr,
                            <[pageData := mkObject (deleteContents (data o1)) None]> h1)
              end
          end
      end
  end.

(** A page tree laid out in the store: every node is an object of its own,
    and the array [subpages] of a node refers to its children in order. *)
#[warnings="-register-all"]
Inductive Layout :=
  | At (r : loc) (d : PageData) (children : list Layout).

Definition ref (t : Layout) : loc :=
  match t with At r _ _ => r end.

Fixpoint refs (t : Layout) : list loc :=
  match t with At r _ children => r :: flat_map refs children end.

Fixpoint depth (t : Layout) : nat :=
  match t with At _ _ children => S (list_max (map depth children)) end.

Fixpoint laidOut (h : Store) (t : Layout) : Prop :=
  match t with
  | At r d children =>
      h !! r = Some (mkObject d (Some (map (fun c => Some (ref c)) children))) /\
      (fix all (l : list Layout) : Prop :=
         match l with
         | [] => True
         | c :: l' => laidOut h c /\ all l'
         end) children
  end.

(** The nodes of a layout in pre-order, each with its reference. *)
Fixpoint nodes (t : Layout) : list (loc * PageData) :=
  match t with At r d children => (r, d) :: flat_map nodes children end.

(** The page value that a layout represents. *)
Fixpoint pageOf (t : Layout) : Page :=
  match t with At _ d children => Obj d (map pageOf children) end.

(** The store after the nodes of a layout were flattened: children first,
    in order, then the node itself. *)
Fixpoint flattened (t : Layout) (h : Store) : Store :=
  match t with
  | At r d children =>
      <[r := mkObject (deleteContents d) None]>
        (fold_left (fun h' c => flattened c h') children h)
  end.

End Heap.

(** ** Requests to the external services *)

Inductive Bucket := InputBucket | OutputBucket.

Inductive Event :=
  | DeleteQueueMessage
  | GetLibraryKeys (lib : string)
  | GetPageInfo (lib path : string)
  | GetSubpages (lib pageID : string)
  | GetPageContents (lib pageID : string)
  | GetPageProperties (lib pageID : string)
  | PutObject (bucket : Bucket) (key : string)
  | StartTranslationJob (coverID languageCode : string)
  | DescribeJob (jobID : string)
  | GetObject (key : string)
  | CreatePage (lib pagePath pageTitle : string) (abortIfExists : bool)
  | PutTags (lib pageID : string) (tags : list string)
  | PutProperties (lib pageID : string)
  | CopyThumbnail (sourceLib sourceID targetLib targetID : string)
  | SendEmail (addresses : list string).

Definition Trace := list Event.

(** ** Tree Discoverer: [retrieveSubpages] *)

(** The [tags] of a page-info response: missing, one tag object, or an
    array of tag objects; the value of a tag may fail to be a string. *)
Inductive TagsObj :=
  | NoTags
  | OneTag (value : option string)
  | TagArray (values : list (option string)).

Definition processTags (tagsObj : TagsObj) : list string :=
  match tagsObj with
  | NoTags => []
  | OneTag value => match value with Some v => [v] | None => [] end
  | TagArray values => omap (fun v => v) values
  end.

Record PageInfo := mkPageInfo {
  pageID : string;
  uriUi : string;
  pageTitle : string;
  pageTags : TagsObj }.

(** What the source platform serves for a page: nothing (a request for
    the page fails), its information without its listing of subpages, or
    its information and the pages behind its listing.  Every page stands
    under the library and path that its listing entry parses to. *)
#[warnings="-register-all"]
Inductive Site :=
  | Unreachable (siteLib sitePath : string)
  | Unlisted (siteLib sitePath : string) (info : PageInfo)
  | Served (siteLib sitePath : string) (info : PageInfo) (listing : list Site).

Definition siteLib (site : Site) : string :=
  match site with
  | Unreachable l _ | Unlisted l _ _ | Served l _ _ _ => l
  end.

Definition sitePath (site : Site) : string :=
  match site with
  | Unreachable _ p | Unlisted _ p _ | Served _ p _ _ => p
  end.

(** Truthiness of the argument [parent]. *)
Definition truthy (v : option string) : bool :=
  match v with
  | Some s => negb (String.eqb s EmptyString)
  | None => false
  end.

Definition includesTag (tag : string) (l : list string) : bool :=
  existsb (String.eqb tag) l.

Fixpoint retrieveSubpages (site : Site) (lib path : string) (parent : option string)
    : Page * Trace :=
  match site with
  | Unreachable _ _ => (Null, [GetPageInfo lib path])
  | Unlisted _ _ pageInfo =>
      (Null, [GetPageInfo lib path; GetSubpages lib (pageID pageInfo)])
  | Served _ _ pageInfo listing =>
      let found :=
        map (fun sub => retrieveSubpages sub (siteLib sub) (sitePath sub)
                          (Some (pageID pageInfo))) listing in
      let foundSubpages := map fst found in
      let trace :=
        GetPageInfo lib path :: GetSubpages lib (pageID pageInfo)
        :: List.concat (map snd found) in
      let parsed := parsePagePath path in
      let infoObj isRoot parentID :=
        mkPageData lib (pageID pageInfo) (Some (uriUi pageInfo)) (pageTitle pageInfo)
          (processTags (pageTags pageInfo)) (Some path)
          (match parsed with PathParsed n _ => Some n | PathNotParsed => None end)
          (match parsed with PathParsed _ t => Some t | PathNotParsed => None end)
          isRoot parentID None None None in
      if truthy parent then (Obj (infoObj false parent) foundSubpages, trace)
      else if includesTag "coverpage:yes" (processTags (pageTags pageInfo))
           then (Obj (infoObj true None) foundSubpages, trace)
           else (Null, trace)
  end.

(** Every page identifier that the platform reports is a non-empty
    string. *)
Fixpoint identified (site : Site) : bool :=
  match site with
  | Served _ _ info listing =>
      negb (String.eqb (pageID info) EmptyString) && forallb identified listing
  | _ => true
  end.

(** The tags of the page that a site serves. *)
Definition servedTags (site : Site) : option (list string) :=
  match site with
  | Unreachable _ _ => None
  | Unlisted _ _ info | Served _ _ info _ => Some (processTags (pageTags info))
  end.

Definition is_Some_bool {A : Type} (v : option A) : bool :=
  match v with Some _ => true | None => false end.

(** How the discoverer links a page under a parent identifier [above]:
    a page without a parent is the root, every other page names its parent
    and is no root, and its subpages stand under its own identifier. *)
Fixpoint linkedUnder (above : option string) (page : Page) : Prop :=
  match page with
  | Null => True
  | Obj d subpages =>
      root d = negb (is_Some_bool above) /\ parent d = above /\
      (fix all (l : list Page) : Prop :=
         match l with
         | [] => True
         | sub :: l' => linkedUnder (Some (id d)) sub /\ all l'
         end) subpages
  end.

(** Every entry that is no root names the identifier of an entry before
    it; [seen] are the identifiers before the list. *)
Fixpoint resolvedIn (seen : list string) (l : list PageData) : Prop :=
  match l with
  | [] => True
  | e :: l' =>
      (root e = false -> exists x, parent e = Some x /\ In x seen) /\
      resolvedIn (id e :: seen) l'
  end.

(** ** Content transform: [processPageContents]

    [contents.replaceAll(regex, f)] with a global regular expression: the
    string is read from the left; where the expression matches, the match
    is kept as a whole and reading goes on after it, elsewhere one
    character is read.  A matcher is given the text before the position,
    last character first (for look-behind), and the text from the position
    on; it answers with the match and the text after it. *)

Inductive Segment :=
  | Lit (c : ascii)
  | Found (m : string).

Definition Matcher := string -> string -> option (string * string).

Fixpoint revOnto (m before : string) : string :=
  match m with
  | String c m' => revOnto m' (String c before)
  | EmptyString => before
  end.

Fixpoint scan (fuel : nat) (matchAt : Matcher) (before s : string) : list Segment :=
  match fuel with
  | O => []
  | S fuel' =>
      match s with
      | EmptyString => []
      | String c s' =>
          match matchAt before s with
          | Some (m, rest) => Found m :: scan fuel' matchAt (revOnto m before) rest
          | None => Lit c :: scan fuel' matchAt (String c before) s'
          end
      end
  end.

(** A matcher that never matches the empty string at the end of a match:
    reading goes on in a shorter text. *)
Definition progressive (matchAt : Matcher) : Prop :=
  forall before s m rest,
    matchAt before s = Some (m, rest) -> String.length rest < String.length s.

Fixpoint render (f : string -> string) (l : list Segment) : string :=
  match l with
  | [] => EmptyString
  | Lit c :: l' => String c (render f l')
  | Found m :: l' => (f m ++ render f l')%string
  end.

Definition replaceAll (matchAt : Matcher) (f : string -> string) (s : string) : string :=
  render f (scan (String.length s) matchAt EmptyString s).

Fixpoint countFound (l : list Segment) : nat :=
  match l with
  | [] => 0
  | Lit _ :: l' => countFound l'
  | Found _ :: l' => S (countFound l')
  end.

(** The character class [[A-Za-z.()]] (the flag [i] adds nothing to it). *)
Definition isTokenChar (c : ascii) : bool :=
  Js.isLetter c || Ascii.eqb c "." || Ascii.eqb c "(" || Ascii.eqb c ")".

(** The longest run of token characters at the head of a string, and the
    text after it. *)
Fixpoint spanToken (s : string) : string * string :=
  match s with
  | String c s' =>
      if isTokenChar c
      then let (run, rest) := spanToken s' in (String c run, rest)
      else (EmptyString, s)
  | EmptyString => (EmptyString, EmptyString)
  end.

(** [dekiRegex] at a position: two opening braces, a run of characters of
    the class, two closing braces.  The class holds no brace, so the run
    before the closing braces is the longest one. *)
Definition dekiRegex : Matcher := fun _ s =>
  match Js.dropPrefix "{{" s with
  | Some s1 =>
      let (run, s2) := spanToken s1 in
      match Js.dropPrefix "}}" s2 with
      | Some rest => Some ("{{" ++ run ++ "}}", rest)%string
      | None => None
      end
  | None => None
  end.

(** The line terminators within ASCII, line feed and carriage return (the
    line and paragraph separators are outside the model). *)
Definition isLineTerminator (c : ascii) : bool :=
  Nat.eqb (nat_of_ascii c) 10 || Nat.eqb (nat_of_ascii c) 13.

(** The lazy body of the math expressions: the shortest run of characters
    other than line terminators up to a closing delimiter that does not
    follow two backslashes (the negative look-behind). *)
Fixpoint lazyUntil (closing before s : string) : option (string * string) :=
  match (if Js.startsWith before "\\" then None else Js.dropPrefix closing s) with
  | Some rest => Some (closing, rest)
  | None =>
      match s with
      | String c s' =>
          if isLineTerminator c then None
          else match lazyUntil closing (String c before) s' with
               | Some (m, rest) => Some (String c m, rest)
               | None => None
               end
      | EmptyString => None
      end
  end.

Definition mathRegex (opening closing : string) : Matcher := fun before s =>
  match Js.dropPrefix opening s with
  | Some s1 =>
      match lazyUntil closing (revOnto opening before) s1 with
      | Some (m, rest) => Some (opening ++ m, rest)%string
      | None => None
      end
  | None => None
  end.

(** [mathInlineRegex], delimited by backslash-parentheses, and
    [mathDisplayRegex], delimited by backslash-brackets. *)
Definition mathInlineRegex : Matcher := mathRegex "\(" "\)".
Definition mathDisplayRegex : Matcher := mathRegex "\[" "\]".

Definition quote : string := String (ascii_of_nat 34) EmptyString.
Definition newline : string := String (ascii_of_nat 10) EmptyString.

Definition noTranslateDiv (m : string) : string :=
  ("<div translate=" ++ quote ++ "no" ++ quote ++ ">" ++ m ++ "</div>")%string.

Definition noTranslateSpan (m : string) : string :=
  ("<span translate=" ++ quote ++ "no" ++ quote ++ ">" ++ m ++ "</span>")%string.

(** The rewrite of template tokens, and the tokens it finds. *)
Definition wrapTemplateTokens (contents : string) : string :=
  replaceAll dekiRegex noTranslateDiv contents.

Definition templateTokens (contents : string) : list Segment :=
  scan (String.length contents) dekiRegex EmptyString contents.

(** The provenance block and the page contents, as the template literal of
    [processPageContents] lays them out. *)
Definition withProvenance (page : PageData) (contents : string) : string :=
  (newline ++
   "        <span" ++ newline ++
   "          data-libre-pagetitle=" ++ quote ++ "true" ++ quote ++ newline ++
   "          data-libre-lib=" ++ quote ++ lib page ++ quote ++ newline ++
   "          data-libre-pageid=" ++ quote ++ id page ++ quote ++ newline ++
   "        >" ++ newline ++
   "          " ++ title page ++ newline ++
   "        </span>" ++ newline ++
   "        " ++
   match summary page with
   | Some text => "<p data-libre-pagesummary=" ++ quote ++ "true" ++ quote ++ ">"
                  ++ text ++ "</p>"
   | None => ""
   end ++ newline ++
   "        " ++ contents ++ newline ++
   "      ")%string.

Definition transformContents (page : PageData) (contents : string) : string :=
  let contents := withProvenance page contents in
  let contents := replaceAll dekiRegex noTranslateDiv contents in
  let contents := replaceAll mathInlineRegex noTranslateSpan contents in
  replaceAll mathDisplayRegex noTranslateSpan contents.

(** [processPageContents] on one page object. *)
Definition processContentsOf (pageData : PageData) : PageData :=
  match contents pageData with
  | Some text => setContents (Some (transformContents pageData text)) pageData
  | None => pageData
  end.

(** ** Calls that talk to services

    The result of such a call and the requests it made, in order (a thrown
    error keeps the requests made before it). *)

Definition Run (A : Type) : Type := (Outcome A * Trace)%type.

Definition ret {A : Type} (a : A) : Run A := (Returned a, []).

Definition emit (e : Event) : Run unit := (Returned tt, [e]).

Definition raise {A : Type} : Run A := (Thrown, []).

Definition andThen {A B : Type} (m : Run A) (k : A -> Run B) : Run B :=
  match fst m with
  | Returned a => let r := k a in (fst r, snd m ++ snd r)
  | Thrown => (Thrown, snd m)
  | Diverges => (Diverges, snd m)
  end.

Notation "'perform' x '<~' m ';' k" := (andThen m (fun x => k))
  (at level 10, x pattern, m at level 100, k at level 200).

(** [try { m } catch (e) { return v }] *)
Definition orElse {A : Type} (m : Run A) (v : A) : Run A :=
  match fst m with
  | Thrown => (Returned v, snd m)
  | _ => m
  end.

(** The answer of a service to a request: status 200, another status, or
    a rejected promise. *)
Inductive Reply := Ok200 | NotOk | Rejected.

(** ** Content Fetcher: [getSubpageContents] *)

(** An entry of a property listing: [@name] and the text of [contents]. *)
Record RawProp := mkRawProp { rawName : option string; rawText : option string }.

(** The source platform, as the fetcher sees it. *)
Record Platform := mkPlatform {
  site : Site;
  pageBody : string -> string -> option string;
  pageProperties : string -> string -> option (list RawProp) }.

(** [addProperty] *)
Definition addProperty (prop : RawProp) : option PageProp :=
  match rawName prop, rawText prop with
  | Some n, Some v =>
      if Js.nonEmpty n && Js.nonEmpty v then Some (mkProp n v) else None
  | _, _ => None
  end.

(** [getPageProperties]: a failed request leaves the list empty. *)
Definition getPageProperties (platform : Platform) (page : PageData)
    : list PageProp * Trace :=
  (match pageProperties platform (lib page) (id page) with
   | Some raw =>
       List.filter (fun prop => negb (Js.includes (propName prop) "editedby"))
                   (omap addProperty raw)
   | None => []
   end,
   [GetPageProperties (lib page) (id page)]).

(** [getPageContent] *)
Definition getPageContent (platform : Platform) (page : PageData)
    : option string * Trace :=
  (pageBody platform (lib page) (id page), [GetPageContents (lib page) (id page)]).

(** [pageProps.findIndex(...)] with [splice]: the first overview
    property and the list without it. *)
Fixpoint takeOverview (pageProps : list PageProp) : option string * list PageProp :=
  match pageProps with
  | [] => (None, [])
  | prop :: rest =>
      if String.eqb (propName prop) "mindtouch.page#overview"
      then (Some (propValue prop), rest)
      else let (found, rest') := takeOverview rest in (found, prop :: rest')
  end.

Definition withFetched (c : option string) (s : option string) (p : list PageProp)
    (d : PageData) : PageData :=
  mkPageData (lib d) (id d) (url d) (title d) (tags d) (path d)
    (urlNumPrefix d) (urlTitleExtract d) (root d) (parent d)
    c (match s with Some _ => s | None => summary d end) (Some p).

(** [async.mapLimit(subpages, MAX_CONCURRENT, f)], one after the other. *)
Definition mapLimit {A B : Type} (f : A -> Run B) : list A -> Run (list B) :=
  fix loop (l : list A) : Run (list B) :=
    match l with
    | [] => ret []
    | a :: rest =>
        perform b <~ f a;
        perform others <~ loop rest;
        ret (b :: others)
    end.

(** Logging [page.lib] of [null] throws before any request is made. *)
Fixpoint getSubpageContents (platform : Platform) (page : Page) : Run Page :=
  match page with
  | Null => raise
  | Obj currPage subpages =>
      let (body, requested) := getPageContent platform currPage in
      let (pageProps, requested') := getPageProperties platform currPage in
      let (overview, pageProps') := takeOverview pageProps in
      perform _ <~ (Returned tt, requested ++ requested');
      perform subpages' <~ mapLimit (getSubpageContents platform) subpages;
      ret (Obj (withFetched body overview pageProps' currPage) subpages')
  end.

(** ** Content transform on a tree *)

Definition mapOutcome {A B : Type} (f : A -> Outcome B) : list A -> Outcome (list B) :=
  fix loop (l : list A) : Outcome (list B) :=
    match l with
    | [] => Returned []
    | a :: rest =>
        call b <~ f a;
        call others <~ loop rest;
        Returned (b :: others)
    end.

Fixpoint processPageContents (page : Page) : Outcome Page :=
  match page with
  | Null => Thrown
  | Obj pageData subpages =>
      call subpages' <~ mapOutcome processPageContents subpages;
      Returned (Obj (processContentsOf pageData) subpages')
  end.

(** ** Batch Exporter: [createUploadCommands], [uploadLibreText] *)

Definition coverIDOf (page : PageData) : string := (lib page ++ "-" ++ id page)%string.

(** The keys of the upload commands.  [Buffer.from] throws on contents
    that are no string. *)
Fixpoint createUploadCommands (page : Page) (directory : option string)
    : Outcome (list string) :=
  match page with
  | Null => Thrown
  | Obj d subpages =>
      call dirRoot <~
        (if root d then Returned (coverIDOf d)
         else match directory with
              | Some dir => Returned dir
              | None => Thrown
              end);
      match contents d with
      | None => Thrown
      | Some _ =>
          let fileKey := (dirRoot ++ "/" ++ coverIDOf d ++ ".html")%string in
          call below <~
            mapOutcome (fun sub => createUploadCommands sub (Some dirRoot)) subpages;
          Returned (fileKey :: List.concat below)
      end
  end.

(** Object storage and the translation service. *)
Record Cloud := mkCloud {
  putObject : Bucket -> string -> Reply;
  startJob : string -> Reply }.

Definition allResolved (replies : list Reply) : bool :=
  forallb (fun r => match r with Rejected => false | _ => true end) replies.

Definition failCount (replies : list Reply) : nat :=
  List.length (List.filter (fun r => match r with Ok200 => false | _ => true end)
                           replies).

(** The [try] block of [uploadLibreText]: all content writes are started,
    the metadata record is written when none of them failed. *)
Definition uploadAll (cloud : Cloud) (page : Page) : Run bool :=
  match createUploadCommands page None with
  | Returned uploadCommands =>
      let uploadResponses := map (putObject cloud InputBucket) uploadCommands in
      perform _ <~ (Returned tt, map (PutObject InputBucket) uploadCommands);
      if allResolved uploadResponses then
        if Nat.eqb (failCount uploadResponses) 0 then
          match createFlatPageMetadataList page, page with
          | Returned _, Obj d _ =>
              let rootID := coverIDOf d in
              let key := (rootID ++ "/" ++ rootID ++ ".metadata.json")%string in
              perform _ <~ emit (PutObject OutputBucket key);
              match putObject cloud OutputBucket key with
              | Rejected => raise
              | _ => ret true
              end
          | _, _ => raise
          end
        else ret false
      else raise
  | _ => raise
  end.

Definition uploadLibreText (cloud : Cloud) (page : Page) : Run bool :=
  match page with
  | Null => ret false
  | _ => orElse (uploadAll cloud page) false
  end.

(** ** Translation Submitter: [initiateTranslationJob] *)

Definition initiateTranslationJob (cloud : Cloud) (coverID : string)
    (outLangCode : option string) : Run bool :=
  match outLangCode with
  | Some code =>
      if Nat.ltb (String.length code) 2 then ret false
      else
        perform _ <~ emit (StartTranslationJob coverID code);
        match startJob cloud coverID with
        | Ok200 => ret true
        | _ => ret false
        end
  | None => ret false
  end.

(** ** Stage A: [startTranslation] *)

Record Request := mkRequest {
  reqLib : string;
  reqPath : string;
  reqTargetLib : string;
  reqTargetPath : string;
  reqLanguage : option string }.

Record SourceEnv := mkSourceEnv {
  request : option Request;
  queueDelete : Reply;
  libraryKeys : bool;
  platform : Platform;
  cloud : Cloud }.

Definition startTranslation (env : SourceEnv) : Run bool :=
  match request env with
  | None => raise
  | Some reqParams =>
      perform _ <~ emit DeleteQueueMessage;
      match queueDelete env with
      | Rejected => raise
      | NotOk => ret false
      | Ok200 =>
          perform _ <~ emit (GetLibraryKeys (reqLib reqParams));
          if negb (libraryKeys env) then ret false
          else
            let (found, requested) :=
              retrieveSubpages (site (platform env)) (reqLib reqParams)
                               (reqPath reqParams) None in
            perform _ <~ (Returned tt, requested);
            match found with
            | Null => ret false
            | Obj rootData _ =>
                perform fetched <~ getSubpageContents (platform env) found;
                perform processed <~ (processPageContents fetched, []);
                perform _ <~ uploadLibreText (cloud env) processed;
                perform trnsJob <~
                  initiateTranslationJob (cloud env) (coverIDOf rootData)
                                         (reqLanguage reqParams);
                ret true
            end
      end
  end.

Definition isContentFetch (e : Event) : bool :=
  match e with GetPageContents _ _ => true | _ => false end.

(** ** Tree Reconstructor: [createPageStructure], [mergeInputStructure] *)

(** [JobMetadataRecord], as parsed from the stored JSON; a field that the
    reader validates may be missing or of another type. *)
Record JobMetadataRecord := mkJobMetadata {
  coverLib : string;
  coverID : string;
  pageCount : nat;
  uploaded : string;
  allPages : option (list PageData);
  targetLib : option string;
  targetPath : option string;
  notifyAddrs : option (list string) }.

(** [!subpage.root && subpage.parent === currPage.id] *)
Definition isSubpageOf (currPage subpage : PageData) : bool :=
  negb (root subpage) &&
  match parent subpage with
  | Some p => String.eqb p (id currPage)
  | None => false
  end.

(** The loop of [createPageStructure] over [inputPages]. *)
Definition attachSubpages (structure : PageData -> Outcome Page) (currPage : PageData)
  : list PageData -> Outcome (list Page) :=
  fix loop (pages : list PageData) : Outcome (list Page) :=
    match pages with
    | [] => Returned []
    | subpage :: rest =>
        if isSubpageOf currPage subpage then
          call sub <~ structure subpage;
          call others <~ loop rest;
          Returned (sub :: others)
        else loop rest
    end.

Fixpoint createPageStructure (fuel : nat) (page : PageData) (inputPages : list PageData)
    : Outcome Page :=
  match fuel with
  | O => Diverges
  | S fuel' =>
      call foundSubpages <~
        attachSubpages (fun subpage => createPageStructure fuel' subpage inputPages)
                       page inputPages;
      Returned (Obj page foundSubpages)
  end.

(** [page.lib === inputPage.lib && page.id === inputPage.id] *)
Definition samePage (page inputPage : PageData) : bool :=
  String.eqb (lib page) (lib inputPage) && String.eqb (id page) (id inputPage).

(** The object [{ ...page, root, parent, tags, props, path, urlNumPrefix,
    urlTitleExtract }] with the seven fields taken from [foundInput]. *)
Definition withStructureOf (foundInput page : PageData) : PageData :=
  mkPageData (lib page) (id page) (url page) (title page) (tags foundInput)
    (path foundInput) (urlNumPrefix foundInput) (urlTitleExtract foundInput)
    (root foundInput) (parent foundInput) (contents page) (summary page)
    (props foundInput).

(** The [map] of [mergeInputStructure]; reading [lib] of a [null] page
    throws. *)
Fixpoint mergePages (inputPages : list PageData) (translatedPages : list (option PageData))
    : Outcome (list (option PageData)) :=
  match translatedPages with
  | [] => Returned []
  | None :: _ => Thrown
  | Some page :: rest =>
      call others <~ mergePages inputPages rest;
      Returned (option_map (fun foundInput => withStructureOf foundInput page)
                  (List.find (samePage page) inputPages) :: others)
  end.

Definition mergeInputStructure (fuel : nat) (inputMetadata : option JobMetadataRecord)
    (translatedPages : list (option PageData)) : Outcome Page :=
  match inputMetadata with
  | None => Returned Null
  | Some metadata =>
      match allPages metadata with
      | None => Returned Null
      | Some inputPages =>
          call merged <~ mergePages inputPages translatedPages;
          let pagesData := omap (fun page => page) merged in
          match List.find root pagesData with
          | None => Returned Null
          | Some rootPage => createPageStructure fuel rootPage pagesData
          end
      end
  end.

(** Each entry that is no root names a parent identifier that exactly one
    entry of the list bears. *)
Definition parentsResolveOnce (l : list PageData) : Prop :=
  forall e x, In e l -> root e = false -> parent e = Some x ->
              List.length (List.filter (fun e' => String.eqb (id e') x) l) = 1.

(** Page trees without [null]: the page values on which the flattener
    returns. *)
#[warnings="-register-all"]
Inductive Tree :=
  | Node (d : PageData) (subtrees : list Tree).

Fixpoint toPage (t : Tree) : Page :=
  match t with Node d subtrees => Obj d (map toPage subtrees) end.

Definition entry (t : Tree) : PageData :=
  match t with Node d _ => deleteContents d end.

Fixpoint entries (t : Tree) : list PageData :=
  match t with Node d subtrees => deleteContents d :: flat_map entries subtrees end.

Fixpoint stripped (t : Tree) : Tree :=
  match t with Node d subtrees => Node (deleteContents d) (map stripped subtrees) end.

Fixpoint height (t : Tree) : nat :=
  match t with Node _ subtrees => S (list_max (map height subtrees)) end.

Definition children (t : Tree) : list Tree :=
  match t with Node _ subtrees => subtrees end.

(** [within s t]: [s] is [t] or a tree below [t]. *)
Inductive within (s : Tree) : Tree -> Prop :=
  | within_here : within s s
  | within_below d subtrees c :
      In c subtrees -> within s c -> within s (Node d subtrees).

Definition hasId (x : string) (e : PageData) : bool := String.eqb (id e) x.

(** The number of nodes of a tree that bear an identifier. *)
Definition bearers (x : string) (t : Tree) : nat :=
  List.length (List.filter (hasId x) (entries t)).

(** The entries strictly below the top of a tree that name a page as
    their parent. *)
Definition below (currPage : PageData) (t : Tree) : list PageData :=
  List.filter (isSubpageOf currPage) (flat_map entries (children t)).

(** The entries of the children of the first node, in pre-order, that bears
    an identifier. *)
Fixpoint childrenAt (x : string) (t : Tree) : list PageData :=
  match t with
  | Node d subtrees =>
      if String.eqb (id d) x then map entry subtrees
      else flat_map (childrenAt x) subtrees
  end.

(** ** Hierarchical Writer: destination paths *)

(** [assembleUrl(parts)] *)
Definition assembleUrl (parts : list string) : string :=
  fold_left
    (fun url currPart =>
       if Js.nonEmpty currPart then
         (if negb (Js.endsWith url "/") && Nat.ltb 1 (String.length (Js.trim url))
          then url ++ "/" else url) ++ currPart
       else url)%string
    parts EmptyString.

(** The path segment of a page, [newPagePath] in [saveToLibrary]. *)
Definition newPagePath (page : PageData) : string :=
  let trimTitle := Js.trim (title page) in
  let newPagePath :=
    match urlNumPrefix page with
    | Some num =>
        if Js.nonEmpty num then
          let splitTitle := Js.split ":" trimTitle in
          let newPageURLTitle :=
            match splitTitle with
            | _ :: second :: _ => Js.trim second
            | _ => trimTitle
            end in
          (num ++ ": " ++ newPageURLTitle)%string
        else trimTitle
    | None => trimTitle
    end in
  Js.replaceAllChar " " "_" newPagePath.

(** The text of a string up to its first colon, and the text after it. *)
Fixpoint upToColon (s : string) : string :=
  match s with
  | String c s' => if Ascii.eqb c ":" then EmptyString else String c (upToColon s')
  | EmptyString => EmptyString
  end.

Fixpoint afterColon (s : string) : option string :=
  match s with
  | String c s' => if Ascii.eqb c ":" then Some s' else afterColon s'
  | EmptyString => None
  end.

(** The text of a string up to the first occurrence of a character, and
    the text after it. *)
Fixpoint upToChar (c : ascii) (s : string) : string :=
  match s with
  | String a s' => if Ascii.eqb a c then EmptyString else String a (upToChar c s')
  | EmptyString => EmptyString
  end.

Fixpoint afterChar (c : ascii) (s : string) : option string :=
  match s with
  | String a s' => if Ascii.eqb a c then Some s' else afterChar c s'
  | EmptyString => None
  end.

(** ** Job Correlator: [retrieveTranslationJobDetails] *)

(** An entry of [details] in the manifest of a translation job. *)
Record Detail := mkDetail { sourceFile : string; targetFile : string }.

(** The manifest that the translation service writes, as parsed from its
    JSON; a field that the reader inspects may be missing. *)
Record Manifest := mkManifest {
  sourceLanguageCode : string;
  targetLanguageCode : string;
  charactersTranslated : string;
  inputDataPrefix : option string;
  outputDataPrefix : string;
  details : option (list Detail);
  documentCountWithCustomerError : option string;
  documentCountWithServerError : option string }.

(** What a stored object holds: JSON with the shape of a manifest or of a
    metadata record, translated HTML (with the page that its provenance
    markers give, if they are intact), or anything else. *)
Inductive Document :=
  | ManifestDoc (m : Manifest)
  | MetadataDoc (r : JobMetadataRecord)
  | PageDoc (fragment : option PageData)
  | OtherDoc.

(** The answer of object storage to a read. *)
Inductive Stored :=
  | Body (doc : Document)
  | NoBody
  | ReadRejected.

(** [Number.parseInt(s, 10)]; [None] is [NaN]. *)
Fixpoint digitsValue (acc : option nat) (s : string) : option nat :=
  match s with
  | String c s' =>
      if Js.isDigit c
      then digitsValue
             (Some (10 * (match acc with Some n => n | None => 0 end)
                    + (nat_of_ascii c - 48))) s'
      else acc
  | EmptyString => acc
  end.

Definition parseInt10 (v : option string) : option Z :=
  match v with
  | None => None
  | Some s =>
      match Js.trimStart s with
      | String "-" r => option_map (fun n => (- Z.of_nat n)%Z) (digitsValue None r)
      | String "+" r => option_map Z.of_nat (digitsValue None r)
      | t => option_map Z.of_nat (digitsValue None t)
      end
  end.

(** The services of stage B. *)
Record TargetEnv := mkTargetEnv {
  jobId : option string;
  describeJob : string -> option (string * string);
  outputBucket : string;
  getObject : string -> Stored;
  libraryKeysOf : string -> bool;
  sendEmail : Reply;
  assignID : string -> string;
  parsesAsJSON : string -> bool }.

(** [getTranslationDetailsURI] *)
Definition getTranslationDetailsURI (env : TargetEnv) (jobID : string)
    : Run (option string) :=
  perform _ <~ emit (DescribeJob jobID);
  match describeJob env jobID with
  | Some (outputFolder, outputLangCode) =>
      ret (Some (outputFolder ++ "details/" ++ outputLangCode
                 ++ ".auxiliary-translation-details.json")%string)
  | None => ret None
  end.

(** [getFileContents]: without a bucket name or a key nothing is asked;
    a rejected read is not caught. *)
Definition getFileContents (env : TargetEnv) (key : string) : Run (option Document) :=
  if Nat.eqb (String.length (outputBucket env)) 0 || Nat.eqb (String.length key) 0
  then ret None
  else
    let formattedKey :=
      Js.replaceFirst (outputBucket env ++ "/") ""
        (Js.replaceFirst "s3://" "" key) in
    perform _ <~ emit (GetObject formattedKey);
    match getObject env formattedKey with
    | Body doc => ret (Some doc)
    | NoBody => ret None
    | ReadRejected => raise
    end.

Record JobDetails := mkJobDetails {
  jobLib : string;
  jobCoverID : string;
  jobOutputDataPrefix : string;
  jobFiles : list Detail;
  clientErrors : Z;
  serverErrors : Z }.

(** The second piece of the input path, [inputCoverID]. *)
Definition inputCoverIDOf (prefix : string) : option string :=
  match Js.split "/" (Js.replaceFirst "s3://" "" prefix) with
  | _ :: inputCoverID :: _ => Some inputCoverID
  | _ => None
  end.

(** [const [lib, id] = inputCoverID.split('-')] with the two checks. *)
Definition decodeCoverID (inputCoverID : string) : option (string * string) :=
  match Js.split "-" inputCoverID with
  | l :: i :: _ => if Js.nonEmpty l && Js.nonEmpty i then Some (l, i) else None
  | _ => None
  end.

(** The part of [retrieveTranslationJobDetails] after the manifest was
    read and parsed; a missing [inputDataPrefix] throws. *)
Definition jobDetailsOf (detailsFile : Manifest) : Outcome (option JobDetails) :=
  match details detailsFile with
  | None => Returned None
  | Some files =>
      match inputDataPrefix detailsFile with
      | None => Thrown
      | Some prefix =>
          match inputCoverIDOf prefix with
          | None => Returned None
          | Some inputCoverID =>
              if negb (Js.nonEmpty inputCoverID) then Returned None
              else
                match decodeCoverID inputCoverID with
                | None => Returned None
                | Some (l, i) =>
                    match parseInt10 (documentCountWithCustomerError detailsFile),
                          parseInt10 (documentCountWithServerError detailsFile) with
                    | Some clientErrs, Some serverErrs =>
                        Returned (Some (mkJobDetails l i
                                          (outputDataPrefix detailsFile) files
                                          clientErrs serverErrs))
                    | _, _ => Returned None
                    end
                end
          end
      end
  end.

Definition retrieveTranslationJobDetails (env : TargetEnv) (filename : string)
    : Run (option JobDetails) :=
  if negb (Js.nonEmpty filename) then ret None
  else
    perform detailsFileContents <~ getFileContents env filename;
    match detailsFileContents with
    | Some (ManifestDoc detailsFile) => (jobDetailsOf detailsFile, [])
    | _ => ret None
    end.

(** [retrieveInputMetadata] *)
Definition retrieveInputMetadata (env : TargetEnv) (filename : string)
    : Run (option JobMetadataRecord) :=
  if negb (Js.nonEmpty filename) then ret None
  else
    perform metaContents <~ getFileContents env filename;
    match metaContents with
    | Some (MetadataDoc metadata) =>
        if Js.isNonEmptyString (targetLib metadata)
           && Js.isNonEmptyString (targetPath metadata)
           && is_Some_bool (allPages metadata)
        then ret (Some metadata) else ret None
    | _ => ret None
    end.

(** [retrieveAndProcessTranslatedContent] *)
Definition retrieveAndProcessTranslatedContent (env : TargetEnv) (filename : string)
    : Run (option PageData) :=
  if negb (Js.nonEmpty filename) then ret None
  else
    perform translatedContents <~ getFileContents env filename;
    match translatedContents with
    | Some (PageDoc fragment) => ret fragment
    | _ => ret None
    end.

(** The two parts of a cover identifier: the text before its first hyphen
    and the text after it, up to a second hyphen; [None] when the segment
    lacks the hyphen. *)
Definition coverParts (segment : string) : option (string * string) :=
  match afterChar "-" segment with
  | Some rest => Some (upToChar "-" segment, upToChar "-" rest)
  | None => None
  end.

(** Whether a segment is a well-formed cover identifier: it has the
    hyphen, and neither part is blank. *)
Definition wellFormedCover (segment : string) : bool :=
  match coverParts segment with
  | Some (l, i) => Js.nonEmpty l && Js.nonEmpty i
  | None => false
  end.

(** ** Hierarchical Writer: [saveToLibrary] *)

(** The pages of the destination library: path to contents. *)
Abbreviation Library := (gmap string string).

(** The answer to a page-creation request. *)
Inductive Creation :=
  | Created (newPageID : string)
  | Refused.

(** The destination platform's page creation, as far as the writer relies
    on it: with [abort=exists] a request for a path that holds a page is
    refused and changes nothing; any other request stores the contents. *)
Definition createPage (assign : string -> string) (abortIfExists : bool)
    (pagePath body : string) (library : Library) : Creation * Library :=
  match library !! pagePath with
  | Some _ =>
      if abortIfExists then (Refused, library)
      else (Created (assign pagePath), <[pagePath := body]> library)
  | None => (Created (assign pagePath), <[pagePath := body]> library)
  end.

(** [savePageTags]: best effort, one request. *)
Definition savePageTags (targetLib : string) (page : PageData) (newPageID : string)
    : Trace :=
  [PutTags targetLib newPageID
     (tags page ++ [("source[translate]-" ++ lib page ++ "-" ++ id page)%string])].

(** [savePageProperties]: best effort, one request when there is a
    property or a summary to save.  The value of a guide-tabs property is
    parsed as JSON first; when that fails nothing is sent. *)
Definition savePageProperties (parses : string -> bool) (targetLib : string)
    (page : PageData) (newPageID : string) : Trace :=
  let pageProps := match props page with Some l => l | None => [] end in
  if forallb (fun prop => negb (Js.includes (propName prop) "idf.guideTabs")
                          || parses (propValue prop)) pageProps
  then match pageProps, Js.isNonEmptyString (summary page) with
       | [], false => []
       | _, _ => [PutProperties targetLib newPageID]
       end
  else [].

Definition hasThumbnail (page : PageData) : bool :=
  includesTag "article:topic-category" (tags page)
  || includesTag "article:topic-guide" (tags page).

(** [async.eachLimit(page.subpages, MAX_CONCURRENT, f)], one after the
    other; the result of [f] is dropped. *)
Definition eachLimit {A : Type} (f : A -> Library -> bool * Trace * Library)
  : list A -> Library -> Trace * Library :=
  fix loop (l : list A) (library : Library) : Trace * Library :=
    match l with
    | [] => ([], library)
    | a :: rest =>
        let '(_, requested, library') := f a library in
        let '(requested', library'') := loop rest library' in
        (requested ++ requested', library'')
    end.

Fixpoint saveToLibrary (assign : string -> string) (parses : string -> bool)
    (page : Page)
    (targetLib targetPath parentPath : string) (library : Library)
    : bool * Trace * Library :=
  match page with
  | Null => (false, [], library)
  | Obj d subpages =>
      if negb (Js.nonEmpty targetLib) || negb (Js.nonEmpty targetPath)
      then (false, [], library)
      else
        let trimTitle := Js.trim (title d) in
        let pagePath := assembleUrl [targetPath; parentPath; newPagePath d] in
        match contents d with
        | None => (false, [], library)
        | Some body =>
            let request := CreatePage targetLib pagePath trimTitle true in
            match createPage assign true pagePath (Js.trim body) library with
            | (Refused, library1) => (false, [request], library1)
            | (Created newPageID, library1) =>
                if negb (Js.nonEmpty newPageID) then (false, [request], library1)
                else
                  let '(below, library2) :=
                    eachLimit
                      (fun subpage =>
                         saveToLibrary assign parses subpage targetLib targetPath
                           (assembleUrl [parentPath; newPagePath d]))
                      subpages library1 in
                  (true,
                   request :: savePageTags targetLib d newPageID
                   ++ savePageProperties parses targetLib d newPageID
                   ++ below
                   ++ (if hasThumbnail d
                       then [CopyThumbnail (lib d) (id d) targetLib newPageID]
                       else []),
                   library2)
            end
        end
  end.

(** The path at which [saveToLibrary] creates a page. *)
Definition destinationOf (d : PageData) (targetPath parentPath : string) : string :=
  assembleUrl [targetPath; parentPath; newPagePath d].

Definition abortsIfExists (e : Event) : bool :=
  match e with CreatePage _ _ _ flag => flag | _ => true end.

(** A save is safe for a library when every creation request it makes
    carries the flag and every page of the library is still there, with
    its contents, afterwards. *)
Definition safe (library : Library) (r : bool * Trace * Library) : Prop :=
  Forall (fun ev => abortsIfExists ev = true) (snd (fst r)) /\
  forall p body, library !! p = Some body -> snd r !! p = Some body.

(** ** Stage B: [processTranslated] *)

(** [sendCompletionNotification] *)
Definition sendCompletionNotification (env : TargetEnv)
    (addresses : option (list string)) : Run bool :=
  match addresses with
  | None | Some [] => ret true
  | Some addrs =>
      perform _ <~ emit (SendEmail addrs);
      match sendEmail env with
      | Ok200 => ret true
      | _ => ret false
      end
  end.

(** A call that uses the destination library. *)
Definition Save (A : Type) : Type := (Outcome A * Trace * Library)%type.

Definition after {A B : Type} (m : Run A) (library : Library)
    (k : A -> Save B) : Save B :=
  match fst m with
  | Returned a => let '(o, requested, library') := k a in
                  (o, snd m ++ requested, library')
  | Thrown => (Thrown, snd m, library)
  | Diverges => (Diverges, snd m, library)
  end.

(** The translated page of every output file. *)
Definition translatedPagesOf (env : TargetEnv) (job : JobDetails)
    : Run (list (option PageData)) :=
  mapLimit (fun f => retrieveAndProcessTranslatedContent env
                       (jobOutputDataPrefix job ++ targetFile f)%string)
           (jobFiles job).

Definition processTranslated (fuel : nat) (env : TargetEnv) (library : Library)
    : Save bool :=
  if negb (Js.isNonEmptyString (jobId env)) then (Returned false, [], library)
  else
    let jobID := match jobId env with Some j => j | None => EmptyString end in
    after (getTranslationDetailsURI env jobID) library (fun transOutputURI =>
    match transOutputURI with
    | None => (Returned false, [], library)
    | Some uri =>
    after (retrieveTranslationJobDetails env uri) library (fun jobMetadata =>
    match jobMetadata with
    | None => (Returned false, [], library)
    | Some job =>
    let sourceCoverID := (jobLib job ++ "-" ++ jobCoverID job)%string in
    after (retrieveInputMetadata env
             (sourceCoverID ++ "/" ++ sourceCoverID ++ ".metadata.json")%string)
          library (fun inputMetadata =>
    match inputMetadata with
    | None => (Returned false, [], library)
    | Some metadata =>
    let target := match targetLib metadata with Some t => t | None => EmptyString end in
    let targetRoot :=
      match targetPath metadata with Some t => t | None => EmptyString end in
    let srcParams := libraryKeysOf env (coverLib metadata) in
    let trgtParams := libraryKeysOf env target in
    after (Returned tt, [GetLibraryKeys (coverLib metadata); GetLibraryKeys target])
          library (fun _ =>
    if negb (srcParams && trgtParams) then (Returned false, [], library)
    else
    after (translatedPagesOf env job) library (fun translatedPages =>
    after (mergeInputStructure fuel (Some metadata) translatedPages, []) library
          (fun pageStructure =>
    let '(saveSuccess, requested, library') :=
      saveToLibrary (assignID env) (parsesAsJSON env) pageStructure target targetRoot
                    EmptyString
                    library in
    if saveSuccess then
      let notified := sendCompletionNotification env (notifyAddrs metadata) in
      (Returned true, requested ++ snd notified, library')
    else (Returned false, requested, library'))))
    end)
    end)
    end).

(** ** Sample data: a cover page with one subpage *)

Module Sample.

Definition cover : PageData :=
  mkPageData "chem" "10" (Some "https://chem.libretexts.org/Cover") "Cover"
    ["coverpage:yes"] (Some "Cover") None None true None
    (Some "<p>cover</p>") None None.

Definition chapter : PageData :=
  mkPageData "chem" "11" (Some "https://chem.libretexts.org/Cover/1%3A_Intro")
    "1: Intro" [] (Some "Cover/1%3A_Intro") (Some "1") (Some "Intro")
    false (Some "10") (Some "<p>intro</p>") None None.

Definition tree : Page := Obj cover [Obj chapter []].

Definition section : PageData :=
  mkPageData "chem" "12" None "1.1: Intro" [] (Some "Cover/1.1%3A_Intro")
    (Some "1.1") (Some "Intro") false (Some "10") None None None.

Definition subsection : PageData :=
  mkPageData "chem" "13" None "1.1: Intro: Part 2" []
    (Some "Cover/1.1%3A_Intro%3A_Part_2") (Some "1.1") (Some "Intro")
    false (Some "10") None None None.

(** A page whose title holds a colon and no number. *)
Definition acids : PageData :=
  mkPageData "chem" "14" None "Acids: Bases" [] (Some "Cover/2%3A_Acids")
    (Some "2") (Some "Acids") false (Some "10") None None None.

Definition flat : list PageData := [deleteContents cover; deleteContents chapter].

Definition metadata : JobMetadataRecord :=
  mkJobMetadata "chem" "10" 2 "2023-01-01T00:00:00.000Z" (Some flat)
    (Some "espanol") (Some "Sandboxes/Translated") None.

(** The two pages as read back from the translated files. *)
Definition translatedCover : PageData :=
  mkPageData "chem" "10" None "Portada" [] None None None false None
    (Some "<p>portada</p>") (Some "") None.

Definition translatedChapter : PageData :=
  mkPageData "chem" "11" None "1: Introduccion" [] None None None false None
    (Some "<p>introduccion</p>") (Some "") None.

Definition site : Site :=
  Served "chem" "Cover"
    (mkPageInfo "10" "https://chem.libretexts.org/Cover" "Cover"
       (OneTag (Some "coverpage:yes")))
    [Served "chem" "Cover/1%3A_Intro"
       (mkPageInfo "11" "https://chem.libretexts.org/Cover/1%3A_Intro" "1: Intro"
          (TagArray []))
       []].

Definition source : Platform :=
  mkPlatform site
    (fun _ pageID => Some ("<p>page " ++ pageID ++ "</p>")%string)
    (fun _ _ => Some []).

Definition request : Request :=
  mkRequest "chem" "Cover" "espanol" "Sandboxes/Translated" (Some "es").

(** Object storage that fails to store the contents of page 11. *)
Definition failingCloud : Cloud :=
  mkCloud
    (fun _ key => if String.eqb key "chem-10/chem-11.html" then NotOk else Ok200)
    (fun _ => Ok200).

Definition failingExport : SourceEnv :=
  mkSourceEnv (Some request) Ok200 true source failingCloud.

(** The same text without the cover tag on its first page. *)
Definition plainSite : Site :=
  Served "chem" "Cover"
    (mkPageInfo "10" "https://chem.libretexts.org/Cover" "Cover" (TagArray []))
    [Served "chem" "Cover/1%3A_Intro"
       (mkPageInfo "11" "https://chem.libretexts.org/Cover/1%3A_Intro" "1: Intro"
          (TagArray []))
       []].

Definition noCover : SourceEnv :=
  mkSourceEnv (Some request) Ok200 true
    (mkPlatform plainSite (fun _ _ => Some "<p></p>") (fun _ _ => Some []))
    (mkCloud (fun _ _ => Ok200) (fun _ => Ok200)).

(** A job whose input prefix lacks the hyphen of the cover identifier. *)
Definition brokenManifest : Manifest :=
  mkManifest "en" "es" "1200" (Some "s3://polyglot-input/chem10/")
    "s3://polyglot-output/chem10/123-TranslateText-abc/"
    (Some [mkDetail "chem-10.html" "es.chem-10.html"]) (Some "0") (Some "0").

Definition brokenJob : TargetEnv :=
  mkTargetEnv (Some "abc")
    (fun _ => Some ("s3://polyglot-output/chem10/123-TranslateText-abc/", "es"))
    "polyglot-output"
    (fun key =>
       if String.eqb key
            "chem10/123-TranslateText-abc/details/es.auxiliary-translation-details.json"
       then Body (ManifestDoc brokenManifest) else NoBody)
    (fun _ => true) Ok200 (fun pagePath => ("id:" ++ pagePath)%string)
    (fun _ => true).

(** A destination library that holds a page where the cover would go. *)
Definition occupied : gmap string string :=
  <["Sandboxes/Translated/Cover" := "<p>already here</p>"]> ∅.

Definition layout : Heap.Layout := Heap.At 0 cover [Heap.At 1 chapter []].

Definition store : gmap nat Heap.Object :=
  <[0 := Heap.mkObject cover (Some [Some 1])]>
    (<[1 := Heap.mkObject chapter (Some [])]> ∅).

End Sample.

(** ** Further notions for the properties of the code *)

(** Whether a page value holds a [null] somewhere. *)
Fixpoint containsNull (page : Page) : bool :=
  match page with
  | Null => true
  | Obj _ subpages => existsb containsNull subpages
  end.

(** The entries of the page objects of a page value, in pre-order. *)
Fixpoint listed (page : Page) : list PageData :=
  match page with
  | Null => []
  | Obj d subpages => deleteContents d :: flat_map listed subpages
  end.

(** Whether the platform serves every page of a site with its listing. *)
Fixpoint allServed (site : Site) : bool :=
  match site with
  | Served _ _ _ listing => forallb allServed listing
  | _ => false
  end.

(** The number of requests that walking a site takes. *)
Fixpoint requestCount (site : Site) : nat :=
  match site with
  | Unreachable _ _ => 1
  | Unlisted _ _ _ => 2
  | Served _ _ _ listing => 2 + list_sum (map requestCount listing)
  end.

Definition isExport (e : Event) : bool :=
  match e with
  | PutObject _ _ | StartTranslationJob _ _ => true
  | _ => false
  end.

(** The page object after [getSubpageContents] fetched its contents and
    properties, and the page value after it did so for every page. *)
Definition fetchedData (platform : Platform) (d : PageData) : PageData :=
  let pageProps := fst (getPageProperties platform d) in
  withFetched (fst (getPageContent platform d)) (fst (takeOverview pageProps))
              (snd (takeOverview pageProps)) d.

Fixpoint fetched (platform : Platform) (page : Page) : Page :=
  match page with
  | Null => Null
  | Obj d subpages => Obj (fetchedData platform d) (map (fetched platform) subpages)
  end.

(** The page value after [processPageContents] rewrote every page. *)
Fixpoint processed (page : Page) : Page :=
  match page with
  | Null => Null
  | Obj d subpages => Obj (processContentsOf d) (map processed subpages)
  end.

(** The fields of an entry that discovery sets. *)
Definition structureOf (e : PageData) :=
  (lib e, id e, url e, title e, tags e, path e, urlNumPrefix e,
   urlTitleExtract e, root e, parent e).

Definition isFetch (e : Event) : bool :=
  match e with
  | GetPageContents _ _ | GetPageProperties _ _ => true
  | _ => false
  end.

Definition isOverview (prop : PageProp) : bool :=
  String.eqb (propName prop) "mindtouch.page#overview".

Definition isJobSubmission (e : Event) : bool :=
  match e with StartTranslationJob _ _ => true | _ => false end.

(** Whether every page of a page value is an object with contents. *)
Fixpoint complete (page : Page) : bool :=
  match page with
  | Null => false
  | Obj d subpages => is_Some_bool (contents d) && forallb complete subpages
  end.

Definition isOk (r : Reply) : bool :=
  match r with Ok200 => true | _ => false end.

Definition isRejected (r : Reply) : bool :=
  match r with Rejected => true | _ => false end.

(** What [getPageProperties] lets through. *)
Definition kept (prop : PageProp) : Prop :=
  Js.nonEmpty (propName prop) = true /\ Js.nonEmpty (propValue prop) = true /\
  Js.includes (propName prop) "editedby" = false.

(** [getPageProperties] on a listing whose entries may lack the [contents]
    object: reading the text of such an entry throws inside the [try]
    block, which ends the loop and skips the two filters; the properties
    pushed so far are returned. *)
Module Listing.

Record Entry := mkEntry {
  entryName : option string;
  entryContents : option (option string) }.

(** The loop over the listing: the properties pushed, and whether the loop
    came to its end. *)
Fixpoint addProperties (listing : list Entry) : list PageProp * bool :=
  match listing with
  | [] => ([], true)
  | prop :: rest =>
      match entryContents prop with
      | None => ([], false)
      | Some text =>
          let (foundProps, finished) := addProperties rest in
          (match addProperty (mkRawProp (entryName prop) text) with
           | Some found => found :: foundProps
           | None => foundProps
           end, finished)
      end
  end.

Definition getPageProperties (listing : list Entry) : list PageProp :=
  let (foundProps, finished) := addProperties listing in
  if finished
  then List.filter (fun prop => negb (Js.includes (propName prop) "editedby")) foundProps
  else foundProps.

Definition hasContents (prop : Entry) : bool := is_Some_bool (entryContents prop).

(** The entry as the fetcher of the platform model reads it. *)
Definition raw (prop : Entry) : RawProp :=
  mkRawProp (entryName prop) (mjoin (entryContents prop)).

End Listing.

Definition isDiscovery (e : Event) : bool :=
  match e with
  | GetPageInfo _ _ | GetSubpages _ _ => true
  | _ => false
  end.

(** The key under which the contents of an entry are stored. *)
Definition fileKeyOf (dirRoot : string) (e : PageData) : string :=
  (dirRoot ++ "/" ++ coverIDOf e ++ ".html")%string.

Definition metadataKeyOf (d : PageData) : string :=
  (coverIDOf d ++ "/" ++ coverIDOf d ++ ".metadata.json")%string.

(** Whether a character does not occur in a string. *)
Definition lacks (c : ascii) (s : string) : bool :=
  negb (Js.anyChar (Ascii.eqb c) s).

(** [S3Uri] of [InputDataConfig] in [initiateTranslationJob], which the
    translation service reports back as [inputDataPrefix]. *)
Definition jobInputURI (bucket coverID : string) : string :=
  ("s3://" ++ bucket ++ "/" ++ coverID ++ "/")%string.

(** The key of the metadata record that [processTranslated] reads. *)
Definition metadataKeyFor (job : JobDetails) : string :=
  let sourceCoverID := (jobLib job ++ "-" ++ jobCoverID job)%string in
  (sourceCoverID ++ "/" ++ sourceCoverID ++ ".metadata.json")%string.

Definition isEmail (e : Event) : bool :=
  match e with SendEmail _ => true | _ => false end.

(** A request that creates a page of a library under a path. *)
Definition createdUnder (targetLib targetPath : string) (e : Event) : Prop :=
  match e with
  | CreatePage l pagePath _ _ =>
      l = targetLib /\ exists rest, pagePath = (targetPath ++ rest)%string
  | _ => True
  end.

(** What stage B guarantees whatever it meets: a notification is sent only
    by a run that returns [true], and the pages of the library are kept. *)
Definition orderly (library : Library) (r : Save bool) : Prop :=
  (forall ev, In ev (snd (fst r)) -> isEmail ev = true ->
              fst (fst r) = Returned true) /\
  (forall p body, library !! p = Some body -> snd r !! p = Some body).

(** A matcher whose match is a non-empty text at the head of the text
    read. *)
Definition sound (matchAt : Matcher) : Prop :=
  forall before s m rest,
    matchAt before s = Some (m, rest) -> s = (m ++ rest)%string /\ m <> EmptyString.

(** The matches of an expression in a text. *)
Definition matchesOf (matchAt : Matcher) (s : string) : list Segment :=
  scan (String.length s) matchAt EmptyString s.

Definition backslash : ascii := ascii_of_nat 92.

(** ** Request addresses: [parseURL]

    The three regular expressions of [parseURL], read at the positions of a
    text from the left.  The dot matches every character but a line
    terminator (within ASCII: line feed and carriage return); none of the
    expressions has a flag. *)

Module Url.

Local Open Scope string_scope.

(** The scheme, [http], an optional [s], a colon and two slashes, at the
    head of a text: the text after it. *)
Definition afterScheme (s : string) : option string :=
  match Js.dropPrefix "https://" s with
  | Some t => Some t
  | None => Js.dropPrefix "http://" s
  end.

(** A lazy run of characters other than line terminators up to the first
    [stop]: the run, and the text after the stop. *)
Fixpoint lazyUpTo (stop s : string) : option (string * string) :=
  match Js.dropPrefix stop s with
  | Some rest => Some (EmptyString, rest)
  | None =>
      match s with
      | String c s' =>
          if isLineTerminator c then None
          else match lazyUpTo stop s' with
               | Some (run, rest) => Some (String c run, rest)
               | None => None
               end
      | EmptyString => None
      end
  end.

(** The greedy run of characters other than line terminators at the head
    of a text. *)
Fixpoint restOfLine (s : string) : string :=
  match s with
  | String c s' => if isLineTerminator c then EmptyString else String c (restOfLine s')
  | EmptyString => EmptyString
  end.

(** [s.match(regex)]: the answer at the first position that has one. *)
Fixpoint firstMatch {A : Type} (matchAt : string -> option A) (s : string) : option A :=
  match matchAt s with
  | Some a => Some a
  | None =>
      match s with
      | String _ s' => firstMatch matchAt s'
      | EmptyString => None
      end
  end.

(** The guard: a scheme, a lazy run, and the text [.libretexts.org]. *)
Definition libretextsRegex (url : string) : option (string * string) :=
  firstMatch (fun t => match afterScheme t with
                       | Some t1 => lazyUpTo ".libretexts.org" t1
                       | None => None
                       end) url.

(** The path: the rest of the line at the first position that a scheme, a
    lazy run and a slash lead up to (the look-behind). *)
Definition pathRegex (url : string) : option string :=
  firstMatch (fun t => match afterScheme t with
                       | Some t1 =>
                           match lazyUpTo "/" t1 with
                           | Some (_, rest) => Some (restOfLine rest)
                           | None => None
                           end
                       | None => None
                       end) url.

(** The subdomain: at the first position after a scheme (the look-behind)
    from which a lazy run reaches a dot (the look-ahead), that run. *)
Definition subdomainRegex (url : string) : option string :=
  firstMatch (fun t => match afterScheme t with
                       | Some t1 => option_map fst (lazyUpTo "." t1)
                       | None => None
                       end) url.

(** [parseURL(url)]: [None] is the empty array. *)
Definition parseURL (url : option string) : option (string * string) :=
  match url with
  | Some u =>
      if Js.nonEmpty u && is_Some_bool (libretextsRegex u) then
        let path := match pathRegex u with Some m => m | None => EmptyString end in
        let subdomain :=
          match subdomainRegex u with Some m => m | None => EmptyString end in
        Some (subdomain, path)
      else None
  | None => None
  end.

(** Whether a text holds no line terminator. *)
Definition oneLine (s : string) : bool := negb (Js.anyChar isLineTerminator s).

End Url.

(** ** Request ignition: [verifyAuthorization], [validateEventParams],
    [engineIgnition] *)

Module Ignition.

Local Open Scope string_scope.

(** The query string parameters of a request. *)
Record QueryParams := mkQuery {
  queryUrl : option string;
  queryTargetpath : option string;
  queryLanguage : option string;
  queryNotify : option string }.

(** [foundParams] *)
Record FoundParams := mkFound {
  language : option string;
  foundLib : option string;
  foundPath : option string;
  foundTargetLib : option string;
  foundTargetPath : option string;
  notifyAddrs : list string }.

(** The calls to services: the passphrase parameter and the queue. *)
Inductive Call :=
  | GetPassphrase
  | SendMessage (originalParams : QueryParams) (foundParams : FoundParams).

(** The two spellings of the authorization header. *)
Record Headers := mkHeaders {
  authorizationLower : option string;
  authorizationUpper : option string }.

(** [a || b] on values that are strings or [undefined]. *)
Definition orElseString (a b : option string) : option string :=
  match a with
  | Some (String _ _) => a
  | _ => b
  end.

(** [verifyAuthorization]; [passphrase] is the value that the parameter
    store answers with, [None] when the request fails or answers without
    one.  Every error is caught. *)
Definition verifyAuthorization (headers : option Headers) (passphrase : option string)
    : bool * list Call :=
  match headers with
  | None => (false, [])
  | Some h =>
      match orElseString (authorizationLower h) (authorizationUpper h) with
      | Some (String c authField) =>
          (match passphrase with
           | Some p => String.eqb p (Js.replaceFirst "Bearer " "" (String c authField))
           | None => false
           end, [GetPassphrase])
      | _ => (false, [])
      end
  end.

(** The loop over the addresses of [notify]. *)
Fixpoint checkAddresses (inputAddrs : list string) : list string * list string :=
  match inputAddrs with
  | [] => ([], [])
  | email :: rest =>
      let (validationErrors, addrs) := checkAddresses rest in
      let trimmed := Js.trim email in
      if Js.includes email "@" && Nat.ltb 0 (String.length trimmed)
      then (validationErrors, trimmed :: addrs)
      else (("Provided address " ++ email ++ " is invalid.") :: validationErrors, addrs)
  end.

Definition falsy (v : option string) : bool :=
  match v with
  | Some (String _ _) => false
  | _ => true
  end.

(** [validateEventParams]; reading a field of a missing parameters object
    throws. *)
Definition validateEventParams (queryParams : option QueryParams)
    : Outcome (bool * list string * FoundParams) :=
  match queryParams with
  | None => Thrown
  | Some q =>
      let e1 := if Js.isNonEmptyString (queryUrl q) then []
                else ["URL not provided or invalid form."] in
      let e2 := if Js.isNonEmptyString (queryTargetpath q) then []
                else ["Target path not provided or invalid form."] in
      let e3 := if Js.isNonEmptyString (queryLanguage q) then []
                else ["Language code not provided or invalid."] in
      let (e4, addrs) :=
        match queryNotify q with
        | Some notify => checkAddresses (Js.split "," notify)
        | None => ([], [])
        end in
      let source := Url.parseURL (queryUrl q) in
      let target := Url.parseURL (queryTargetpath q) in
      let lib := option_map fst source in
      let path := option_map snd source in
      let targetLib := option_map fst target in
      let targetPath := option_map snd target in
      let e5 := if falsy lib || falsy path then ["Invalid URL to translate."] else [] in
      let e6 := if falsy targetLib || falsy targetPath then ["Invalid target URL."]
                else [] in
      let validationErrors := (e1 ++ e2 ++ e3 ++ e4 ++ e5 ++ e6)%list in
      let errorsFound := Nat.ltb 0 (List.length validationErrors) in
      Returned (negb errorsFound, validationErrors,
                mkFound (queryLanguage q) lib path targetLib targetPath addrs)
  end.

(** The response: its status and, for a refused request, the validation
    errors. *)
Record Response := mkResponse { status : nat; errors : list string }.

Record Env := mkEnv {
  headers : option Headers;
  storedPassphrase : option string;
  queryStringParameters : option QueryParams;
  queue : Reply }.

(** [engineIgnition]; a rejected queue request is not caught. *)
Definition engineIgnition (env : Env) : Outcome Response * list Call :=
  let (authorized, asked) := verifyAuthorization (headers env) (storedPassphrase env) in
  if negb authorized then (Returned (mkResponse 401 []), asked)
  else
    match validateEventParams (queryStringParameters env),
          queryStringParameters env with
    | Returned (validParams, paramErrs, foundParams), Some original =>
        if negb validParams then (Returned (mkResponse 400 paramErrs), asked)
        else
          let calls := (asked ++ [SendMessage original foundParams])%list in
          match queue env with
          | Ok200 => (Returned (mkResponse 200 []), calls)
          | NotOk => (Returned (mkResponse 500 []), calls)
          | Rejected => (Thrown, calls)
          end
    | _, _ => (Thrown, asked)
    end.

(** A value that is a string with some character other than white
    space. *)
Definition given (v : option string) : Prop :=
  exists text, v = Some text /\ Js.nonEmpty text = true.

End Ignition.

(** Sample data for the further properties. *)
Module Cases.

(** An object that is its own first subpage. *)
Definition loop : gmap nat Heap.Object :=
  <[0 := Heap.mkObject Sample.cover (Some [Some 0])]> ∅.

(** The sample text with a chapter that the platform fails to serve. *)
Definition brokenSite : Site :=
  Served "chem" "Cover"
    (mkPageInfo "10" "https://chem.libretexts.org/Cover" "Cover"
       (OneTag (Some "coverpage:yes")))
    [Unreachable "chem" "Cover/1%3A_Intro"].

Definition brokenDiscovery : SourceEnv :=
  mkSourceEnv (Some Sample.request) Ok200 true
    (mkPlatform brokenSite (fun _ _ => Some "<p></p>") (fun _ _ => Some []))
    (mkCloud (fun _ _ => Ok200) (fun _ => Ok200)).

(** The sample tree as discovery returns it. *)
Definition discovered : Page :=
  Obj (deleteContents Sample.cover) [Obj (deleteContents Sample.chapter) []].

(** The manifest of the job for the sample cover. *)
Definition manifest : Manifest :=
  mkManifest "en" "es" "1200" (Some "s3://polyglot-input/chem-10/")
    "s3://polyglot-output/chem-10/123-TranslateText-abc/"
    (Some [mkDetail "chem-10.html" "es.chem-10.html"]) (Some "0") (Some "0").

(** An entry that names itself as its parent. *)
Definition selfParent : PageData :=
  mkPageData "chem" "12" None "1.1: Intro" [] (Some "Cover/1.1%3A_Intro")
    (Some "1.1") (Some "Intro") false (Some "12") None None None.

(** An authorized request for the sample text. *)
Definition ignition : Ignition.Env :=
  Ignition.mkEnv
    (Some (Ignition.mkHeaders (Some "Bearer secret") None)) (Some "secret")
    (Some (Ignition.mkQuery (Some "https://chem.libretexts.org/Cover")
             (Some "https://espanol.libretexts.org/Sandboxes/Translated")
             (Some "es") (Some "a@b.org, c@d.org")))
    Ok200.

(** Object storage that holds the metadata record of the sample job. *)
Definition completedJob : TargetEnv :=
  mkTargetEnv (Some "abc")
    (fun _ => Some ("s3://polyglot-output/chem-10/123-TranslateText-abc/", "es"))
    "polyglot-output"
    (fun key =>
       if String.eqb key "chem-10/chem-10.metadata.json"
       then Body (MetadataDoc Sample.metadata) else NoBody)
    (fun _ => true) Ok200 (fun pagePath => ("id:" ++ pagePath)%string)
    (fun _ => true).

(** A request that names no language. *)
Definition noLanguage : SourceEnv :=
  mkSourceEnv (Some (mkRequest "chem" "Cover" "espanol" "Sandboxes/Translated" None))
    Ok200 true Sample.source (mkCloud (fun _ _ => Ok200) (fun _ => Ok200)).

(** A listing whose entries all have a [contents] object, and a platform
    that serves it. *)
Definition wholeListing : list Listing.Entry :=
  [Listing.mkEntry (Some "mindtouch.page#editedby") (Some (Some "someone"));
   Listing.mkEntry (Some "mindtouch.page#overview") (Some (Some "A summary"));
   Listing.mkEntry (Some "mindtouch.page#welcomeHidden") (Some None)].

Definition listingPlatform : Platform :=
  mkPlatform Sample.site (fun _ _ => Some "<p></p>")
    (fun _ _ => Some (map Listing.raw wholeListing)).

(** A listing whose last entry has no [contents] object. *)
Definition brokenListing : list Listing.Entry :=
  [Listing.mkEntry (Some "mindtouch.page#editedby") (Some (Some "someone"));
   Listing.mkEntry (Some "mindtouch.page#welcomeHidden") None].

End Cases.

(** * Properties *)

(** C6: the path ["2.03%3ASome_Title"] parses, with number prefix ["2.03"]
    and title ["Some Title"] (underscores restored to spaces); the path
    ["Overview"], which has no delimiter, does not parse. *)
Theorem parsePagePath_examples :
  parsePagePath "2.03%3ASome_Title" = PathParsed "2.03" "Some Title" /\
  parseSuccess (parsePagePath "2.03%3ASome_Title") = true /\
  parseSuccess (parsePagePath "Overview") = false.
Proof. repeat split; vm_compute; reflexivity. Qed.

(** ** The flattener on the object store *)

Module HeapFacts.
Import Heap(loc, Object, mkObject, data, subpages, Store, flattenLoop,
            Layout, At, ref, refs, depth, laidOut, nodes, pageOf, flattened).

Lemma Layout_induction (P : Layout -> Prop) :
  (forall r d children, Forall P children -> P (At r d children)) ->
  forall t, P t.
Proof.
  intros step. fix IH 1. intros [r d children]. apply step.
  induction children as [|c l IHl]; constructor; [apply IH | exact IHl].
Qed.

Lemma laidOut_node h r d children :
  laidOut h (At r d children) <->
  h !! r = Some (mkObject d (Some (map (fun c => Some (ref c)) children))) /\
  Forall (laidOut h) children.
Proof.
  simpl. split; intros [H1 H2]; (split; [exact H1|]); clear H1.
  - induction children as [|c l IHl]; constructor; [apply H2 | apply IHl, H2].
  - induction H2; simpl; auto.
Qed.

Lemma flattened_node r d children h :
  flattened (At r d children) h =
  <[r := mkObject (deleteContents d) None]>
    (fold_left (fun h' c => flattened c h') children h).
Proof. reflexivity. Qed.

(** Flattening a layout touches the objects of the layout only. *)
Lemma flattened_frame t : forall h (l : loc),
  ~ In l (refs t) -> flattened t h !! l = h !! l.
Proof.
  induction t as [r d children IH] using Layout_induction.
  intros h l Hl. rewrite flattened_node. simpl in Hl.
  rewrite lookup_insert_ne by (intros ->; apply Hl; now left).
  assert (Hc : ~ In l (flat_map refs children)) by (intros ?; apply Hl; now right).
  clear Hl. revert h Hc.
  induction IH as [|c l' Hc' _ IHl]; intros h Hc; simpl in *; [reflexivity|].
  rewrite IHl by (intros ?; apply Hc, in_or_app; now right).
  apply Hc'. intros ?; apply Hc, in_or_app; now left.
Qed.

Lemma flattened_list_frame children : forall h (l : loc),
  ~ In l (flat_map refs children) ->
  fold_left (fun h' c => flattened c h') children h !! l = h !! l.
Proof.
  induction children as [|c l' IHl]; intros h l Hl; simpl in *; [reflexivity|].
  rewrite IHl by (intros ?; apply Hl, in_or_app; now right).
  apply flattened_frame. intros ?; apply Hl, in_or_app; now left.
Qed.

Lemma laidOut_agree t : forall h h',
  (forall l, In l (refs t) -> h' !! l = h !! l) ->
  laidOut h t -> laidOut h' t.
Proof.
  induction t as [r d children IH] using Layout_induction.
  intros h h' Hag. rewrite !laidOut_node. intros [Hr Hc]. split.
  - rewrite Hag; [exact Hr | now left].
  - assert (Hag' : forall l, In l (flat_map refs children) -> h' !! l = h !! l)
      by (intros l Hl; apply Hag; now right).
    clear Hag Hr. induction IH as [|c l' Hc' _ IHl]; constructor.
    + inversion Hc; subst. apply (Hc' h); auto.
      intros l Hl. apply Hag'. simpl. apply in_or_app; now left.
    + inversion Hc; subst. apply IHl; auto.
      intros l Hl. apply Hag'. simpl. apply in_or_app; now right.
Qed.

Lemma flattenLoop_spec rec (page : loc) (d : PageData) (children : list Layout) :
  forall rest done acc (h : Store),
    children = done ++ rest ->
    h !! page = Some (mkObject d (Some (map (fun c => Some (ref c)) children))) ->
    Forall (laidOut h) rest ->
    NoDup (flat_map refs rest) ->
    ~ In page (flat_map refs rest) ->
    Forall (fun c => forall h0, laidOut h0 c ->
                     rec h0 (Some (ref c)) = Returned (refs c, flattened c h0)) rest ->
    flattenLoop rec page (List.length rest) (List.length done) acc h =
    Returned (acc ++ flat_map refs rest,
              fold_left (fun h' c => flattened c h') rest h).
Proof.
  induction rest as [|c rest IH]; intros done acc h Hsplit Hpage Hlaid Hnd Hnotin Hrec.
  - simpl. now rewrite app_nil_r.
  - simpl in *. rewrite Hpage. simpl.
    assert (Hidx : map (fun c0 => Some (ref c0)) children !! List.length done
                   = Some (Some (ref c))).
    { rewrite Hsplit, list_lookup_fmap, lookup_app_r by reflexivity.
      now rewrite Nat.sub_diag. }
    rewrite Hidx. simpl.
    inversion Hlaid as [|? ? Hc Hrest]; subst.
    inversion Hrec as [|? ? Hrc Hrrest]; subst.
    rewrite (Hrc h Hc). simpl.
    apply NoDup_app in Hnd as (Hndc & Hdisj & Hndrest).
    assert (Hframe : forall l, In l (flat_map refs rest) ->
                               flattened c h !! l = h !! l).
    { intros l Hl. apply flattened_frame. intros Hin.
      apply (Hdisj l); [now apply list_elem_of_In | now apply list_elem_of_In]. }
    replace (S (List.length done)) with (List.length (done ++ [c]))
      by (rewrite length_app; simpl; lia).
    rewrite (IH (done ++ [c]) (acc ++ refs c) (flattened c h)).
    + now rewrite <- app_assoc.
    + now rewrite <- app_assoc.
    + rewrite flattened_frame; [exact Hpage|].
      intros Hin. apply Hnotin, in_or_app. now left.
    + clear - Hrest Hframe. induction Hrest as [|x l Hx _ IHl]; constructor.
      * apply (laidOut_agree x h); [|exact Hx].
        intros l0 Hl0. apply Hframe. simpl. apply in_or_app. now left.
      * apply IHl. intros l0 Hl0. apply Hframe. simpl. apply in_or_app. now right.
    + exact Hndrest.
    + intros Hin. apply Hnotin, in_or_app. now right.
    + exact Hrrest.
Qed.

(** On a tree laid out without sharing, the flattener returns the
    references of the nodes in pre-order and leaves the store [flattened]. *)
Lemma createFlatPageMetadataList_spec t : forall fuel (h : Store),
  depth t <= fuel -> NoDup (refs t) -> laidOut h t ->
  Heap.createFlatPageMetadataList fuel h (Some (ref t)) =
  Returned (refs t, flattened t h).
Proof.
  induction t as [r d children IH] using Layout_induction.
  intros fuel h Hfuel Hnd Hlaid.
  destruct fuel as [|fuel]; [simpl in Hfuel; lia|].
  apply laidOut_node in Hlaid as [Hr Hchildren].
  simpl in Hnd. apply NoDup_cons in Hnd as [Hnotin Hnd].
  rewrite list_elem_of_In in Hnotin.
  cbn [Heap.createFlatPageMetadataList ref]. rewrite Hr. cbn [subpages].
  rewrite length_map.
  rewrite (flattenLoop_spec _ r d children children [] [] h); auto.
  - simpl. rewrite flattened_list_frame by exact Hnotin. rewrite Hr. reflexivity.
  - simpl in Hfuel. apply le_S_n in Hfuel.
    apply list_max_le in Hfuel. rewrite Forall_map in Hfuel.
    assert (Hnd' : Forall (fun c => NoDup (refs c)) children).
    { clear - Hnd. induction children as [|c l IHl]; constructor.
      - simpl in Hnd. now apply NoDup_app in Hnd as (? & _ & _).
      - apply IHl. simpl in Hnd. now apply NoDup_app in Hnd as (_ & _ & ?). }
    clear - IH Hfuel Hnd'.
    induction IH as [|c l Hc _ IHl]; constructor.
    + intros h0 Hl0. inversion Hfuel; subst. inversion Hnd'; subst. now apply Hc.
    + inversion Hfuel; subst. inversion Hnd'; subst. now apply IHl.
Qed.

Lemma refs_nodes t : refs t = map fst (nodes t).
Proof.
  induction t as [r d children IH] using Layout_induction. simpl. f_equal.
  induction IH as [|c l Hc _ IHl]; simpl; [reflexivity|].
  now rewrite map_app, Hc, IHl.
Qed.

Lemma flattened_nodes t : forall (h : Store) r d,
  NoDup (refs t) -> In (r, d) (nodes t) ->
  flattened t h !! r = Some (mkObject (deleteContents d) None).
Proof.
  induction t as [r0 d0 children IH] using Layout_induction.
  intros h r d Hnd Hin. rewrite flattened_node. simpl in Hnd, Hin.
  apply NoDup_cons in Hnd as [Hnotin Hnd]. rewrite list_elem_of_In in Hnotin.
  destruct Hin as [Heq|Hin].
  { inversion Heq; subst. apply lookup_insert_eq. }
  assert (Hr : In r (flat_map refs children)).
  { apply in_flat_map in Hin as (c & Hc & Hn). apply in_flat_map.
    exists c. split; [exact Hc|]. rewrite refs_nodes.
    change r with (fst (r, d)). now apply in_map. }
  rewrite lookup_insert_ne by (intros ->; contradiction).
  clear Hnotin Hr. revert h Hnd Hin.
  induction IH as [|c l Hc _ IHl]; intros h Hnd Hin; simpl in *; [contradiction|].
  apply NoDup_app in Hnd as (Hndc & Hdisj & Hndl).
  apply in_app_or in Hin as [Hin|Hin].
  - rewrite flattened_list_frame; [now apply Hc|].
    intros Hl. apply (Hdisj r); [|now apply list_elem_of_In].
    apply list_elem_of_In. rewrite refs_nodes.
    change r with (fst (r, d)). now apply in_map.
  - now apply IHl.
Qed.

(** The function on page values computes the entries that the function on
    the store leaves behind. *)
Lemma createFlatPageMetadataList_pageOf t :
  createFlatPageMetadataList (pageOf t) =
  Returned (map (fun n => deleteContents (snd n)) (nodes t)).
Proof.
  induction t as [r d children IH] using Layout_induction.
  cbn [pageOf createFlatPageMetadataList nodes].
  match goal with |- bind ?m _ = _ =>
    assert (Hloop : m = Returned (map (fun n => deleteContents (snd n))
                                      (flat_map nodes children))) end.
  { induction IH as [|c l Hc _ IHl]; simpl; [reflexivity|].
    rewrite Hc. simpl. rewrite IHl. simpl. now rewrite map_app. }
  rewrite Hloop. reflexivity.
Qed.

(** C4, as the code has it: the flattener returns the nodes of the tree in
    pre-order, node before children, and the entries are the objects of the
    input tree themselves: the call deletes [contents] and [subpages] from
    every one of them, keeps their other fields, and touches no other
    object.  The entries read back are the list that the function on page
    values computes. *)
Theorem flattener_strips_the_input_in_place (t : Layout) (fuel : nat) (h : Store) :
  depth t <= fuel -> NoDup (refs t) -> laidOut h t ->
  exists h' : Store,
    Heap.createFlatPageMetadataList fuel h (Some (ref t)) = Returned (refs t, h') /\
    refs t = map fst (nodes t) /\
    (forall r d, In (r, d) (nodes t) ->
                 h' !! r = Some (mkObject (deleteContents d) None)) /\
    (forall l : loc, ~ In l (refs t) -> h' !! l = h !! l) /\
    createFlatPageMetadataList (pageOf t) =
      Returned (map (fun n => deleteContents (snd n)) (nodes t)).
Proof.
  intros Hfuel Hnd Hlaid. exists (flattened t h). repeat split.
  - now apply createFlatPageMetadataList_spec.
  - apply refs_nodes.
  - intros r d Hin. now apply flattened_nodes.
  - intros l Hl. now apply flattened_frame.
  - apply createFlatPageMetadataList_pageOf.
Qed.

Lemma sample_laidOut : laidOut Sample.store Sample.layout.
Proof. repeat split. Qed.

Lemma sample_NoDup : NoDup (refs Sample.layout).
Proof.
  simpl. apply NoDup_cons. split; [|apply NoDup_singleton].
  rewrite list_elem_of_In. simpl. intros [H|[]]. discriminate H.
Defined.

Lemma flattener_strips_the_input_in_place_witness :
  exists h' : Store,
    Heap.createFlatPageMetadataList 2 Sample.store (Some 0) = Returned ([0; 1], h') /\
    refs Sample.layout = map fst (nodes Sample.layout) /\
    (forall r d, In (r, d) (nodes Sample.layout) ->
                 h' !! r = Some (mkObject (deleteContents d) None)) /\
    (forall l : loc, ~ In l (refs Sample.layout) -> h' !! l = Sample.store !! l) /\
    createFlatPageMetadataList (pageOf Sample.layout) =
      Returned (map (fun n => deleteContents (snd n)) (nodes Sample.layout)).
Proof.
  apply (flattener_strips_the_input_in_place Sample.layout 2 Sample.store).
  - simpl. lia.
  - exact sample_NoDup.
  - repeat split.
Defined.

(** C4 as stated fails: the store after the call differs from the store
    before it; the cover page has lost its contents and its subpages. *)
Lemma flattener_modifies_the_input :
  exists h' : Store,
    Heap.createFlatPageMetadataList 2 Sample.store (Some 0) = Returned ([0; 1], h') /\
    h' !! 0 = Some (mkObject (deleteContents Sample.cover) None) /\
    Sample.store !! 0 = Some (mkObject Sample.cover (Some [Some 1])) /\
    h' <> Sample.store.
Proof.
  exists (flattened Sample.layout Sample.store).
  assert (H0 : flattened Sample.layout Sample.store !! 0 =
               Some (mkObject (deleteContents Sample.cover) None)).
  { apply flattened_nodes; [exact sample_NoDup | now left]. }
  split; [|split; [|split]].
  - apply (createFlatPageMetadataList_spec Sample.layout 2 Sample.store).
    + simpl. lia.
    + exact sample_NoDup.
    + exact sample_laidOut.
  - exact H0.
  - reflexivity.
  - intros Heq. rewrite Heq in H0. discriminate H0.
Qed.

End HeapFacts.

(** ** Strings *)

Module JsFacts.

Local Open Scope string_scope.

Lemma append_empty_r (s : string) : s ++ "" = s.
Proof. induction s as [|c s IH]; simpl; [reflexivity | now rewrite IH]. Qed.

Lemma append_assoc (a b c : string) : (a ++ b) ++ c = a ++ b ++ c.
Proof. induction a as [|x a IH]; simpl; [reflexivity | now rewrite IH]. Qed.

Lemma length_append (a b : string) :
  String.length (a ++ b) = String.length a + String.length b.
Proof. induction a as [|x a IH]; simpl; [reflexivity | now rewrite IH]. Qed.

Lemma dropPrefix_Some p : forall s rest,
  Js.dropPrefix p s = Some rest -> s = p ++ rest.
Proof.
  induction p as [|a p IH]; intros s rest H; simpl in *.
  - now inversion H.
  - destruct s as [|b s]; [discriminate|].
    destruct (Ascii.eqb a b) eqn:E; [|discriminate].
    apply Ascii.eqb_eq in E. subst. f_equal. now apply IH.
Qed.

Lemma dropPrefix_length p : forall s rest,
  Js.dropPrefix p s = Some rest ->
  String.length s = String.length p + String.length rest.
Proof.
  induction p as [|a p IH]; intros s rest H; simpl in *.
  - now inversion H.
  - destruct s as [|b s]; [discriminate|].
    destruct (Ascii.eqb a b); [|discriminate]. simpl. f_equal. now apply IH.
Qed.

Lemma splitFrom_nonempty fuel sep : forall acc s, Js.splitFrom fuel sep acc s <> [].
Proof.
  induction fuel as [|fuel IH]; intros acc s; simpl; [discriminate|].
  destruct s as [|c s]; [discriminate|].
  destruct (Js.dropPrefix sep (String c s)); [discriminate | apply IH].
Qed.

Lemma join_cons sep x l : l <> [] -> Js.join sep (x :: l) = x ++ sep ++ Js.join sep l.
Proof. destruct l; [congruence | reflexivity]. Qed.

(** Splitting cuts the string at separators and nowhere else. *)
Lemma join_splitFrom sep : sep <> "" -> forall fuel acc s,
  String.length s <= fuel ->
  Js.join sep (Js.splitFrom fuel sep acc s) = acc ++ s.
Proof.
  intros Hsep. induction fuel as [|fuel IH]; intros acc s Hlen.
  - destruct s; [reflexivity | simpl in Hlen; lia].
  - destruct s as [|c s]; [cbn [Js.splitFrom Js.join]; now rewrite append_empty_r|].
    cbn [Js.splitFrom]. destruct (Js.dropPrefix sep (String c s)) as [rest|] eqn:E.
    + rewrite join_cons by apply splitFrom_nonempty.
      pose proof (dropPrefix_length _ _ _ E) as Hl.
      rewrite IH.
      * simpl. now rewrite (dropPrefix_Some _ _ _ E).
      * destruct sep; [congruence|]. simpl in *. lia.
    + rewrite IH by (simpl in Hlen; lia).
      now rewrite append_assoc.
Qed.

Lemma join_split sep s : sep <> "" -> Js.join sep (Js.split sep s) = s.
Proof. intros H. unfold Js.split. now rewrite join_splitFrom. Qed.

(** More fuel than characters changes nothing. *)
Lemma splitFrom_fuel sep : sep <> "" -> forall n m acc s,
  String.length s <= n -> String.length s <= m ->
  Js.splitFrom n sep acc s = Js.splitFrom m sep acc s.
Proof.
  intros Hsep. induction n as [|n IH]; intros m acc s Hn Hm.
  - destruct s; [|simpl in Hn; lia]. destruct m; simpl; now rewrite ?append_empty_r.
  - destruct m as [|m].
    { destruct s; [|simpl in Hm; lia]. simpl. now rewrite append_empty_r. }
    destruct s as [|c s]; [reflexivity|]. cbn [Js.splitFrom]. simpl in Hn, Hm.
    destruct (Js.dropPrefix sep (String c s)) as [rest|] eqn:E.
    + f_equal. apply dropPrefix_length in E.
      destruct sep; [congruence|]. simpl in E. apply IH; lia.
    + apply IH; lia.
Qed.

(** The first piece of a split at colons, and what follows it. *)
Lemma splitFrom_colon : forall fuel acc s,
  String.length s <= fuel ->
  Js.splitFrom fuel ":" acc s =
  (acc ++ upToColon s) ::
  match afterColon s with
  | Some rest => Js.split ":" rest
  | None => []
  end.
Proof.
  induction fuel as [|fuel IH]; intros acc s Hlen.
  - destruct s; [|simpl in Hlen; lia]. simpl. now rewrite append_empty_r.
  - destruct s as [|c s]; [simpl; now rewrite append_empty_r|].
    cbn [Js.splitFrom Js.dropPrefix upToColon afterColon].
    simpl in Hlen. rewrite Ascii.eqb_sym.
    destruct (Ascii.eqb c ":") eqn:E.
    + rewrite append_empty_r. f_equal. unfold Js.split.
      apply splitFrom_fuel; [discriminate | lia | lia].
    + rewrite IH by lia. now rewrite append_assoc.
Qed.

Lemma split_colon s :
  Js.split ":" s =
  upToColon s ::
  match afterColon s with
  | Some rest => Js.split ":" rest
  | None => []
  end.
Proof. unfold Js.split at 1. now rewrite splitFrom_colon. Qed.

(** The first piece of a split at a character, and what follows it. *)
Lemma splitFrom_parts c : forall fuel acc s,
  String.length s <= fuel ->
  Js.splitFrom fuel (String c "") acc s =
  (acc ++ upToChar c s) ::
  match afterChar c s with
  | Some rest => Js.split (String c "") rest
  | None => []
  end.
Proof.
  induction fuel as [|fuel IH]; intros acc s Hlen.
  - destruct s; [|simpl in Hlen; lia]. simpl. now rewrite append_empty_r.
  - destruct s as [|a s]; [simpl; now rewrite append_empty_r|].
    cbn [Js.splitFrom Js.dropPrefix upToChar afterChar].
    simpl in Hlen. rewrite Ascii.eqb_sym.
    destruct (Ascii.eqb a c) eqn:E.
    + rewrite append_empty_r. f_equal. unfold Js.split.
      apply splitFrom_fuel; [discriminate | lia | lia].
    + rewrite IH by lia. now rewrite append_assoc.
Qed.

Lemma split_parts c s :
  Js.split (String c "") s =
  upToChar c s ::
  match afterChar c s with
  | Some rest => Js.split (String c "") rest
  | None => []
  end.
Proof. unfold Js.split at 1. now rewrite splitFrom_parts. Qed.

(** A string is non-empty for [isNonEmptyString] when one of its
    characters is no white space. *)
Lemma anyChar_append f a b :
  Js.anyChar f (a ++ b) = Js.anyChar f a || Js.anyChar f b.
Proof.
  induction a as [|c a IH]; simpl; [reflexivity|].
  now rewrite IH, orb_assoc.
Qed.

Lemma trimEnd_empty s :
  Js.trimEnd s = "" <-> Js.anyChar (fun c => negb (Js.isWhiteSpace c)) s = false.
Proof.
  induction s as [|c s IH]; simpl; [tauto|].
  destruct (Js.trimEnd s) as [|c' t].
  - destruct (Js.isWhiteSpace c); simpl.
    + split; [intros _; now apply IH | reflexivity].
    + split; discriminate.
  - split; [discriminate|]. intros H. apply orb_false_iff in H as [_ H].
    apply IH in H. discriminate H.
Qed.

Lemma anyChar_trimStart s :
  Js.anyChar (fun c => negb (Js.isWhiteSpace c)) (Js.trimStart s) =
  Js.anyChar (fun c => negb (Js.isWhiteSpace c)) s.
Proof.
  induction s as [|c s IH]; simpl; [reflexivity|].
  destruct (Js.isWhiteSpace c) eqn:E; simpl; [exact IH | now rewrite E].
Qed.

Lemma nonEmpty_anyChar s :
  Js.nonEmpty s = Js.anyChar (fun c => negb (Js.isWhiteSpace c)) s.
Proof.
  unfold Js.nonEmpty, Js.trim. rewrite <- anyChar_trimStart.
  destruct (Js.trimEnd (Js.trimStart s)) as [|c t] eqn:E.
  - apply trimEnd_empty in E. now rewrite E.
  - simpl.
    destruct (Js.anyChar (fun c => negb (Js.isWhiteSpace c)) (Js.trimStart s)) eqn:Ea;
      [reflexivity|].
    apply trimEnd_empty in Ea. congruence.
Qed.

Lemma nonEmpty_append_l a b : Js.nonEmpty a = true -> Js.nonEmpty (a ++ b) = true.
Proof.
  rewrite !nonEmpty_anyChar, anyChar_append. intros ->. reflexivity.
Qed.

Lemma nonEmpty_append_r a b : Js.nonEmpty b = true -> Js.nonEmpty (a ++ b) = true.
Proof.
  rewrite !nonEmpty_anyChar, anyChar_append. intros ->. apply orb_true_r.
Qed.

Lemma nonEmpty_length s : Js.nonEmpty s = true -> String.length s <> 0.
Proof. destruct s; [discriminate | discriminate]. Qed.

End JsFacts.

(** ** Hierarchical Writer: the path segment of a page *)

Module WriterPaths.
Import JsFacts.

Lemma newPageURLTitle_second (t : string) :
  match Js.split ":" t with
  | _ :: second :: _ => Js.trim second
  | _ => t
  end =
  match afterColon t with
  | Some rest => Js.trim (upToColon rest)
  | None => t
  end.
Proof.
  rewrite split_colon. destruct (afterColon t) as [rest|]; [|reflexivity].
  now rewrite split_colon.
Qed.

(** What the code computes for a page with a section-number hint: the
    number, a colon and a space, then the trimmed title or, when the
    trimmed title holds a colon, the trimmed text between its first and
    its second colon, with spaces replaced by underscores. *)
Lemma newPagePath_between_colons (page : PageData) (num : string) :
  urlNumPrefix page = Some num -> Js.nonEmpty num = true ->
  newPagePath page =
    Js.replaceAllChar " " "_"
      (num ++ ": " ++
       match afterColon (Js.trim (title page)) with
       | Some rest => Js.trim (upToColon rest)
       | None => Js.trim (title page)
       end)%string.
Proof.
  intros Hnum Hne. unfold newPagePath. rewrite Hnum, Hne.
  now rewrite newPageURLTitle_second.
Qed.

(** C8 holds on its example and fails on the code elsewhere: the page
    numbered 1.1 and titled "1.1: Intro" gets "1.1:_Intro"; the page
    numbered 1.1 and titled "1.1: Intro: Part 2" gets "1.1:_Intro" as well,
    the text after the second colon being cut off with the number; and the
    page numbered 2 and titled "Acids: Bases", whose title has no number
    segment to strip, gets "2:_Bases". *)
Theorem newPagePath_cuts_the_title :
  (urlNumPrefix Sample.section = Some "1.1" /\
   title Sample.section = "1.1: Intro" /\
   newPagePath Sample.section = "1.1:_Intro") /\
  (urlNumPrefix Sample.subsection = Some "1.1" /\
   title Sample.subsection = "1.1: Intro: Part 2" /\
   newPagePath Sample.subsection = "1.1:_Intro") /\
  (urlNumPrefix Sample.acids = Some "2" /\
   title Sample.acids = "Acids: Bases" /\
   newPagePath Sample.acids = "2:_Bases").
Proof.
  split; [|split]; (split; [reflexivity|]; split; [reflexivity|]).
  - now rewrite (newPagePath_between_colons Sample.section "1.1").
  - now rewrite (newPagePath_between_colons Sample.subsection "1.1").
  - now rewrite (newPagePath_between_colons Sample.acids "2").
Qed.

End WriterPaths.

(** ** Content transform: the template-token rewrite *)

Module TransformFacts.
Import JsFacts.

Local Open Scope string_scope.

Lemma scan_fuel matchAt : progressive matchAt -> forall n k before s,
  String.length s <= n -> String.length s <= k ->
  scan n matchAt before s = scan k matchAt before s.
Proof.
  intros Hprog. induction n as [|n IH]; intros k before s Hn Hk.
  - destruct s; [|simpl in Hn; lia]. now destruct k.
  - destruct s as [|c s]; [now destruct k|].
    destruct k as [|k]; [simpl in Hk; lia|]. cbn [scan].
    destruct (matchAt before (String c s)) as [[m rest]|] eqn:E.
    + f_equal. apply Hprog in E. simpl in *. apply IH; lia.
    + f_equal. simpl in *. apply IH; lia.
Qed.

Lemma spanToken_split s : forall run rest,
  spanToken s = (run, rest) -> s = run ++ rest.
Proof.
  induction s as [|c s IH]; intros run rest H; simpl in H.
  - now inversion H.
  - destruct (isTokenChar c).
    + destruct (spanToken s) as [run' rest']. inversion H; subst.
      simpl. f_equal. now apply IH.
    + now inversion H.
Qed.

(** A token that was matched is matched again whatever follows it. *)
Lemma spanToken_closed s : forall run s2 rest rest',
  spanToken s = (run, s2) -> Js.dropPrefix "}}" s2 = Some rest ->
  spanToken (run ++ "}}" ++ rest') = (run, "}}" ++ rest').
Proof.
  induction s as [|c s IH]; intros run s2 rest rest' H Hd; simpl in H.
  - inversion H; subst. discriminate Hd.
  - destruct (isTokenChar c) eqn:Ec.
    + destruct (spanToken s) as [run' s2'] eqn:Es. inversion H; subst.
      pose proof (IH run' s2 rest rest' eq_refl Hd) as IH'.
      simpl in IH' |- *. now rewrite Ec, IH'.
    + inversion H; subst. reflexivity.
Qed.

Lemma dekiRegex_match before s m rest :
  dekiRegex before s = Some (m, rest) ->
  s = m ++ rest /\ 4 <= String.length m /\
  forall before' rest', dekiRegex before' (m ++ rest') = Some (m, rest').
Proof.
  unfold dekiRegex. intros H.
  destruct (Js.dropPrefix "{{" s) as [s1|] eqn:E1; [|discriminate].
  destruct (spanToken s1) as [run s2] eqn:E2.
  destruct (Js.dropPrefix "}}" s2) as [r|] eqn:E3; [|discriminate].
  inversion H; subst. clear H.
  apply dropPrefix_Some in E1. pose proof (spanToken_split _ _ _ E2) as Hs1.
  pose proof (dropPrefix_Some _ _ _ E3) as Hs2. subst.
  split; [|split].
  - simpl. now rewrite append_assoc.
  - simpl. rewrite length_append. simpl. lia.
  - intros _ rest'. simpl. rewrite append_assoc.
    rewrite (spanToken_closed _ _ _ _ rest' E2 E3). reflexivity.
Qed.

Lemma dekiRegex_progressive : progressive dekiRegex.
Proof.
  intros before s m rest H. apply dekiRegex_match in H as (-> & Hlen & _).
  rewrite length_append. lia.
Qed.

Lemma dekiRegex_before b b' s : dekiRegex b s = dekiRegex b' s.
Proof. reflexivity. Qed.

Lemma scan_dekiRegex_before n : forall b b' s,
  scan n dekiRegex b s = scan n dekiRegex b' s.
Proof.
  induction n as [|n IH]; intros b b' s; [reflexivity|].
  destruct s as [|c s]; [reflexivity|]. cbn [scan].
  rewrite (dekiRegex_before b b').
  destruct (dekiRegex b' (String c s)) as [[m rest]|]; f_equal; apply IH.
Qed.

(** The tokens of a string, read from the left. *)
Lemma templateTokens_step c s :
  templateTokens (String c s) =
  match dekiRegex "" (String c s) with
  | Some (m, rest) => Found m :: templateTokens rest
  | None => Lit c :: templateTokens s
  end.
Proof.
  unfold templateTokens. cbn [String.length scan].
  destruct (dekiRegex "" (String c s)) as [[m rest]|] eqn:E; f_equal.
  - rewrite (scan_dekiRegex_before _ _ "").
    apply scan_fuel; [apply dekiRegex_progressive | | lia].
    apply dekiRegex_progressive in E. simpl in E. lia.
  - apply scan_dekiRegex_before.
Qed.

Lemma templateTokens_cover n : forall s,
  String.length s <= n -> render (fun m => m) (templateTokens s) = s.
Proof.
  induction n as [|n IH]; intros s Hlen.
  - destruct s; [reflexivity | simpl in Hlen; lia].
  - destruct s as [|c s]; [reflexivity|]. rewrite templateTokens_step.
    destruct (dekiRegex "" (String c s)) as [[m rest]|] eqn:E.
    + pose proof (dekiRegex_progressive _ _ _ _ E) as Hp.
      apply dekiRegex_match in E as (-> & _ & _).
      cbn [render]. rewrite IH; [reflexivity|]. simpl in *. lia.
    + cbn [render]. rewrite IH; [reflexivity|]. simpl in Hlen. lia.
Qed.

Lemma length_noTranslateDiv m :
  String.length (noTranslateDiv m) = String.length m + 26.
Proof. unfold noTranslateDiv, quote. simpl. rewrite length_append. simpl. lia. Qed.

Lemma length_render l :
  String.length (render noTranslateDiv l) =
  String.length (render (fun m => m) l) + 26 * countFound l.
Proof.
  induction l as [|[c|m] l IH]; cbn [render countFound String.length];
    [reflexivity | lia |].
  rewrite !length_append, length_noTranslateDiv. lia.
Qed.

Lemma render_without_tokens f l :
  countFound l = 0 -> render f l = render (fun m => m) l.
Proof.
  induction l as [|[c|m] l IH]; simpl; intros H; [reflexivity | | discriminate].
  now rewrite IH.
Qed.

(** A token somewhere in a string is found, or an earlier one is. *)
Lemma token_found x : forall z m rest,
  dekiRegex "" z = Some (m, rest) -> 0 < countFound (templateTokens (x ++ z)).
Proof.
  induction x as [|c x IH]; intros z m rest Hz.
  - simpl. destruct z as [|c z]; [discriminate|].
    rewrite templateTokens_step, Hz. simpl. lia.
  - simpl. rewrite templateTokens_step.
    destruct (dekiRegex "" (String c (x ++ z))) as [[m' rest']|]; simpl; [lia|].
    now apply (IH z m rest).
Qed.

(** The rewrite keeps the first token it wraps. *)
Lemma wrapped_token_remains n : forall s,
  String.length s <= n -> 0 < countFound (templateTokens s) ->
  exists x m rest,
    wrapTemplateTokens s = x ++ m ++ rest /\
    dekiRegex "" (m ++ rest) = Some (m, rest).
Proof.
  unfold wrapTemplateTokens, replaceAll. fold (templateTokens).
  induction n as [|n IH]; intros s Hlen Hcount.
  - destruct s; [simpl in Hcount; lia | simpl in Hlen; lia].
  - destruct s as [|c s]; [simpl in Hcount; lia|].
    change (scan (String.length (String c s)) dekiRegex "" (String c s))
      with (templateTokens (String c s)).
    rewrite templateTokens_step in *.
    destruct (dekiRegex "" (String c s)) as [[m rest]|] eqn:E.
    + apply dekiRegex_match in E as (_ & _ & Hagain).
      exists ("<div translate=" ++ quote ++ "no" ++ quote ++ ">"), m,
             ("</div>" ++ render noTranslateDiv (templateTokens rest)).
      split; [|apply Hagain].
      cbn [render]. unfold noTranslateDiv. now rewrite !append_assoc.
    + simpl in Hcount. simpl in Hlen.
      destruct (IH s ltac:(lia) Hcount) as (x & m & rest & Heq & Hm).
      exists (String c x), m, rest. split; [|exact Hm].
      cbn [render]. unfold templateTokens in *. now rewrite Heq.
Qed.

(** C5, as the code has it: the rewrite of template tokens has no guard
    against wrappers that are already there.  Every application wraps
    every token once more, so applying it twice gives the result of applying
    it once exactly on the strings that hold no template token. *)
Theorem wrapTemplateTokens_twice (contents : string) :
  wrapTemplateTokens (wrapTemplateTokens contents) = wrapTemplateTokens contents
  <-> countFound (templateTokens contents) = 0.
Proof.
  assert (Hlen : forall s, String.length (wrapTemplateTokens s) =
                           String.length s + 26 * countFound (templateTokens s)).
  { intros s. unfold wrapTemplateTokens, replaceAll. fold (templateTokens s).
    rewrite length_render. now rewrite (templateTokens_cover (String.length s)). }
  split.
  - intros Heq. apply (f_equal String.length) in Heq. rewrite !Hlen in Heq.
    destruct (countFound (templateTokens contents)) as [|k] eqn:Ek; [reflexivity|].
    assert (Hpos : 0 < countFound (templateTokens contents)) by lia.
    destruct (wrapped_token_remains _ contents (le_n _) Hpos)
      as (x & m & rest & Hw & Hm).
    pose proof (token_found x _ _ _ Hm) as Hfound.
    rewrite <- Hw in Hfound. lia.
  - intros Hzero.
    assert (Hid : wrapTemplateTokens contents = contents).
    { unfold wrapTemplateTokens, replaceAll. fold (templateTokens contents).
      rewrite render_without_tokens by exact Hzero.
      now apply (templateTokens_cover (String.length contents)). }
    now rewrite !Hid.
Qed.

(** C5 as stated fails: a token inside a wrapper is wrapped again. *)
Lemma wrapTemplateTokens_wraps_again :
  wrapTemplateTokens "{{template.ShowOrg()}}" = noTranslateDiv "{{template.ShowOrg()}}" /\
  wrapTemplateTokens (noTranslateDiv "{{template.ShowOrg()}}") =
    noTranslateDiv (noTranslateDiv "{{template.ShowOrg()}}") /\
  wrapTemplateTokens (wrapTemplateTokens (noTranslateDiv "{{template.ShowOrg()}}")) <>
    wrapTemplateTokens (noTranslateDiv "{{template.ShowOrg()}}").
Proof. split; [|split]; vm_compute; [reflexivity | reflexivity | discriminate]. Qed.

End TransformFacts.

(** ** Tree Discoverer and Tree Flattener *)

Module FlattenFacts.

Lemma Page_induction (P : Page -> Prop) :
  P Null ->
  (forall d subpages, Forall P subpages -> P (Obj d subpages)) ->
  forall page, P page.
Proof.
  intros HN HO. fix IH 1. intros [|d subpages]; [exact HN|]. apply HO.
  induction subpages as [|sub l IHl]; constructor; [apply IH | exact IHl].
Qed.

Lemma Site_induction (P : Site -> Prop) :
  (forall l p, P (Unreachable l p)) ->
  (forall l p info, P (Unlisted l p info)) ->
  (forall l p info listing, Forall P listing -> P (Served l p info listing)) ->
  forall site, P site.
Proof.
  intros H1 H2 H3. fix IH 1.
  intros [l p|l p info|l p info listing]; [apply H1 | apply H2 |].
  apply H3. induction listing as [|sub l' IHl]; constructor; [apply IH | exact IHl].
Qed.

Lemma linkedUnder_Obj above d subpages :
  linkedUnder above (Obj d subpages) <->
  root d = negb (is_Some_bool above) /\ parent d = above /\
  Forall (linkedUnder (Some (id d))) subpages.
Proof.
  simpl. split; intros (H1 & H2 & H3); (split; [exact H1|]; split; [exact H2|]);
    clear H1 H2.
  - induction subpages as [|sub l IHl]; constructor; [apply H3 | apply IHl, H3].
  - induction H3; simpl; auto.
Qed.

(** When the loop over the subpages returns, every subpage was
    flattened and the results were appended in order. *)
Lemma flattenEach_Returned subpages : forall l,
  flattenEach createFlatPageMetadataList subpages = Returned l ->
  exists ls, Forall2 (fun sub r => createFlatPageMetadataList sub = Returned r)
                     subpages ls /\ l = List.concat ls.
Proof.
  induction subpages as [|sub rest IH]; intros l H; simpl in H.
  - inversion H. exists []. split; [constructor | reflexivity].
  - destruct (createFlatPageMetadataList sub) as [first| |] eqn:E1; try discriminate.
    simpl in H.
    destruct (flattenEach createFlatPageMetadataList rest) as [others| |] eqn:E2;
      try discriminate.
    simpl in H. inversion H; subst.
    destruct (IH others eq_refl) as (ls & Hall & ->).
    exists (first :: ls). split; [now constructor | reflexivity].
Qed.

Lemma createFlatPageMetadataList_Returned page l :
  createFlatPageMetadataList page = Returned l ->
  exists d subpages ls,
    page = Obj d subpages /\
    Forall2 (fun sub r => createFlatPageMetadataList sub = Returned r) subpages ls /\
    l = deleteContents d :: List.concat ls.
Proof.
  destruct page as [|d subpages]; [discriminate|]. simpl. intros H.
  destruct (flattenEach createFlatPageMetadataList subpages) as [rest| |] eqn:E;
    try discriminate.
  simpl in H. inversion H; subst.
  destruct (flattenEach_Returned _ _ E) as (ls & Hall & ->).
  now exists d, subpages, ls.
Qed.

(** The list has one entry for every node. *)
Lemma flattened_length page : forall l,
  createFlatPageMetadataList page = Returned l -> List.length l = nodeCount page.
Proof.
  induction page as [|d subpages IH] using Page_induction; intros l H.
  - discriminate.
  - apply createFlatPageMetadataList_Returned in H
      as (d' & subs' & ls & Heq & Hall & ->).
    inversion Heq; subst d' subs'. simpl. f_equal.
    clear Heq. induction Hall as [|sub r subs rs Hsub _ IHall]; [reflexivity|].
    inversion IH; subst. simpl. rewrite length_app.
    f_equal; [now apply H1 | now apply IHall].
Qed.

(** Below a parent, no entry is a root. *)
Lemma flattened_below page : forall x l,
  linkedUnder (Some x) page ->
  createFlatPageMetadataList page = Returned l ->
  Forall (fun e => root e = false) l.
Proof.
  induction page as [|d subpages IH] using Page_induction; intros x l Hlink H.
  - discriminate.
  - apply createFlatPageMetadataList_Returned in H
      as (d' & subs' & ls & Heq & Hall & ->).
    inversion Heq; subst d' subs'. clear Heq.
    apply linkedUnder_Obj in Hlink as (Hroot & _ & Hsubs).
    constructor; [exact Hroot|].
    induction Hall as [|sub r subs rs Hsub _ IHall]; [constructor|].
    inversion IH; subst. inversion Hsubs; subst. simpl.
    apply Forall_app. split; [now apply (H1 (id d)) | now apply IHall].
Qed.

Lemma resolvedIn_incl l : forall seen seen',
  incl seen seen' -> resolvedIn seen l -> resolvedIn seen' l.
Proof.
  induction l as [|e l IH]; intros seen seen' Hincl; simpl; [auto|].
  intros [He Hl]. split.
  - intros Hr. destruct (He Hr) as (x & Hp & Hin). exists x. auto.
  - apply (IH (id e :: seen)); [|exact Hl].
    intros y [Hy|Hy]; [now left | right; auto].
Qed.

Lemma resolvedIn_app a : forall seen b,
  resolvedIn seen (a ++ b) <->
  resolvedIn seen a /\ resolvedIn (rev (map id a) ++ seen) b.
Proof.
  induction a as [|e a IH]; intros seen b; simpl.
  - tauto.
  - rewrite IH. rewrite <- app_assoc. simpl. tauto.
Qed.

(** In the list of a page linked under [above], parents come first. *)
Lemma flattened_resolved page : forall above seen l,
  linkedUnder above page ->
  (forall x, above = Some x -> In x seen) ->
  createFlatPageMetadataList page = Returned l ->
  resolvedIn seen l.
Proof.
  induction page as [|d subpages IH] using Page_induction;
    intros above seen l Hlink Habove H.
  - discriminate.
  - apply createFlatPageMetadataList_Returned in H
      as (d' & subs' & ls & Heq & Hall & ->).
    inversion Heq; subst d' subs'. clear Heq.
    apply linkedUnder_Obj in Hlink as (Hroot & Hparent & Hsubs).
    simpl. split.
    + intros Hr. rewrite Hr in Hroot. destruct above as [x|]; [|discriminate].
      exists x. auto.
    + assert (Hin : In (id d) (id d :: seen)) by now left.
      revert Hin. generalize (id d :: seen) as seen'. clear Habove.
      induction Hall as [|sub r subs rs Hsub _ IHall]; intros seen' Hin;
        [exact I|].
      inversion IH; subst. inversion Hsubs; subst. simpl.
      apply resolvedIn_app. split.
      * apply (H1 (Some (id d))); auto. intros x Hx. now inversion Hx; subst.
      * apply IHall; auto. apply in_or_app. now right.
Qed.

(** The root comes first and is the only root. *)
Lemma flattened_root page l :
  linkedUnder None page ->
  createFlatPageMetadataList page = Returned l ->
  exists e rest, l = e :: rest /\ root e = true /\
                 Forall (fun e' => root e' = false) rest.
Proof.
  intros Hlink H.
  apply createFlatPageMetadataList_Returned in H as (d & subs & ls & -> & Hall & ->).
  apply linkedUnder_Obj in Hlink as (Hroot & _ & Hsubs).
  exists (deleteContents d), (List.concat ls). split; [reflexivity|].
  split; [exact Hroot|].
  induction Hall as [|sub r subs rs Hsub _ IHall]; [constructor|].
  inversion Hsubs; subst. simpl. apply Forall_app. split.
  - now apply (flattened_below sub (id d)).
  - now apply IHall.
Qed.

Lemma filter_none {A} (f : A -> bool) l :
  Forall (fun x => f x = false) l -> List.filter f l = [].
Proof. induction 1 as [|x l Hx _ IH]; simpl; [reflexivity | now rewrite Hx]. Qed.

(** What the discoverer builds is linked: the page asked for without a
    parent is the root, every page found below names the identifier of the
    page whose listing led to it. *)
Lemma retrieveSubpages_linked site :
  identified site = true ->
  forall lib path parent,
    linkedUnder (if truthy parent then parent else None)
                (fst (retrieveSubpages site lib path parent)).
Proof.
  induction site as [l p|l p info|l p info listing IH] using Site_induction;
    intros Hid lib path above; try exact I.
  simpl in Hid. apply andb_true_iff in Hid as [Hne Hlisting].
  assert (Hsubs : Forall (linkedUnder (Some (pageID info)))
            (map fst (map (fun sub => retrieveSubpages sub (siteLib sub) (sitePath sub)
                                        (Some (pageID info))) listing))).
  { clear - IH Hne Hlisting.
    induction IH as [|sub rest Hsub _ IHrest]; [constructor|].
    simpl in Hlisting. apply andb_true_iff in Hlisting as [H1 H2]. simpl.
    constructor; [|now apply IHrest].
    specialize (Hsub H1 (siteLib sub) (sitePath sub) (Some (pageID info))).
    simpl in Hsub. now rewrite Hne in Hsub. }
  cbn [retrieveSubpages]. destruct (truthy above) eqn:Et.
  - cbn [fst]. apply linkedUnder_Obj. cbn [root parent id].
    destruct above; [|discriminate]. auto.
  - destruct (includesTag "coverpage:yes" (processTags (pageTags info)));
      [|exact I].
    cbn [fst]. apply linkedUnder_Obj. cbn [root parent id]. auto.
Qed.

(** C3: for every tree that the discoverer builds from a platform whose
    page identifiers are non-empty, the flattened list has one entry for
    every node of the tree, exactly one entry that is a root, and every
    other entry names as its parent the identifier of another entry of the
    list (one that comes before it). *)
Theorem flattened_discovery (site : Site) (lib path : string) (l : list PageData) :
  identified site = true ->
  createFlatPageMetadataList (fst (retrieveSubpages site lib path None)) = Returned l ->
  List.length l = nodeCount (fst (retrieveSubpages site lib path None)) /\
  List.length (List.filter root l) = 1 /\
  forall before e after,
    l = before ++ e :: after -> root e = false ->
    exists e', In e' (before ++ after) /\ parent e = Some (id e').
Proof.
  intros Hid Hflat.
  pose proof (retrieveSubpages_linked site Hid lib path None) as Hlink.
  cbn [truthy] in Hlink. split; [|split].
  - now apply flattened_length.
  - destruct (flattened_root _ _ Hlink Hflat) as (e & rest & -> & Hroot & Hrest).
    simpl. rewrite Hroot. now rewrite (filter_none root rest Hrest).
  - intros before e after Heq Hroot.
    assert (Hres : resolvedIn [] l).
    { apply (flattened_resolved _ None [] l Hlink); [discriminate | exact Hflat]. }
    rewrite Heq in Hres. apply resolvedIn_app in Hres as [_ Hres].
    destruct Hres as [He _]. destruct (He Hroot) as (x & Hp & Hin).
    rewrite app_nil_r, <- in_rev in Hin.
    apply in_map_iff in Hin as (e' & <- & Hin').
    exists e'. split; [|exact Hp]. apply in_or_app. now left.
Qed.

Lemma flattened_discovery_witness :
  List.length [deleteContents Sample.cover; deleteContents Sample.chapter] =
    nodeCount (fst (retrieveSubpages Sample.site "chem" "Cover" None)) /\
  List.length (List.filter root
                 [deleteContents Sample.cover; deleteContents Sample.chapter]) = 1 /\
  forall before e after,
    [deleteContents Sample.cover; deleteContents Sample.chapter] = before ++ e :: after ->
    root e = false ->
    exists e', In e' (before ++ after) /\ parent e = Some (id e').
Proof.
  apply (flattened_discovery Sample.site "chem" "Cover"); vm_compute; reflexivity.
Defined.

End FlattenFacts.

(** ** Tree Reconstructor: the round trip *)

Module RoundTrip.
Import FlattenFacts.

Lemma Tree_induction (P : Tree -> Prop) :
  (forall d subtrees, Forall P subtrees -> P (Node d subtrees)) ->
  forall t, P t.
Proof.
  intros step. fix IH 1. intros [d subtrees]. apply step.
  induction subtrees as [|c l IHl]; constructor; [apply IH | exact IHl].
Qed.

Lemma deleteContents_twice d : deleteContents (deleteContents d) = deleteContents d.
Proof. reflexivity. Qed.

(** The flattener returns on the trees without [null], and on them
    only; it returns their entries. *)
Lemma createFlatPageMetadataList_toPage t :
  createFlatPageMetadataList (toPage t) = Returned (entries t).
Proof.
  induction t as [d subtrees IH] using Tree_induction.
  cbn [toPage createFlatPageMetadataList entries].
  assert (Hloop : flattenEach createFlatPageMetadataList (map toPage subtrees)
                  = Returned (flat_map entries subtrees)).
  { induction IH as [|c l Hc _ IHl]; simpl; [reflexivity|].
    rewrite Hc. simpl. now rewrite IHl. }
  now rewrite Hloop.
Qed.

Lemma createFlatPageMetadataList_Tree page : forall l,
  createFlatPageMetadataList page = Returned l ->
  exists t, page = toPage t /\ l = entries t.
Proof.
  induction page as [|d subpages IH] using Page_induction; intros l H.
  - discriminate.
  - apply createFlatPageMetadataList_Returned in H
      as (d' & subs' & ls & Heq & Hall & ->).
    inversion Heq; subst d' subs'. clear Heq.
    assert (Hsubs : exists ts, subpages = map toPage ts /\
                               List.concat ls = flat_map entries ts).
    { induction Hall as [|sub r subs rs Hsub _ IHall].
      - exists []. now split.
      - inversion IH; subst.
        destruct (H1 r Hsub) as (t & -> & ->).
        destruct (IHall H2) as (ts & -> & Hc).
        exists (t :: ts). simpl. now rewrite Hc. }
    destruct Hsubs as (ts & -> & Hc).
    exists (Node d ts). simpl. now rewrite Hc.
Qed.

Lemma entries_stripped t : entries (stripped t) = entries t.
Proof.
  induction t as [d subtrees IH] using Tree_induction. simpl. f_equal.
  induction IH as [|c l Hc _ IHl]; simpl; [reflexivity|].
  now rewrite Hc, IHl.
Qed.

Lemma entry_stripped t : entry (stripped t) = entry t.
Proof. now destruct t. Qed.

Lemma entries_head t : entries t = entry t :: flat_map entries (children t).
Proof. now destruct t. Qed.

Lemma linkedUnder_Node above d subtrees :
  linkedUnder above (toPage (Node d subtrees)) <->
  root d = negb (is_Some_bool above) /\ parent d = above /\
  Forall (fun c => linkedUnder (Some (id d)) (toPage c)) subtrees.
Proof.
  cbn [toPage]. rewrite linkedUnder_Obj. now rewrite Forall_map.
Qed.

Lemma linkedUnder_within s t : within s t -> forall above,
  linkedUnder above (toPage t) -> exists above', linkedUnder above' (toPage s).
Proof.
  induction 1 as [|d subtrees c Hin _ IH]; intros above Hlink; [eauto|].
  apply linkedUnder_Node in Hlink as (_ & _ & Hsubs).
  rewrite List.Forall_forall in Hsubs. apply (IH (Some (id d))). now apply Hsubs.
Qed.

Lemma entries_within s t : within s t -> incl (entries s) (entries t).
Proof.
  induction 1 as [|d subtrees c Hin _ IH]; [apply incl_refl|].
  intros e He. simpl. right. apply in_flat_map. exists c. auto.
Qed.

Lemma within_child s t : within s t -> forall c,
  In c (children s) -> within c t.
Proof.
  induction 1 as [|d subtrees c' Hin _ IH]; intros c Hc.
  - destruct s as [d subtrees]. simpl in Hc.
    apply (within_below c d subtrees c Hc). constructor.
  - apply (within_below c d subtrees c' Hin). now apply IH.
Qed.

Lemma filter_entries_child cur y c :
  linkedUnder (Some y) (toPage c) ->
  List.filter (isSubpageOf cur) (entries c) =
  (if String.eqb y (id cur) then [entry c] else []) ++ below cur c.
Proof.
  destruct c as [d subtrees]. intros Hlink.
  apply linkedUnder_Node in Hlink as (Hroot & Hparent & _).
  unfold below. cbn [entries children entry List.filter].
  unfold isSubpageOf at 1. cbn [deleteContents setContents root parent].
  rewrite Hroot, Hparent. cbn [is_Some_bool negb andb].
  now destruct (String.eqb y (id cur)).
Qed.

Lemma below_Node cur d subtrees :
  Forall (fun c => linkedUnder (Some (id d)) (toPage c)) subtrees ->
  below cur (Node d subtrees) =
  flat_map (fun c => (if String.eqb (id d) (id cur) then [entry c] else [])
                     ++ below cur c) subtrees.
Proof.
  unfold below at 1. cbn [children].
  induction 1 as [|c l Hc _ IH]; [reflexivity|].
  cbn [flat_map]. rewrite List.filter_app, IH.
  now rewrite (filter_entries_child cur (id d) c Hc).
Qed.

Lemma bearers_Node x d subtrees :
  bearers x (Node d subtrees) =
  (if String.eqb (id d) x then 1 else 0) + list_sum (map (bearers x) subtrees).
Proof.
  unfold bearers. cbn [entries List.filter]. unfold hasId at 1.
  cbn [deleteContents setContents id].
  assert (Hsum : List.length (List.filter (hasId x) (flat_map entries subtrees)) =
                 list_sum (map (fun t => List.length (List.filter (hasId x) (entries t)))
                               subtrees)).
  { induction subtrees as [|c l IH]; [reflexivity|].
    cbn [flat_map map list_sum]. now rewrite List.filter_app, length_app, IH. }
  destruct (String.eqb (id d) x); cbn [List.length]; rewrite Hsum; reflexivity.
Qed.

Lemma list_sum_zero {A} (f : A -> nat) l :
  list_sum (map f l) = 0 -> forall y, In y l -> f y = 0.
Proof.
  induction l as [|a l IH]; simpl; intros H y Hy; [contradiction|].
  destruct Hy as [->|Hy]; [lia | apply IH; [lia | exact Hy]].
Qed.

Lemma list_sum_bound {A} (f : A -> nat) l y :
  In y l -> f y <= list_sum (map f l).
Proof.
  induction l as [|a l IH]; simpl; intros Hy; [contradiction|].
  destruct Hy as [->|Hy]; [lia | specialize (IH Hy); lia].
Qed.

Lemma flat_map_nil {A B} (g : A -> list B) l :
  (forall y, In y l -> g y = []) -> flat_map g l = [].
Proof.
  induction l as [|a l IH]; simpl; intros H; [reflexivity|].
  rewrite (H a) by now left. apply IH. intros y Hy. apply H. now right.
Qed.

Lemma flat_map_agree {A B} (g g' : A -> list B) l :
  (forall y, In y l -> g y = g' y) -> flat_map g l = flat_map g' l.
Proof.
  induction l as [|a l IH]; simpl; intros H; [reflexivity|].
  rewrite (H a) by now left. f_equal. apply IH. intros y Hy. apply H. now right.
Qed.

(** No entry below a tree names an identifier that no node bears. *)
Lemma below_unborne cur t : forall above,
  linkedUnder above (toPage t) -> bearers (id cur) t = 0 -> below cur t = [].
Proof.
  induction t as [d subtrees IH] using Tree_induction. intros above Hlink Hzero.
  apply linkedUnder_Node in Hlink as (_ & _ & Hsubs).
  rewrite below_Node by exact Hsubs. rewrite bearers_Node in Hzero.
  destruct (String.eqb (id d) (id cur)); [lia|]. simpl in Hzero.
  apply flat_map_nil. intros c Hc. simpl.
  rewrite List.Forall_forall in IH, Hsubs.
  apply (IH c Hc (Some (id d))); [now apply Hsubs|].
  now apply (list_sum_zero (bearers (id cur)) subtrees).
Qed.

Lemma childrenAt_unborne x t : bearers x t = 0 -> childrenAt x t = [].
Proof.
  induction t as [d subtrees IH] using Tree_induction. intros Hzero.
  rewrite bearers_Node in Hzero. cbn [childrenAt].
  destruct (String.eqb (id d) x); [lia|]. simpl in Hzero.
  apply flat_map_nil. intros c Hc. rewrite List.Forall_forall in IH.
  apply (IH c Hc). now apply (list_sum_zero (bearers x) subtrees).
Qed.

(** Where one node at most bears the identifier, the entries that name
    it are the children of that node, in order. *)
Lemma below_childrenAt cur t : forall above,
  linkedUnder above (toPage t) -> bearers (id cur) t <= 1 ->
  below cur t = childrenAt (id cur) t.
Proof.
  induction t as [d subtrees IH] using Tree_induction. intros above Hlink Hone.
  apply linkedUnder_Node in Hlink as (_ & _ & Hsubs).
  rewrite below_Node by exact Hsubs. rewrite bearers_Node in Hone.
  cbn [childrenAt]. rewrite List.Forall_forall in IH, Hsubs.
  destruct (String.eqb (id d) (id cur)).
  - assert (Hzero : list_sum (map (bearers (id cur)) subtrees) = 0) by lia.
    clear Hone. induction subtrees as [|c l IHl]; [reflexivity|].
    cbn [flat_map map]. simpl in Hzero.
    rewrite (below_unborne cur c (Some (id d))); [|apply Hsubs; now left|lia].
    simpl. f_equal. apply IHl.
    + intros y Hy. apply IH. now right.
    + intros y Hy. apply Hsubs. now right.
    + lia.
  - apply flat_map_agree. intros c Hc. simpl.
    apply (IH c Hc (Some (id d))); [now apply Hsubs|].
    pose proof (list_sum_bound (bearers (id cur)) subtrees c Hc). simpl in Hone. lia.
Qed.

Lemma filter_found {A} (f : A -> bool) l e :
  In e l -> f e = true -> 1 <= List.length (List.filter f l).
Proof.
  intros Hin He. assert (Hf : In e (List.filter f l)) by (apply filter_In; auto).
  destruct (List.filter f l); [contradiction | simpl; lia].
Qed.

Lemma bearers_within s t : within s t -> 1 <= bearers (id (entry s)) t.
Proof.
  intros Hw. unfold bearers. apply (filter_found _ _ (entry s)).
  - apply (entries_within s t Hw). rewrite entries_head. now left.
  - unfold hasId. apply String.eqb_refl.
Qed.

(** The one node that bears an identifier is found with its children. *)
Lemma childrenAt_within s t :
  within s t -> bearers (id (entry s)) t = 1 ->
  childrenAt (id (entry s)) t = map entry (children s).
Proof.
  induction 1 as [|d subtrees c Hin Hw IH]; intros Hone.
  - destruct s as [d subtrees]. cbn [childrenAt entry children].
    cbn [deleteContents setContents id]. now rewrite String.eqb_refl.
  - rewrite bearers_Node in Hone. cbn [childrenAt].
    pose proof (bearers_within s c Hw) as Hc.
    pose proof (list_sum_bound (bearers (id (entry s))) subtrees c Hin) as Hb.
    destruct (String.eqb (id d) (id (entry s))); [lia|]. simpl in Hone.
    apply in_split in Hin as (l1 & l2 & ->).
    rewrite map_app, list_sum_app in Hone, Hb. simpl in Hone, Hb.
    rewrite flat_map_app. cbn [flat_map].
    rewrite (flat_map_nil (childrenAt (id (entry s))) l1).
    2:{ intros y Hy. apply childrenAt_unborne.
        pose proof (list_sum_bound (bearers (id (entry s))) l1 y Hy). lia. }
    rewrite (flat_map_nil (childrenAt (id (entry s))) l2).
    2:{ intros y Hy. apply childrenAt_unborne.
        pose proof (list_sum_bound (bearers (id (entry s))) l2 y Hy). lia. }
    rewrite app_nil_r. simpl. apply IH. lia.
Qed.

Lemma isSubpageOf_true cur e :
  isSubpageOf cur e = true -> root e = false /\ parent e = Some (id cur).
Proof.
  unfold isSubpageOf. intros H. apply andb_true_iff in H as [Hr Hp].
  split; [now destruct (root e)|].
  destruct (parent e) as [x|]; [|discriminate].
  apply String.eqb_eq in Hp. now subst.
Qed.

(** In the flat list of a linked tree whose parent identifiers resolve
    once, the entries that name a node as their parent are the children of
    that node, in order. *)
Lemma subpages_found t :
  linkedUnder None (toPage t) -> parentsResolveOnce (entries t) ->
  forall s, within s t ->
    List.filter (isSubpageOf (entry s)) (entries t) = map entry (children s).
Proof.
  intros Hlink Honce s Hw.
  assert (Hfilter : List.filter (isSubpageOf (entry s)) (entries t)
                    = below (entry s) t).
  { destruct t as [d subtrees]. unfold below.
    apply linkedUnder_Node in Hlink as (Hroot & _ & _).
    cbn [entries children List.filter]. unfold isSubpageOf at 1.
    cbn [deleteContents setContents root]. now rewrite Hroot. }
  destruct (Nat.eq_dec (bearers (id (entry s)) t) 1) as [Hone|Hmany].
  - rewrite Hfilter, (below_childrenAt _ t None Hlink) by lia.
    now apply childrenAt_within.
  - assert (Hnone : forall e, In e (entries t) -> isSubpageOf (entry s) e = false).
    { intros e He. destruct (isSubpageOf (entry s) e) eqn:E; [|reflexivity].
      apply isSubpageOf_true in E as [Hr Hp].
      exfalso. apply Hmany. exact (Honce e _ He Hr Hp). }
    rewrite filter_none by (apply List.Forall_forall; exact Hnone).
    destruct (children s) as [|c rest] eqn:Ec; [reflexivity|]. exfalso.
    assert (Hc : within c t) by (apply (within_child s t Hw); rewrite Ec; now left).
    destruct (linkedUnder_within s t Hw None Hlink) as (above & Hs).
    destruct s as [d subtrees]. simpl in Ec. subst subtrees.
    apply linkedUnder_Node in Hs as (_ & _ & Hsubs).
    inversion Hsubs as [|? ? Hclink _]; subst.
    destruct c as [dc subc].
    apply linkedUnder_Node in Hclink as (Hr & Hp & _).
    apply Hmany. apply (Honce (deleteContents dc) (id d)).
    + apply (entries_within _ t Hc). now left.
    + exact Hr.
    + exact Hp.
Qed.

Lemma attachSubpages_cons structure cur e l :
  attachSubpages structure cur (e :: l) =
  if isSubpageOf cur e then
    call sub <~ structure e;
    call others <~ attachSubpages structure cur l;
    Returned (sub :: others)
  else attachSubpages structure cur l.
Proof. reflexivity. Qed.

Lemma attachSubpages_found structure cur l : forall trees,
  List.filter (isSubpageOf cur) l = map entry trees ->
  Forall (fun c => structure (entry c) = Returned (toPage (stripped c))) trees ->
  attachSubpages structure cur l = Returned (map toPage (map stripped trees)).
Proof.
  induction l as [|e l IH]; intros trees Hfilter Hrec.
  - destruct trees; [reflexivity | discriminate].
  - rewrite attachSubpages_cons. cbn [List.filter] in Hfilter.
    destruct (isSubpageOf cur e).
    + destruct trees as [|c trees]; [discriminate|].
      injection Hfilter as He Hf. inversion Hrec as [|? ? Hc Hrest]; subst.
      rewrite Hc. cbn [bind]. now rewrite (IH trees).
    + now apply IH.
Qed.

(** With enough fuel, [createPageStructure] rebuilds a tree from the
    entry of its top. *)
Lemma createPageStructure_builds l s : forall fuel,
  (forall s', within s' s ->
     List.filter (isSubpageOf (entry s')) l = map entry (children s')) ->
  height s <= fuel ->
  createPageStructure fuel (entry s) l = Returned (toPage (stripped s)).
Proof.
  induction s as [d subtrees IH] using Tree_induction. intros fuel Hfound Hfuel.
  destruct fuel as [|fuel]; [simpl in Hfuel; lia|].
  cbn [createPageStructure].
  rewrite (attachSubpages_found _ _ l subtrees).
  - reflexivity.
  - apply (Hfound (Node d subtrees)). constructor.
  - simpl in Hfuel. apply le_S_n, list_max_le in Hfuel.
    rewrite Forall_map in Hfuel.
    rewrite List.Forall_forall in IH, Hfuel |- *. intros c Hc.
    apply (IH c Hc).
    + intros s' Hs'. apply Hfound. now apply (within_below s' d subtrees c).
    + now apply Hfuel.
Qed.

Lemma height_entries t : height t <= List.length (entries t).
Proof.
  induction t as [d subtrees IH] using Tree_induction. simpl. apply le_n_S.
  apply list_max_le. rewrite Forall_map.
  rewrite List.Forall_forall in IH |- *. intros c Hc.
  specialize (IH c Hc).
  assert (List.length (entries c) <= List.length (flat_map entries subtrees)).
  { clear - Hc. induction subtrees as [|a l IHl]; [contradiction|].
    simpl. rewrite length_app. destruct Hc as [->|Hc]; [lia|].
    specialize (IHl Hc). lia. }
  lia.
Qed.

Lemma NoDup_key_inj {A K} (key : A -> K) l :
  NoDup (map key l) -> forall a b, In a l -> In b l -> key a = key b -> a = b.
Proof.
  induction l as [|x l IH]; intros Hnd a b Ha Hb Hk; [contradiction|].
  simpl in Hnd. apply NoDup_cons in Hnd as [Hx Hnd].
  rewrite list_elem_of_In in Hx.
  destruct Ha as [->|Ha], Hb as [->|Hb]; auto.
  - exfalso. apply Hx. rewrite Hk. now apply in_map.
  - exfalso. apply Hx. rewrite <- Hk. now apply in_map.
Qed.

Lemma withStructureOf_same page : withStructureOf page page = page.
Proof. now destruct page. Qed.

(** Merging a sublist of the flat metadata against the flat metadata
    changes nothing when the identities are distinct. *)
Lemma mergePages_same l :
  NoDup (map (fun e => (lib e, id e)) l) ->
  forall l', incl l' l -> mergePages l (map Some l') = Returned (map Some l').
Proof.
  intros Hnd. induction l' as [|page l' IH]; intros Hincl; [reflexivity|].
  cbn [map mergePages]. rewrite IH by (intros y Hy; apply Hincl; now right).
  simpl. assert (Hin : In page l) by (apply Hincl; now left).
  destruct (List.find (samePage page) l) as [found|] eqn:E.
  - apply find_some in E as [Hf Hs]. unfold samePage in Hs.
    apply andb_true_iff in Hs as [Hl Hi].
    apply String.eqb_eq in Hl, Hi.
    assert (found = page).
    { apply (NoDup_key_inj (fun e => (lib e, id e)) l Hnd); auto.
      simpl. now rewrite Hl, Hi. }
    subst. simpl. now rewrite withStructureOf_same.
  - exfalso. apply (find_none _ _ E) in Hin. unfold samePage in Hin.
    now rewrite !String.eqb_refl in Hin.
Qed.

Lemma omap_Some {A} (l : list A) : omap (fun x => x) (map Some l) = l.
Proof. induction l as [|a l IH]; [reflexivity | cbn; now f_equal]. Qed.

(** C1: for every page tree as the discoverer links it, in which the
    pairs of library and identifier are distinct and the parent identifiers
    resolve to one node each, reconstructing the tree from its own flattened
    list (merging every entry against the stored metadata by identity and
    rebuilding the hierarchy from the root by parent identifiers) returns,
    and flattening the result gives the original list, in order. *)
Theorem flatten_merge_flatten (page : Page) (l : list PageData)
    (metadata : JobMetadataRecord) (fuel : nat) :
  linkedUnder None page ->
  createFlatPageMetadataList page = Returned l ->
  NoDup (map (fun e => (lib e, id e)) l) ->
  parentsResolveOnce l ->
  allPages metadata = Some l ->
  List.length l <= fuel ->
  exists rebuilt,
    mergeInputStructure fuel (Some metadata) (map Some l) = Returned rebuilt /\
    createFlatPageMetadataList rebuilt = Returned l.
Proof.
  intros Hlink Hflat Hnd Honce Hall Hfuel.
  apply createFlatPageMetadataList_Tree in Hflat as (t & -> & ->).
  exists (toPage (stripped t)). split.
  - unfold mergeInputStructure. rewrite Hall.
    rewrite (mergePages_same _ Hnd) by apply incl_refl.
    cbn [bind]. rewrite omap_Some.
    assert (Hroot : List.find root (entries t) = Some (entry t)).
    { destruct t as [d subtrees].
      apply linkedUnder_Node in Hlink as (Hroot & _ & _).
      cbn [entries List.find entry]. cbn [deleteContents setContents root].
      now rewrite Hroot. }
    rewrite Hroot. apply createPageStructure_builds.
    + intros s Hs. now apply subpages_found.
    + pose proof (height_entries t). lia.
  - rewrite createFlatPageMetadataList_toPage. now rewrite entries_stripped.
Qed.

Lemma sample_flat_distinct : NoDup (map (fun e => (lib e, id e)) Sample.flat).
Proof.
  simpl. apply NoDup_cons. split; [|apply NoDup_singleton].
  rewrite list_elem_of_In. simpl. intros [H|[]]. discriminate H.
Defined.

Lemma sample_flat_resolves : parentsResolveOnce Sample.flat.
Proof.
  intros e x [<-|[<-|[]]] Hroot Hparent; [discriminate Hroot|].
  injection Hparent as <-. reflexivity.
Defined.

Lemma flatten_merge_flatten_witness :
  exists rebuilt,
    mergeInputStructure 2 (Some Sample.metadata) (map Some Sample.flat)
      = Returned rebuilt /\
    createFlatPageMetadataList rebuilt = Returned Sample.flat.
Proof.
  apply (flatten_merge_flatten Sample.tree Sample.flat Sample.metadata 2).
  - simpl. repeat split.
  - reflexivity.
  - exact sample_flat_distinct.
  - exact sample_flat_resolves.
  - reflexivity.
  - simpl. lia.
Defined.

(** The two-page text: the translated pages are rebuilt with the chapter
    under the cover, with their translated title and contents and with the
    tags, path and section hints of the stored metadata. *)
Example reconstruct_translated_sample :
  mergeInputStructure 2 (Some Sample.metadata)
    [Some Sample.translatedChapter; Some Sample.translatedCover] =
  Returned
    (Obj (mkPageData "chem" "10" None "Portada" ["coverpage:yes"] (Some "Cover")
            None None true None (Some "<p>portada</p>") (Some "") None)
       [Obj (mkPageData "chem" "11" None "1: Introduccion" []
               (Some "Cover/1%3A_Intro") (Some "1") (Some "Intro") false (Some "10")
               (Some "<p>introduccion</p>") (Some "") None) []]).
Proof. reflexivity. Qed.

End RoundTrip.

(** ** Stage A *)

Module StageA.
Import FlattenFacts.

(** The discoverer asks for page information and subpage listings only. *)
Lemma retrieveSubpages_requests site : forall lib path above,
  Forall (fun ev => isContentFetch ev = false)
         (snd (retrieveSubpages site lib path above)).
Proof.
  induction site as [l p|l p info|l p info listing IH] using Site_induction;
    intros lib path above.
  - repeat constructor.
  - repeat constructor.
  - assert (Hfound : Forall (fun ev => isContentFetch ev = false)
      (List.concat (map snd (map (fun sub =>
         retrieveSubpages sub (siteLib sub) (sitePath sub) (Some (pageID info)))
         listing)))).
    { induction IH as [|sub rest Hsub _ IHrest]; [constructor|].
      simpl. apply Forall_app. split; [apply Hsub | exact IHrest]. }
    cbn [retrieveSubpages].
    destruct (truthy above);
      [|destruct (includesTag "coverpage:yes" (processTags (pageTags info)))];
      cbn [snd]; repeat constructor; exact Hfound.
Qed.

Lemma retrieveSubpages_without_cover site lib path tags :
  servedTags site = Some tags -> includesTag "coverpage:yes" tags = false ->
  fst (retrieveSubpages site lib path None) = Null.
Proof.
  destruct site as [l p|l p info|l p info listing]; intros Htags Hcover;
    [discriminate | reflexivity |].
  injection Htags as <-. cbn [retrieveSubpages truthy]. now rewrite Hcover.
Qed.

(** C9: when the tags of the page asked for do not include the cover
    marker, discovery gives [null], stage A ends there with [false], and no
    request for the contents of a page is made. *)
Theorem no_cover_no_fetch (env : SourceEnv) (reqParams : Request) (tags : list string) :
  request env = Some reqParams ->
  servedTags (site (platform env)) = Some tags ->
  includesTag "coverpage:yes" tags = false ->
  fst (retrieveSubpages (site (platform env)) (reqLib reqParams)
                        (reqPath reqParams) None) = Null /\
  (queueDelete env = Ok200 -> libraryKeys env = true ->
   fst (startTranslation env) = Returned false) /\
  Forall (fun ev => isContentFetch ev = false) (snd (startTranslation env)).
Proof.
  intros Hreq Htags Hcover.
  pose proof (retrieveSubpages_without_cover _ (reqLib reqParams)
                (reqPath reqParams) _ Htags Hcover) as Hnull.
  pose proof (retrieveSubpages_requests (site (platform env)) (reqLib reqParams)
                (reqPath reqParams) None) as Hquiet.
  split; [exact Hnull|].
  unfold startTranslation. rewrite Hreq.
  destruct (retrieveSubpages (site (platform env)) (reqLib reqParams)
              (reqPath reqParams) None) as [found requested].
  cbn [fst snd] in Hnull, Hquiet. subst found. split.
  - intros -> ->. reflexivity.
  - destruct (queueDelete env); [|repeat constructor..].
    destruct (libraryKeys env); [|repeat constructor].
    cbn. repeat constructor. rewrite app_nil_r. exact Hquiet.
Qed.

Lemma no_cover_no_fetch_witness :
  fst (retrieveSubpages Sample.plainSite "chem" "Cover" None) = Null /\
  (queueDelete Sample.noCover = Ok200 -> libraryKeys Sample.noCover = true ->
   fst (startTranslation Sample.noCover) = Returned false) /\
  Forall (fun ev => isContentFetch ev = false) (snd (startTranslation Sample.noCover)).
Proof.
  apply (no_cover_no_fetch Sample.noCover Sample.request []); reflexivity.
Defined.

Lemma uploadLibreText_returns cloud page :
  exists ok, fst (uploadLibreText cloud page) = Returned ok.
Proof.
  destruct page as [|d subpages]; [now exists false|].
  unfold uploadLibreText, orElse.
  destruct (fst (uploadAll cloud (Obj d subpages))) as [ok| |] eqn:E.
  - rewrite E. now exists ok.
  - now exists false.
  - exfalso. unfold uploadAll in E.
    destruct (createUploadCommands (Obj d subpages) None) as [cmds| |];
      try discriminate E.
    destruct (allResolved _); [|discriminate E].
    destruct (Nat.eqb _ 0); [|discriminate E].
    destruct (createFlatPageMetadataList (Obj d subpages)); try discriminate E.
    cbn in E. destruct (putObject cloud OutputBucket _); discriminate E.
Qed.

(** Whatever object storage answers to the writes, a stage A that got as
    far as the export submits the translation job and returns [true]. *)
Lemma job_submitted_whatever_the_export (env : SourceEnv) (reqParams : Request)
    (rootData : PageData) (subpages : list Page) (fetched processed : Page)
    (code : string) :
  request env = Some reqParams ->
  queueDelete env = Ok200 -> libraryKeys env = true ->
  fst (retrieveSubpages (site (platform env)) (reqLib reqParams)
                        (reqPath reqParams) None) = Obj rootData subpages ->
  fst (getSubpageContents (platform env) (Obj rootData subpages)) = Returned fetched ->
  processPageContents fetched = Returned processed ->
  reqLanguage reqParams = Some code -> 2 <= String.length code ->
  fst (startTranslation env) = Returned true /\
  In (StartTranslationJob (coverIDOf rootData) code) (snd (startTranslation env)).
Proof.
  intros Hreq Hqueue Hkeys Hfound Hfetched Hprocessed Hlang Hcode.
  unfold startTranslation. rewrite Hreq, Hqueue, Hkeys.
  destruct (retrieveSubpages (site (platform env)) (reqLib reqParams)
              (reqPath reqParams) None) as [found requested].
  cbn [fst] in Hfound. subst found.
  destruct (uploadLibreText_returns (cloud env) processed) as [ok Hok].
  unfold initiateTranslationJob. rewrite Hlang.
  destruct (Nat.ltb (String.length code) 2) eqn:El;
    [apply Nat.ltb_lt in El; lia|].
  unfold andThen. cbn [emit ret fst snd negb].
  rewrite Hfetched. cbn [fst snd]. rewrite Hprocessed. cbn [fst snd].
  rewrite Hok. cbn [fst snd].
  destruct (startJob (cloud env) (coverIDOf rootData)); cbn [ret fst snd];
    (split; [reflexivity|]);
    cbn [app In]; rewrite ?in_app_iff; cbn [In]; tauto.
Qed.

(** C2 fails on the code: [startTranslation] drops the result of
    [uploadLibreText].  When the write of one page's contents fails, no
    metadata record is written, and the translation job is submitted all
    the same. *)
Theorem job_submitted_after_failed_write :
  putObject Sample.failingCloud InputBucket "chem-10/chem-11.html" = NotOk /\
  startTranslation Sample.failingExport =
    (Returned true,
     [DeleteQueueMessage; GetLibraryKeys "chem";
      GetPageInfo "chem" "Cover"; GetSubpages "chem" "10";
      GetPageInfo "chem" "Cover/1%3A_Intro"; GetSubpages "chem" "11";
      GetPageContents "chem" "10"; GetPageProperties "chem" "10";
      GetPageContents "chem" "11"; GetPageProperties "chem" "11";
      PutObject InputBucket "chem-10/chem-10.html";
      PutObject InputBucket "chem-10/chem-11.html";
      StartTranslationJob "chem-10" "es"]).
Proof. split; vm_compute; reflexivity. Qed.

End StageA.

(** ** Job Correlator *)

Module Correlation.
Import JsFacts.

Local Open Scope string_scope.

(** The correlator decodes exactly the well-formed segments, into their
    two parts. *)
Lemma decodeCoverID_parts segment :
  decodeCoverID segment =
  if wellFormedCover segment then coverParts segment else None.
Proof.
  unfold decodeCoverID, wellFormedCover, coverParts.
  rewrite (split_parts "-" segment).
  destruct (afterChar "-" segment) as [rest|]; [|reflexivity].
  rewrite (split_parts "-" rest).
  now destruct (Js.nonEmpty (upToChar "-" segment) && Js.nonEmpty (upToChar "-" rest)).
Qed.

Lemma jobDetailsOf_undecodable m files prefix :
  details m = Some files -> inputDataPrefix m = Some prefix ->
  (forall segment, inputCoverIDOf prefix = Some segment ->
                   wellFormedCover segment = false) ->
  jobDetailsOf m = Returned None.
Proof.
  intros Hd Hp Hbad. unfold jobDetailsOf. rewrite Hd, Hp.
  destruct (inputCoverIDOf prefix) as [segment|]; [|reflexivity].
  destruct (negb (Js.nonEmpty segment)); [reflexivity|].
  now rewrite decodeCoverID_parts, (Hbad segment eq_refl).
Qed.

(** C7: when the segment of the manifest's input data prefix is no
    well-formed cover identifier (it lacks the hyphen, or the part before
    the hyphen or the part after it is blank), which is exactly when the
    correlator does not decode it, correlation fails and stage B ends with
    [false]: the only read of object storage is that of the manifest (no
    read at all without a bucket name), the metadata record is never asked
    for, and the destination library is left as it was. *)
Theorem undecodable_prefix_stops_correlation (fuel : nat) (env : TargetEnv)
    (library : Library) (jobID outputFolder lang prefix : string)
    (m : Manifest) (files : list Detail) :
  let uri := outputFolder ++ "details/" ++ lang
             ++ ".auxiliary-translation-details.json" in
  let key := Js.replaceFirst (outputBucket env ++ "/") ""
               (Js.replaceFirst "s3://" "" uri) in
  jobId env = Some jobID -> Js.nonEmpty jobID = true ->
  describeJob env jobID = Some (outputFolder, lang) ->
  getObject env key = Body (ManifestDoc m) ->
  details m = Some files -> inputDataPrefix m = Some prefix ->
  (forall segment, inputCoverIDOf prefix = Some segment ->
                   wellFormedCover segment = false) ->
  (forall segment,
     decodeCoverID segment =
     if wellFormedCover segment then coverParts segment else None) /\
  fst (retrieveTranslationJobDetails env uri) = Returned None /\
  processTranslated fuel env library =
  (Returned false,
   DescribeJob jobID ::
   (if Nat.eqb (String.length (outputBucket env)) 0 then [] else [GetObject key]),
   library).
Proof.
  intros uri key Hjob Hne Hdescribe Hobject Hd Hp Hbad.
  split; [exact decodeCoverID_parts|].
  assert (Huri : Js.nonEmpty uri = true).
  { unfold uri. apply nonEmpty_append_r, nonEmpty_append_l. reflexivity. }
  assert (Hlen : Nat.eqb (String.length uri) 0 = false).
  { apply Nat.eqb_neq. now apply nonEmpty_length. }
  assert (Hdetails : retrieveTranslationJobDetails env uri =
            (Returned None,
             if Nat.eqb (String.length (outputBucket env)) 0 then []
             else [GetObject key])).
  { unfold retrieveTranslationJobDetails. rewrite Huri. cbn [negb].
    unfold getFileContents. rewrite Hlen.
    destruct (Nat.eqb (String.length (outputBucket env)) 0); [reflexivity|].
    cbn [orb]. fold key. rewrite Hobject.
    cbn [andThen emit ret raise fst snd].
    now rewrite (jobDetailsOf_undecodable m files prefix Hd Hp Hbad). }
  split; [now rewrite Hdetails|].
  unfold processTranslated. rewrite Hjob. cbn [Js.isNonEmptyString].
  rewrite Hne. cbn [negb].
  unfold getTranslationDetailsURI. rewrite Hdescribe.
  unfold after at 1. cbn [andThen emit ret fst snd app].
  fold uri. rewrite Hdetails. unfold after. cbn [fst snd].
  now rewrite app_nil_r.
Qed.

Lemma undecodable_prefix_stops_correlation_witness :
  (forall segment,
     decodeCoverID segment =
     if wellFormedCover segment then coverParts segment else None) /\
  fst (retrieveTranslationJobDetails Sample.brokenJob
         "s3://polyglot-output/chem10/123-TranslateText-abc/details/es.auxiliary-translation-details.json")
    = Returned None /\
  processTranslated 5 Sample.brokenJob ∅ =
  (Returned false,
   [DescribeJob "abc";
    GetObject "chem10/123-TranslateText-abc/details/es.auxiliary-translation-details.json"],
   ∅).
Proof.
  apply (undecodable_prefix_stops_correlation 5 Sample.brokenJob ∅ "abc"
           "s3://polyglot-output/chem10/123-TranslateText-abc/" "es"
           "s3://polyglot-input/chem10/" Sample.brokenManifest
           [mkDetail "chem-10.html" "es.chem-10.html"]);
    try reflexivity.
  intros segment Hsegment. vm_compute in Hsegment.
  injection Hsegment as <-. reflexivity.
Defined.

End Correlation.

(** ** Hierarchical Writer: pages that exist already *)

Module Writer.
Import FlattenFacts.

Lemma eachLimit_safe {A} (f : A -> Library -> bool * Trace * Library) l :
  Forall (fun a => forall library, safe library (f a library)) l ->
  forall library : Library,
    Forall (fun ev => abortsIfExists ev = true) (fst (eachLimit f l library)) /\
    forall p body, library !! p = Some body ->
                   snd (eachLimit f l library) !! p = Some body.
Proof.
  induction 1 as [|a rest Ha _ IH]; intros library; [split; [constructor | auto]|].
  cbn [eachLimit]. destruct (Ha library) as [Hflags Hkept].
  destruct (f a library) as [[ok requested] library'].
  fold (eachLimit f). destruct (IH library') as [Hflags' Hkept'].
  destruct (eachLimit f rest library') as [requested' library''].
  cbn [fst snd] in *. split.
  - apply Forall_app. now split.
  - intros p body Hp. apply Hkept', Hkept, Hp.
Qed.

(** Every creation request carries the flag, and a page that exists is
    never overwritten. *)
Lemma saveToLibrary_safe assign parses page : forall targetLib targetPath parentPath
    (library : Library),
  safe library
    (saveToLibrary assign parses page targetLib targetPath parentPath library).
Proof.
  induction page as [|d subpages IH] using Page_induction;
    intros tl tp pp library.
  - split; [constructor | auto].
  - cbn [saveToLibrary].
    destruct (negb (Js.nonEmpty tl) || negb (Js.nonEmpty tp));
      [split; [constructor | auto]|].
    destruct (contents d) as [body|]; [|split; [constructor | auto]].
    unfold createPage.
    destruct (library !! assembleUrl [tp; pp; newPagePath d]) as [old|] eqn:Eold.
    { split; [repeat constructor | auto]. }
    assert (Hkept : forall p b, library !! p = Some b ->
              <[assembleUrl [tp; pp; newPagePath d] := Js.trim body]> library !! p
              = Some b).
    { intros p b Hp. rewrite lookup_insert_ne; [exact Hp|]. congruence. }
    destruct (negb (Js.nonEmpty (assign (assembleUrl [tp; pp; newPagePath d])))).
    { split; [repeat constructor | exact Hkept]. }
    pose proof (eachLimit_safe
      (fun subpage => saveToLibrary assign parses subpage tl tp
                        (assembleUrl [pp; newPagePath d])) subpages) as Heach.
    specialize (Heach ltac:(rewrite List.Forall_forall in IH |- *;
                            intros sub Hsub lib0; now apply IH)).
    specialize (Heach (<[assembleUrl [tp; pp; newPagePath d] := Js.trim body]> library)).
    destruct (eachLimit _ subpages _) as [below library2].
    destruct Heach as [Hflags Hkept']. cbn [fst snd] in *. split.
    + cbn [fst snd]. constructor; [reflexivity|].
      unfold savePageTags, savePageProperties.
      repeat (apply Forall_app; split); try (repeat constructor); try exact Hflags.
      * destruct (forallb _ _); [|constructor].
        destruct (props d) as [[|? ?]|], (Js.isNonEmptyString (summary d));
          repeat constructor.
      * destruct (hasThumbnail d); repeat constructor.
    + cbn [snd]. intros p b Hp. apply Hkept', Hkept, Hp.
Qed.

(** C10: every page-creation request of the writer carries the flag that
    aborts when the page exists, and no page that exists in the destination
    library is overwritten.  Where the page of a node exists already, its
    creation is refused, the save of that subtree returns [false] after
    this one request and leaves the library as it was, and the siblings
    after it are saved as if the node were not in the list. *)
Theorem existing_page_is_kept (assign : string -> string)
    (parses : string -> bool) (d : PageData)
    (subpages rest : list Page) (body old targetLib targetPath parentPath : string)
    (library : Library) :
  let request := CreatePage targetLib (destinationOf d targetPath parentPath)
                            (Js.trim (title d)) true in
  let save := fun sub =>
    saveToLibrary assign parses sub targetLib targetPath parentPath in
  Js.nonEmpty targetLib = true -> Js.nonEmpty targetPath = true ->
  contents d = Some body ->
  library !! destinationOf d targetPath parentPath = Some old ->
  createPage assign true (destinationOf d targetPath parentPath) (Js.trim body) library
    = (Refused, library) /\
  saveToLibrary assign parses (Obj d subpages) targetLib targetPath parentPath
    library = (false, [request], library) /\
  eachLimit save (Obj d subpages :: rest) library
    = (request :: fst (eachLimit save rest library),
       snd (eachLimit save rest library)) /\
  forall page targetLib' targetPath' parentPath' (library0 : Library),
    safe library0
      (saveToLibrary assign parses page targetLib' targetPath' parentPath' library0).
Proof.
  intros request save Hlib Hpath Hbody Hold.
  assert (Hsave : saveToLibrary assign parses (Obj d subpages) targetLib targetPath
                    parentPath library = (false, [request], library)).
  { cbn [saveToLibrary]. rewrite Hlib, Hpath, Hbody. cbn [negb orb].
    unfold createPage. unfold destinationOf in Hold. now rewrite Hold. }
  split; [unfold createPage; now rewrite Hold|].
  split; [exact Hsave|]. split.
  - cbn [eachLimit]. unfold save at 1. rewrite Hsave.
    fold (eachLimit save). now destruct (eachLimit save rest library).
  - intros. apply saveToLibrary_safe.
Qed.

Lemma existing_page_is_kept_witness :
  let assign := fun pagePath => ("id:" ++ pagePath)%string in
  let request := CreatePage "espanol" "Sandboxes/Translated/Cover" "Cover" true in
  let parses := fun _ : string => true in
  let save := fun sub =>
    saveToLibrary assign parses sub "espanol" "Sandboxes/Translated" "" in
  createPage assign true "Sandboxes/Translated/Cover" "<p>cover</p>" Sample.occupied
    = (Refused, Sample.occupied) /\
  saveToLibrary assign parses Sample.tree "espanol" "Sandboxes/Translated" ""
    Sample.occupied = (false, [request], Sample.occupied) /\
  eachLimit save [Sample.tree; Obj Sample.chapter []] Sample.occupied
    = (request :: fst (eachLimit save [Obj Sample.chapter []] Sample.occupied),
       snd (eachLimit save [Obj Sample.chapter []] Sample.occupied)) /\
  forall page targetLib' targetPath' parentPath' (library0 : Library),
    safe library0
      (saveToLibrary assign parses page targetLib' targetPath' parentPath' library0).
Proof.
  apply (existing_page_is_kept (fun pagePath => ("id:" ++ pagePath)%string)
           (fun _ => true) Sample.cover [Obj Sample.chapter []] [Obj Sample.chapter []]
           "<p>cover</p>" "<p>already here</p>" "espanol" "Sandboxes/Translated" ""
           Sample.occupied); reflexivity.
Defined.

End Writer.

(** * Further properties of the code *)

(** ** Tree Flattener *)

Module FlattenerMore.
Import FlattenFacts.

Lemma flattenEach_listed subpages :
  Forall (fun sub => createFlatPageMetadataList sub =
                     if containsNull sub then Thrown else Returned (listed sub))
         subpages ->
  flattenEach createFlatPageMetadataList subpages =
  if existsb containsNull subpages then Thrown
  else Returned (flat_map listed subpages).
Proof.
  induction 1 as [|sub rest Hsub _ IH]; [reflexivity|].
  cbn [flattenEach existsb flat_map]. rewrite Hsub.
  destruct (containsNull sub); [reflexivity|]. cbn [bind orb].
  fold (flattenEach createFlatPageMetadataList). rewrite IH.
  now destruct (existsb containsNull rest).
Qed.

Lemma createFlatPageMetadataList_listed page :
  createFlatPageMetadataList page =
  if containsNull page then Thrown else Returned (listed page).
Proof.
  induction page as [|d subpages IH] using Page_induction; [reflexivity|].
  cbn [createFlatPageMetadataList containsNull listed].
  rewrite flattenEach_listed by exact IH.
  now destruct (existsb containsNull subpages).
Qed.

(** X1: the flattener throws exactly on the page values that hold a
    [null] somewhere (it never recurses without end); on every other value
    it returns one entry for every page object, in pre-order, and no entry
    carries contents. *)
Theorem flattener_returns_unless_null (page : Page) :
  createFlatPageMetadataList page =
    (if containsNull page then Thrown else Returned (listed page)) /\
  Forall (fun e => contents e = None) (listed page) /\
  List.length (listed page) = nodeCount page.
Proof.
  induction page as [|d subpages IH] using Page_induction.
  - repeat split. constructor.
  - split; [|split].
    + apply createFlatPageMetadataList_listed.
    + cbn [listed]. constructor; [reflexivity|].
      induction IH as [|sub rest Hsub _ IHrest]; [constructor|].
      simpl. apply Forall_app. split; [apply Hsub | exact IHrest].
    + cbn [listed nodeCount List.length]. f_equal.
      induction IH as [|sub rest Hsub _ IHrest]; [reflexivity|].
      simpl. rewrite length_app. f_equal; [apply Hsub | exact IHrest].
Qed.

(** X2: on the object store, a page object that is its own first subpage
    is never flattened: whatever the depth of recursion allowed, the call
    does not return. *)
Theorem flattener_unbounded_on_self_reference (fuel : nat)
    (h : gmap Heap.loc Heap.Object) (r : Heap.loc) (o : Heap.Object)
    (arr : list (option Heap.loc)) :
  h !! r = Some o -> Heap.subpages o = Some arr -> arr !! 0 = Some (Some r) ->
  Heap.createFlatPageMetadataList fuel h (Some r) = Diverges.
Proof.
  intros Hr Harr Hfirst. induction fuel as [|fuel IH]; [reflexivity|].
  cbn [Heap.createFlatPageMetadataList]. rewrite Hr, Harr.
  destruct arr as [|first rest]; [discriminate Hfirst|].
  cbn [List.length Heap.flattenLoop]. rewrite Hr, Harr, Hfirst.
  cbn [mjoin option_join]. now rewrite IH.
Qed.

Lemma flattener_unbounded_on_self_reference_witness :
  Heap.createFlatPageMetadataList 7 Cases.loop (Some 0) = Diverges.
Proof.
  apply (flattener_unbounded_on_self_reference 7 Cases.loop 0
           (Heap.mkObject Sample.cover (Some [Some 0])) [Some 0]); reflexivity.
Defined.

End FlattenerMore.

(** ** Calls that talk to services *)

Module RunFacts.

Lemma andThen_Returned {A B} (m : Run A) (k : A -> Run B) a :
  fst m = Returned a -> andThen m k = (fst (k a), snd m ++ snd (k a)).
Proof. unfold andThen. now intros ->. Qed.

Lemma andThen_Thrown {A B} (m : Run A) (k : A -> Run B) :
  fst m = Thrown -> andThen m k = (Thrown, snd m).
Proof. unfold andThen. now intros ->. Qed.

Lemma andThen_requests {A B} (P : Event -> Prop) (m : Run A) (k : A -> Run B) :
  Forall P (snd m) -> (forall a, Forall P (snd (k a))) ->
  Forall P (snd (andThen m k)).
Proof.
  intros Hm Hk. unfold andThen. destruct (fst m) as [a| |]; cbn [snd]; auto.
  apply Forall_app. split; [exact Hm | apply Hk].
Qed.

Lemma mapLimit_requests {A B} (P : Event -> Prop) (f : A -> Run B) l :
  Forall (fun a => Forall P (snd (f a))) l -> Forall P (snd (mapLimit f l)).
Proof.
  induction 1 as [|a rest Ha _ IH]; [constructor|].
  cbn [mapLimit]. apply andThen_requests; [exact Ha|]. intros b.
  apply andThen_requests; [exact IH|]. intros others. constructor.
Qed.

End RunFacts.

(** ** Tree Discoverer *)

Module DiscoveryMore.
Import FlattenFacts RunFacts.

Lemma retrieveSubpages_below site :
  identified site = true -> forall lib path above,
  truthy above = true ->
  containsNull (fst (retrieveSubpages site lib path above)) = negb (allServed site).
Proof.
  induction site as [l p|l p info|l p info listing IH] using Site_induction;
    intros Hid lib path above Habove; try reflexivity.
  simpl in Hid. apply andb_true_iff in Hid as [Hne Hlisting].
  cbn [retrieveSubpages]. rewrite Habove. cbn [fst containsNull allServed].
  clear Habove. induction IH as [|sub rest Hsub _ IHrest]; [reflexivity|].
  simpl in Hlisting. apply andb_true_iff in Hlisting as [H1 H2].
  cbn [map existsb forallb]. rewrite IHrest by exact H2.
  rewrite (Hsub H1) by (cbn [truthy]; exact Hne).
  now destruct (allServed sub), (forallb allServed rest).
Qed.

(** X3: on a platform whose page identifiers are non-empty, the tree that
    the discoverer returns for a page below a parent, or for a page that
    bears the cover tag, holds a [null] exactly when some page of the site
    was not served with its listing. *)
Theorem discovery_null_where_unserved (site : Site) (lib path : string)
    (above : option string) :
  identified site = true ->
  truthy above = true \/
  (exists tags, servedTags site = Some tags /\
                includesTag "coverpage:yes" tags = true) ->
  containsNull (fst (retrieveSubpages site lib path above)) = negb (allServed site).
Proof.
  intros Hid [Habove|(tags & Htags & Hcover)].
  - now apply retrieveSubpages_below.
  - destruct (truthy above) eqn:Eabove; [now apply retrieveSubpages_below|].
    destruct site as [l p|l p info|l p info listing]; try reflexivity.
    injection Htags as <-.
    pose proof (retrieveSubpages_below (Served l p info listing) Hid lib path
                  (Some (pageID info))) as Hbelow.
    simpl in Hid. apply andb_true_iff in Hid as [Hne _].
    specialize (Hbelow ltac:(cbn [truthy]; exact Hne)).
    cbn [retrieveSubpages] in Hbelow |- *. rewrite Eabove, Hcover.
    cbn [truthy] in Hbelow. rewrite Hne in Hbelow. exact Hbelow.
Qed.

Lemma discovery_null_where_unserved_witness :
  containsNull (fst (retrieveSubpages Cases.brokenSite "chem" "Cover" None))
  = negb (allServed Cases.brokenSite).
Proof.
  apply (discovery_null_where_unserved Cases.brokenSite "chem" "Cover" None).
  - reflexivity.
  - right. exists ["coverpage:yes"]. split; reflexivity.
Defined.

Lemma retrieveSubpages_discovery site : forall lib path above,
  Forall (fun ev => isDiscovery ev = true)
         (snd (retrieveSubpages site lib path above)).
Proof.
  induction site as [l p|l p info|l p info listing IH] using Site_induction;
    intros lib path above.
  - repeat constructor.
  - repeat constructor.
  - assert (Hfound : Forall (fun ev => isDiscovery ev = true)
      (List.concat (map snd (map (fun sub =>
         retrieveSubpages sub (siteLib sub) (sitePath sub) (Some (pageID info)))
         listing)))).
    { induction IH as [|sub rest Hsub _ IHrest]; [constructor|].
      simpl. apply Forall_app. split; [apply Hsub | exact IHrest]. }
    cbn [retrieveSubpages].
    destruct (truthy above);
      [|destruct (includesTag "coverpage:yes" (processTags (pageTags info)))];
      cbn [snd]; repeat constructor; exact Hfound.
Qed.

Lemma retrieveSubpages_unserved site : forall lib path above,
  allServed site = false ->
  containsNull (fst (retrieveSubpages site lib path above)) = true.
Proof.
  induction site as [l p|l p info|l p info listing IH] using Site_induction;
    intros lib path above Hsite; try reflexivity.
  cbn [allServed] in Hsite. cbn [retrieveSubpages].
  assert (Hbelow : existsb containsNull (map fst (map (fun sub =>
            retrieveSubpages sub (siteLib sub) (sitePath sub) (Some (pageID info)))
            listing)) = true).
  { induction IH as [|sub rest Hsub _ IHrest]; [discriminate|].
    cbn [forallb] in Hsite. cbn [map existsb].
    destruct (allServed sub) eqn:Esub.
    - rewrite (IHrest Hsite). apply orb_true_r.
    - now rewrite (Hsub _ _ _ eq_refl). }
  destruct (truthy above);
    [|destruct (includesTag "coverpage:yes" (processTags (pageTags info)))];
    cbn [fst containsNull]; auto.
Qed.

(** X4: the discoverer asks for every page of the site before it looks at
    the cover tag: the number of its requests is that of the whole walk,
    whatever the parent and the tags of the page. *)
Theorem discovery_walks_the_whole_site (site : Site) (lib path : string)
    (above : option string) :
  List.length (snd (retrieveSubpages site lib path above)) = requestCount site.
Proof.
  revert lib path above.
  induction site as [l p|l p info|l p info listing IH] using Site_induction;
    intros lib path above; try reflexivity.
  assert (Hfound : List.length (List.concat (map snd (map (fun sub =>
            retrieveSubpages sub (siteLib sub) (sitePath sub) (Some (pageID info)))
            listing))) = list_sum (map requestCount listing)).
  { induction IH as [|sub rest Hsub _ IHrest]; [reflexivity|].
    simpl. now rewrite length_app, Hsub, IHrest. }
  cbn [retrieveSubpages requestCount].
  destruct (truthy above);
    [|destruct (includesTag "coverpage:yes" (processTags (pageTags info)))];
    cbn [snd List.length]; now rewrite Hfound.
Qed.

End DiscoveryMore.

(** ** Content Fetcher and content transform on a tree *)

Module FetchMore.
Import FlattenFacts RunFacts.

Lemma getSubpageContents_Obj platform d subpages :
  getSubpageContents platform (Obj d subpages) =
  andThen (Returned tt,
           [GetPageContents (lib d) (id d); GetPageProperties (lib d) (id d)])
    (fun _ =>
       andThen (mapLimit (getSubpageContents platform) subpages)
         (fun subpages' => ret (Obj (fetchedData platform d) subpages'))).
Proof.
  cbn [getSubpageContents]. unfold fetchedData, getPageContent, getPageProperties.
  cbn [fst snd]. now destruct (takeOverview _).
Qed.

Lemma mapLimit_fetched platform subpages :
  Forall (fun sub => fst (getSubpageContents platform sub) =
                     if containsNull sub then Thrown
                     else Returned (fetched platform sub)) subpages ->
  fst (mapLimit (getSubpageContents platform) subpages) =
  if existsb containsNull subpages then Thrown
  else Returned (map (fetched platform) subpages).
Proof.
  induction 1 as [|sub rest Hsub _ IH]; [reflexivity|].
  cbn [mapLimit existsb map]. unfold andThen at 1. rewrite Hsub.
  destruct (containsNull sub); [reflexivity|]. cbn [orb fst].
  fold (mapLimit (getSubpageContents platform)).
  unfold andThen. rewrite IH.
  now destruct (existsb containsNull rest).
Qed.

Lemma getSubpageContents_fetched platform page :
  fst (getSubpageContents platform page) =
  if containsNull page then Thrown else Returned (fetched platform page).
Proof.
  induction page as [|d subpages IH] using Page_induction; [reflexivity|].
  rewrite getSubpageContents_Obj.
  unfold andThen at 1. cbn [fst snd].
  unfold andThen. rewrite mapLimit_fetched by exact IH.
  cbn [containsNull fetched]. now destruct (existsb containsNull subpages).
Qed.

Lemma getSubpageContents_requests platform page :
  Forall (fun ev => isFetch ev = true) (snd (getSubpageContents platform page)).
Proof.
  induction page as [|d subpages IH] using Page_induction; [constructor|].
  rewrite getSubpageContents_Obj.
  apply andThen_requests; [repeat constructor|]. intros _.
  apply andThen_requests; [|intros; constructor].
  apply mapLimit_requests. exact IH.
Qed.

(** X5: the content fetcher throws exactly on the page values that hold a
    [null]; on every other value it returns the tree of the fetched pages.
    All its requests are for contents and properties. *)
Theorem fetcher_returns_unless_null (platform : Platform) (page : Page) :
  fst (getSubpageContents platform page) =
    (if containsNull page then Thrown else Returned (fetched platform page)) /\
  Forall (fun ev => isFetch ev = true) (snd (getSubpageContents platform page)).
Proof.
  split; [apply getSubpageContents_fetched | apply getSubpageContents_requests].
Qed.

Lemma mapOutcome_processed subpages :
  Forall (fun sub => processPageContents sub =
                     if containsNull sub then Thrown else Returned (processed sub))
         subpages ->
  mapOutcome processPageContents subpages =
  if existsb containsNull subpages then Thrown
  else Returned (map processed subpages).
Proof.
  induction 1 as [|sub rest Hsub _ IH]; [reflexivity|].
  cbn [mapOutcome existsb map]. rewrite Hsub.
  destruct (containsNull sub); [reflexivity|]. cbn [bind orb].
  fold (mapOutcome processPageContents). rewrite IH.
  now destruct (existsb containsNull rest).
Qed.

Lemma processPageContents_processed page :
  processPageContents page =
  if containsNull page then Thrown else Returned (processed page).
Proof.
  induction page as [|d subpages IH] using Page_induction; [reflexivity|].
  cbn [processPageContents containsNull processed].
  rewrite mapOutcome_processed by exact IH.
  now destruct (existsb containsNull subpages).
Qed.

Lemma containsNull_fetched platform page :
  containsNull (fetched platform page) = containsNull page.
Proof.
  induction page as [|d subpages IH] using Page_induction; [reflexivity|].
  cbn [fetched containsNull].
  induction IH as [|sub rest Hsub _ IHrest]; [reflexivity|].
  simpl. now rewrite Hsub, IHrest.
Qed.

Lemma containsNull_processed page :
  containsNull (processed page) = containsNull page.
Proof.
  induction page as [|d subpages IH] using Page_induction; [reflexivity|].
  cbn [processed containsNull].
  induction IH as [|sub rest Hsub _ IHrest]; [reflexivity|].
  simpl. now rewrite Hsub, IHrest.
Qed.

Lemma structureOf_processContentsOf d :
  structureOf (processContentsOf d) = structureOf d.
Proof. unfold processContentsOf. now destruct (contents d). Qed.

Lemma listed_structure platform page :
  map structureOf (listed (processed (fetched platform page))) =
  map structureOf (listed page).
Proof.
  induction page as [|d subpages IH] using Page_induction; [reflexivity|].
  cbn [fetched processed listed map]. f_equal.
  - change (structureOf (deleteContents ?x)) with (structureOf x).
    now rewrite structureOf_processContentsOf.
  - induction IH as [|sub rest Hsub _ IHrest]; [reflexivity|].
    simpl. now rewrite !map_app, Hsub, IHrest.
Qed.

(** X6: fetching and rewriting the contents leave alone what discovery
    recorded: when both return, flattening their result gives, entry for
    entry, the library, identifier, address, title, tags, path, section
    hints, root flag and parent that flattening the discovered tree
    gives. *)
Theorem fetch_and_transform_keep_the_structure (platform : Platform)
    (page afterFetch afterTransform : Page) (l : list PageData) :
  fst (getSubpageContents platform page) = Returned afterFetch ->
  processPageContents afterFetch = Returned afterTransform ->
  createFlatPageMetadataList page = Returned l ->
  exists l', createFlatPageMetadataList afterTransform = Returned l' /\
             map structureOf l' = map structureOf l.
Proof.
  intros Hfetch Hprocess Hflat.
  rewrite getSubpageContents_fetched in Hfetch.
  destruct (containsNull page) eqn:Enull; [discriminate|].
  injection Hfetch as <-.
  rewrite processPageContents_processed, containsNull_fetched, Enull in Hprocess.
  injection Hprocess as <-.
  rewrite FlattenerMore.createFlatPageMetadataList_listed, Enull in Hflat.
  injection Hflat as <-.
  exists (listed (processed (fetched platform page))). split.
  - now rewrite FlattenerMore.createFlatPageMetadataList_listed,
      containsNull_processed, containsNull_fetched, Enull.
  - apply listed_structure.
Qed.

Lemma fetch_and_transform_keep_the_structure_witness :
  exists l',
    createFlatPageMetadataList (processed (fetched Sample.source Sample.tree)) =
      Returned l' /\
    map structureOf l' = map structureOf Sample.flat.
Proof.
  apply (fetch_and_transform_keep_the_structure Sample.source Sample.tree
           (fetched Sample.source Sample.tree)
           (processed (fetched Sample.source Sample.tree)) Sample.flat);
    reflexivity.
Defined.

Lemma takeOverview_none pageProps :
  fst (takeOverview pageProps) = None ->
  snd (takeOverview pageProps) = pageProps /\
  Forall (fun prop => isOverview prop = false) pageProps.
Proof.
  induction pageProps as [|prop rest IH]; [now split|].
  cbn [takeOverview]. fold (isOverview prop).
  destruct (isOverview prop) eqn:E; [discriminate|].
  destruct (takeOverview rest) as [found rest']. cbn [fst snd] in *.
  intros ->. destruct (IH eq_refl) as [-> Hrest]. split; [reflexivity|].
  now constructor.
Qed.

Lemma takeOverview_some pageProps v :
  fst (takeOverview pageProps) = Some v ->
  exists before prop after,
    pageProps = before ++ prop :: after /\
    Forall (fun prop' => isOverview prop' = false) before /\
    isOverview prop = true /\ propValue prop = v /\
    snd (takeOverview pageProps) = before ++ after.
Proof.
  induction pageProps as [|prop rest IH]; [discriminate|].
  cbn [takeOverview]. fold (isOverview prop).
  destruct (isOverview prop) eqn:E.
  - cbn [fst snd]. intros [= <-]. exists [], prop, rest. now repeat split.
  - destruct (takeOverview rest) as [found rest']. cbn [fst snd] in *.
    intros ->. destruct (IH eq_refl) as (before & p & after & -> & Hb & Hp & Hv & ->).
    exists (prop :: before), p, after. repeat split; auto.
Qed.

(** X7: the fetcher moves the first overview property, and only that one,
    from the properties of a page to its summary: without an overview
    property the list is kept as it is; otherwise the value of the first
    one is taken and the list is the same without that entry (a second
    overview property stays in it).  The other fields that the fetcher sets
    are the body that the platform served and the remaining properties;
    the summary of a page without overview property is left as it was. *)
Theorem first_overview_becomes_summary (platform : Platform) (d : PageData) :
  let pageProps := fst (getPageProperties platform d) in
  let d' := fetchedData platform d in
  contents d' = pageBody platform (lib d) (id d) /\
  ((Forall (fun prop => isOverview prop = false) pageProps /\
    props d' = Some pageProps /\ summary d' = summary d) \/
   (exists before prop after,
      pageProps = before ++ prop :: after /\
      Forall (fun prop' => isOverview prop' = false) before /\
      isOverview prop = true /\
      props d' = Some (before ++ after) /\ summary d' = Some (propValue prop))).
Proof.
  intros pageProps d'. split; [reflexivity|].
  unfold d', fetchedData. fold pageProps. cbn [props summary withFetched].
  destruct (fst (takeOverview pageProps)) as [v|] eqn:E.
  - right. destruct (takeOverview_some _ _ E)
      as (before & prop & after & Heq & Hb & Hp & Hv & Hrest).
    exists before, prop, after. rewrite Hrest, Hv. now repeat split.
  - left. destruct (takeOverview_none _ E) as [Hrest Hall].
    rewrite Hrest. now repeat split.
Qed.

Lemma omap_addProperty raw :
  Forall (fun prop => Js.nonEmpty (propName prop) = true /\
                      Js.nonEmpty (propValue prop) = true)
         (omap addProperty raw).
Proof.
  induction raw as [|r raw IH]; [constructor|].
  cbn [omap list_omap]. unfold addProperty at 1.
  destruct (rawName r) as [n|]; [|exact IH].
  destruct (rawText r) as [v|]; [|exact IH].
  destruct (Js.nonEmpty n) eqn:En; [|exact IH].
  destruct (Js.nonEmpty v) eqn:Ev; [|exact IH].
  cbn [andb]. constructor; [now split | exact IH].
Qed.

Lemma getPageProperties_kept platform d :
  Forall kept (fst (getPageProperties platform d)).
Proof.
  unfold getPageProperties. cbn [fst].
  destruct (pageProperties platform (lib d) (id d)) as [raw|]; [|constructor].
  apply List.Forall_forall. intros prop Hin.
  apply List.filter_In in Hin as [Hin Hkeep].
  pose proof (omap_addProperty raw) as Hall.
  rewrite List.Forall_forall in Hall. destruct (Hall prop Hin) as [Hn Hv].
  repeat split; auto. now apply negb_true_iff in Hkeep.
Qed.

Lemma takeOverview_incl pageProps prop :
  In prop (snd (takeOverview pageProps)) -> In prop pageProps.
Proof.
  induction pageProps as [|p rest IH]; [intros []|].
  cbn [takeOverview]. destruct (String.eqb _ _).
  - cbn [snd]. now right.
  - destruct (takeOverview rest) as [found rest']. cbn [snd] in *.
    intros [->|Hin]; [now left | right; auto].
Qed.

(** X8: every page that the fetcher returns carries a property list, and
    every property in it has a name and a value that are not blank and a
    name that does not contain [editedby], whatever the platform listed
    (in listings whose entries all have a [contents] object, which are
    those of the platform model). *)
Theorem fetched_properties_are_kept (platform : Platform) (page afterFetch : Page) :
  fst (getSubpageContents platform page) = Returned afterFetch ->
  Forall (fun e => exists pageProps, props e = Some pageProps /\
                                     Forall kept pageProps)
         (listed afterFetch).
Proof.
  rewrite getSubpageContents_fetched.
  destruct (containsNull page); [discriminate|]. intros [= <-].
  induction page as [|d subpages IH] using Page_induction; [constructor|].
  cbn [fetched listed]. constructor.
  - eexists. split; [reflexivity|].
    apply List.Forall_forall. intros prop Hin.
    apply takeOverview_incl in Hin.
    pose proof (getPageProperties_kept platform d) as Hall.
    rewrite List.Forall_forall in Hall. now apply Hall.
  - induction IH as [|sub rest Hsub _ IHrest]; [constructor|].
    simpl. apply Forall_app. split; [exact Hsub | exact IHrest].
Qed.

Lemma fetched_properties_are_kept_witness :
  Forall (fun e => exists pageProps, props e = Some pageProps /\
                                     Forall kept pageProps)
         (listed (fetched Sample.source Sample.tree)).
Proof.
  apply (fetched_properties_are_kept Sample.source Sample.tree
           (fetched Sample.source Sample.tree)).
  reflexivity.
Defined.

Lemma addProperties_named listing :
  Forall (fun prop => Js.nonEmpty (propName prop) = true /\
                      Js.nonEmpty (propValue prop) = true)
         (fst (Listing.addProperties listing)).
Proof.
  induction listing as [|prop rest IH]; [constructor|].
  cbn [Listing.addProperties].
  destruct (Listing.entryContents prop) as [text|]; [|constructor].
  destruct (Listing.addProperties rest) as [foundProps finished].
  cbn [fst] in *. unfold addProperty. cbn [rawName rawText].
  destruct (Listing.entryName prop) as [n|]; [|exact IH].
  destruct text as [v|]; [|exact IH].
  destruct (Js.nonEmpty n) eqn:En; [|exact IH].
  destruct (Js.nonEmpty v) eqn:Ev; [|exact IH].
  cbn [andb]. constructor; [now split | exact IH].
Qed.

Lemma addProperties_finished listing :
  forallb Listing.hasContents listing = true ->
  Listing.addProperties listing = (omap addProperty (map Listing.raw listing), true).
Proof.
  induction listing as [|prop rest IH]; [reflexivity|].
  cbn [forallb]. intros [Hprop Hrest]%andb_true_iff.
  cbn [Listing.addProperties map omap list_omap]. rewrite (IH Hrest).
  unfold Listing.hasContents in Hprop.
  destruct (Listing.entryContents prop) as [text|] eqn:E; [|discriminate].
  replace (Listing.raw prop) with (mkRawProp (Listing.entryName prop) text)
    by (unfold Listing.raw; now rewrite E).
  now destruct (addProperty _).
Qed.

Lemma addProperties_stopped before prop after :
  forallb Listing.hasContents before = true ->
  Listing.entryContents prop = None ->
  Listing.addProperties (before ++ prop :: after) =
  (omap addProperty (map Listing.raw before), false).
Proof.
  intros Hbefore Hprop.
  induction before as [|first before IH].
  - cbn [app Listing.addProperties]. now rewrite Hprop.
  - cbn [forallb] in Hbefore. apply andb_true_iff in Hbefore as [Hfirst Hbefore].
    cbn [app Listing.addProperties map omap list_omap]. rewrite (IH Hbefore).
    unfold Listing.hasContents in Hfirst.
    destruct (Listing.entryContents first) as [text|] eqn:E; [|discriminate].
    replace (Listing.raw first) with (mkRawProp (Listing.entryName first) text)
      by (unfold Listing.raw; now rewrite E).
    now destruct (addProperty _).
Qed.

Lemma getPageProperties_named listing :
  Forall (fun prop => Js.nonEmpty (propName prop) = true /\
                      Js.nonEmpty (propValue prop) = true)
         (Listing.getPageProperties listing).
Proof.
  unfold Listing.getPageProperties.
  pose proof (addProperties_named listing) as Hall.
  destruct (Listing.addProperties listing) as [foundProps finished].
  cbn [fst] in Hall. destruct finished; [|exact Hall].
  apply List.Forall_forall. intros prop [Hin _]%List.filter_In.
  rewrite List.Forall_forall in Hall. now apply Hall.
Qed.

(** X9: the filter on [editedby] applies only to a listing that is read to
    its end: where an entry has no [contents] object, [getPageProperties]
    returns the properties of the entries before it unfiltered, and the
    entries after it are not read.  Every property it returns still has a
    name and a value that are not blank. *)
Theorem properties_unfiltered_after_a_bad_entry
    (before : list Listing.Entry) (prop : Listing.Entry) (after : list Listing.Entry) :
  forallb Listing.hasContents before = true ->
  Listing.entryContents prop = None ->
  Listing.getPageProperties (before ++ prop :: after) =
    omap addProperty (map Listing.raw before) /\
  Forall (fun found => Js.nonEmpty (propName found) = true /\
                       Js.nonEmpty (propValue found) = true)
         (Listing.getPageProperties (before ++ prop :: after)).
Proof.
  intros Hbefore Hprop. split; [|apply getPageProperties_named].
  unfold Listing.getPageProperties. now rewrite addProperties_stopped.
Qed.

Lemma properties_unfiltered_after_a_bad_entry_witness :
  Listing.getPageProperties Cases.brokenListing =
    [mkProp "mindtouch.page#editedby" "someone"] /\
  Forall (fun found => Js.nonEmpty (propName found) = true /\
                       Js.nonEmpty (propValue found) = true)
         (Listing.getPageProperties Cases.brokenListing).
Proof.
  apply (properties_unfiltered_after_a_bad_entry
           [Listing.mkEntry (Some "mindtouch.page#editedby") (Some (Some "someone"))]
           (Listing.mkEntry (Some "mindtouch.page#welcomeHidden") None) []);
    reflexivity.
Defined.

(** X10: on a listing whose entries all have a [contents] object,
    [getPageProperties] is the fetcher of the platform model: the listing
    is read to its end, and no property whose name contains [editedby] is
    returned. *)
Theorem complete_listing_is_filtered (listing : list Listing.Entry)
    (platform : Platform) (d : PageData) :
  forallb Listing.hasContents listing = true ->
  pageProperties platform (lib d) (id d) = Some (map Listing.raw listing) ->
  Listing.getPageProperties listing = fst (getPageProperties platform d) /\
  Forall kept (Listing.getPageProperties listing).
Proof.
  intros Hall Hserved.
  assert (Heq : Listing.getPageProperties listing = fst (getPageProperties platform d)).
  { unfold Listing.getPageProperties, getPageProperties.
    now rewrite addProperties_finished, Hserved. }
  split; [exact Heq|]. rewrite Heq. apply getPageProperties_kept.
Qed.

Lemma complete_listing_is_filtered_witness :
  Listing.getPageProperties Cases.wholeListing = fst (getPageProperties Cases.listingPlatform Sample.cover) /\
  Forall kept (Listing.getPageProperties Cases.wholeListing).
Proof.
  apply (complete_listing_is_filtered Cases.wholeListing Cases.listingPlatform Sample.cover);
    reflexivity.
Defined.

End FetchMore.

(** ** Batch Exporter *)

Module ExportMore.
Import FlattenFacts RunFacts.

Lemma mapOutcome_keys dirRoot subpages :
  Forall (fun sub => createUploadCommands sub (Some dirRoot) =
                     if complete sub
                     then Returned (map (fileKeyOf dirRoot) (listed sub))
                     else Thrown) subpages ->
  mapOutcome (fun sub => createUploadCommands sub (Some dirRoot)) subpages =
  if forallb complete subpages
  then Returned (map (fun sub => map (fileKeyOf dirRoot) (listed sub)) subpages)
  else Thrown.
Proof.
  induction 1 as [|sub rest Hsub _ IH]; [reflexivity|].
  cbn [mapOutcome forallb map]. rewrite Hsub.
  destruct (complete sub); [|reflexivity]. cbn [bind andb].
  fold (mapOutcome (fun sub => createUploadCommands sub (Some dirRoot))).
  rewrite IH. now destruct (forallb complete rest).
Qed.

Lemma concat_keys dirRoot subpages :
  List.concat (map (fun sub => map (fileKeyOf dirRoot) (listed sub)) subpages) =
  map (fileKeyOf dirRoot) (flat_map listed subpages).
Proof.
  induction subpages as [|sub rest IH]; [reflexivity|].
  cbn [map List.concat flat_map]. now rewrite map_app, IH.
Qed.

Lemma createUploadCommands_below page : forall above dirRoot,
  linkedUnder (Some above) page ->
  createUploadCommands page (Some dirRoot) =
  if complete page then Returned (map (fileKeyOf dirRoot) (listed page)) else Thrown.
Proof.
  induction page as [|d subpages IH] using Page_induction;
    intros above dirRoot Hlink; [reflexivity|].
  apply linkedUnder_Obj in Hlink as (Hroot & _ & Hsubs).
  cbn [is_Some_bool negb] in Hroot.
  cbn [createUploadCommands complete listed map]. rewrite Hroot. cbn [bind].
  destruct (contents d) as [body|]; [|reflexivity]. cbn [is_Some_bool andb].
  rewrite mapOutcome_keys.
  - destruct (forallb complete subpages); [|reflexivity]. cbn [bind].
    now rewrite concat_keys.
  - rewrite List.Forall_forall in IH, Hsubs |- *. intros sub Hin.
    apply (IH sub Hin (id d)). now apply Hsubs.
Qed.

(** X11: for a tree linked as the discoverer links it (one root on top,
    no root below), the exporter's write commands are, in the order of the
    flattened list, one per page, each under the directory named after the
    cover; they are built only when every page is an object with contents,
    and the call throws otherwise. *)
Theorem export_keys_under_the_cover (d : PageData) (subpages : list Page) :
  linkedUnder None (Obj d subpages) ->
  createUploadCommands (Obj d subpages) None =
    if complete (Obj d subpages)
    then Returned (map (fileKeyOf (coverIDOf d)) (listed (Obj d subpages)))
    else Thrown.
Proof.
  intros Hlink.
  apply linkedUnder_Obj in Hlink as (Hroot & _ & Hsubs).
  cbn [is_Some_bool negb] in Hroot.
  cbn [createUploadCommands complete listed map]. rewrite Hroot. cbn [bind].
  destruct (contents d) as [body|]; [|reflexivity]. cbn [is_Some_bool andb].
  rewrite mapOutcome_keys.
  - destruct (forallb complete subpages); [|reflexivity]. cbn [bind].
    now rewrite concat_keys.
  - rewrite List.Forall_forall in Hsubs |- *. intros sub Hin.
    apply (createUploadCommands_below sub (id d)). now apply Hsubs.
Qed.

Lemma export_keys_under_the_cover_witness :
  createUploadCommands Sample.tree None =
    Returned ["chem-10/chem-10.html"; "chem-10/chem-11.html"].
Proof.
  apply (export_keys_under_the_cover Sample.cover [Obj Sample.chapter []]).
  repeat split.
Defined.

Lemma mapOutcome_complete dirRoot subpages :
  Forall (fun sub => forall directory commands,
            createUploadCommands sub directory = Returned commands ->
            complete sub = true) subpages ->
  forall below,
    mapOutcome (fun sub => createUploadCommands sub (Some dirRoot)) subpages =
      Returned below ->
    forallb complete subpages = true.
Proof.
  induction 1 as [|sub rest Hsub _ IH]; intros below Hbelow; [reflexivity|].
  cbn [mapOutcome] in Hbelow.
  destruct (createUploadCommands sub (Some dirRoot)) as [commands| |] eqn:E;
    try discriminate Hbelow.
  cbn [bind] in Hbelow.
  fold (mapOutcome (fun sub => createUploadCommands sub (Some dirRoot))) in Hbelow.
  destruct (mapOutcome _ rest) as [others| |] eqn:E'; try discriminate Hbelow.
  cbn [forallb]. rewrite (Hsub _ _ E), (IH _ eq_refl). reflexivity.
Qed.

Lemma createUploadCommands_complete page : forall directory commands,
  createUploadCommands page directory = Returned commands -> complete page = true.
Proof.
  induction page as [|d subpages IH] using Page_induction;
    intros directory commands Hcommands; [discriminate|].
  cbn [createUploadCommands] in Hcommands. cbn [complete].
  destruct (if root d then _ else _) as [dirRoot| |]; try discriminate Hcommands.
  cbn [bind] in Hcommands.
  destruct (contents d) as [body|]; [|discriminate]. cbn [is_Some_bool andb].
  destruct (mapOutcome _ subpages) as [below| |] eqn:E; try discriminate Hcommands.
  exact (mapOutcome_complete dirRoot subpages IH below E).
Qed.

Lemma complete_containsNull page : complete page = true -> containsNull page = false.
Proof.
  induction page as [|d subpages IH] using Page_induction; [discriminate|].
  cbn [complete containsNull]. intros [_ Hsubs]%andb_true_iff.
  induction IH as [|sub rest Hsub _ IHrest]; [reflexivity|].
  cbn [forallb] in Hsubs. apply andb_true_iff in Hsubs as [H1 H2].
  cbn [existsb]. now rewrite (Hsub H1), (IHrest H2).
Qed.

Lemma createUploadCommands_settles page : forall directory,
  createUploadCommands page directory <> Diverges.
Proof.
  induction page as [|d subpages IH] using Page_induction;
    intros directory; [discriminate|].
  cbn [createUploadCommands].
  destruct (root d); [|destruct directory as [dir|]; [|discriminate]];
    cbn [bind]; (destruct (contents d); [|discriminate]);
    match goal with
    | |- context [mapOutcome ?f subpages] =>
        assert (Hloop : mapOutcome f subpages <> Diverges);
        [|destruct (mapOutcome f subpages); [discriminate | discriminate | congruence]]
    end;
    (induction IH as [|sub rest Hsub _ IHrest]; [discriminate|];
     cbn [mapOutcome];
     match goal with
     | |- context [createUploadCommands sub ?dir] =>
         specialize (Hsub dir); destruct (createUploadCommands sub dir);
         [|discriminate | congruence]
     end;
     cbn [bind];
     match goal with
     | |- context [mapOutcome ?f rest] =>
         change ((fix loop (l : list Page) : Outcome (list (list string)) :=
                    match l with
                    | [] => Returned []
                    | a :: rest0 =>
                        call b <~ f a; call others <~ loop rest0; Returned (b :: others)
                    end) rest) with (mapOutcome f rest) in *;
         destruct (mapOutcome f rest); [discriminate | discriminate | congruence]
     end).
Qed.

Lemma failCount_isOk replies :
  Nat.eqb (failCount replies) 0 = forallb isOk replies.
Proof.
  unfold failCount. induction replies as [|r rest IH]; [reflexivity|].
  destruct r; cbn [List.filter forallb isOk andb List.length Nat.eqb]; auto.
Qed.

Lemma isOk_allResolved replies :
  forallb isOk replies = true -> allResolved replies = true.
Proof.
  unfold allResolved. induction replies as [|r rest IH]; [reflexivity|].
  destruct r; cbn [forallb isOk andb]; auto; discriminate.
Qed.

(** X12: the result of the export of a tree whose write commands can be
    built.  All content writes are requested, in order; the metadata record
    is requested exactly when every content write answered with status 200;
    the call returns [true] exactly when, besides, the metadata write was
    not rejected, and it never throws. *)
Theorem export_result (cloud : Cloud) (d : PageData) (subpages : list Page)
    (uploadCommands : list string) :
  let page := Obj d subpages in
  let uploadResponses := map (putObject cloud InputBucket) uploadCommands in
  createUploadCommands page None = Returned uploadCommands ->
  uploadLibreText cloud page =
    (Returned (forallb isOk uploadResponses &&
               negb (isRejected (putObject cloud OutputBucket (metadataKeyOf d)))),
     map (PutObject InputBucket) uploadCommands ++
     (if forallb isOk uploadResponses
      then [PutObject OutputBucket (metadataKeyOf d)] else [])).
Proof.
  intros page uploadResponses Hcommands.
  assert (Hflat : exists l, createFlatPageMetadataList page = Returned l).
  { exists (listed page). rewrite FlattenerMore.createFlatPageMetadataList_listed.
    now rewrite (complete_containsNull page
                   (createUploadCommands_complete page None _ Hcommands)). }
  destruct Hflat as [l Hflat].
  unfold uploadLibreText, uploadAll. fold page. rewrite Hcommands.
  fold uploadResponses. rewrite failCount_isOk.
  destruct (forallb isOk uploadResponses) eqn:Eok.
  - rewrite (isOk_allResolved _ Eok), Hflat. subst page.
    unfold metadataKeyOf, andThen, orElse, emit, raise, ret.
    cbn [fst snd andb].
    destruct (putObject cloud OutputBucket _);
      cbn [fst snd isRejected negb]; now rewrite ?app_nil_r.
  - unfold andThen, orElse, raise, ret. cbn [fst snd andb].
    destruct (allResolved uploadResponses); cbn [fst snd]; now rewrite ?app_nil_r.
Qed.

Lemma export_result_witness :
  uploadLibreText Sample.failingCloud Sample.tree =
    (Returned false,
     [PutObject InputBucket "chem-10/chem-10.html";
      PutObject InputBucket "chem-10/chem-11.html"]).
Proof.
  apply (export_result Sample.failingCloud Sample.cover [Obj Sample.chapter []]
           ["chem-10/chem-10.html"; "chem-10/chem-11.html"]).
  reflexivity.
Defined.

(** X13: for a tree in which some page is [null] or has no contents, the
    exporter requests nothing, neither a content write nor the metadata
    record, and returns [false]. *)
Theorem nothing_written_for_an_incomplete_tree (cloud : Cloud) (page : Page) :
  complete page = false -> uploadLibreText cloud page = (Returned false, []).
Proof.
  intros Hpage. destruct page as [|d subpages]; [reflexivity|].
  unfold uploadLibreText, uploadAll.
  destruct (createUploadCommands (Obj d subpages) None) as [commands| |] eqn:E.
  - rewrite (createUploadCommands_complete _ _ _ E) in Hpage. discriminate.
  - reflexivity.
  - now apply createUploadCommands_settles in E.
Qed.

Lemma nothing_written_for_an_incomplete_tree_witness :
  uploadLibreText Sample.failingCloud (Obj Sample.cover [Obj Sample.section []]) =
    (Returned false, []).
Proof.
  apply (nothing_written_for_an_incomplete_tree Sample.failingCloud
           (Obj Sample.cover [Obj Sample.section []])).
  reflexivity.
Defined.

End ExportMore.

(** ** Stage A as a whole *)

Module StageAMore.
Import RunFacts.

Lemma uploadLibreText_requests cloud page :
  Forall (fun ev => isJobSubmission ev = false) (snd (uploadLibreText cloud page)).
Proof.
  destruct page as [|d subpages]; [constructor|].
  unfold uploadLibreText, uploadAll.
  destruct (createUploadCommands (Obj d subpages) None) as [commands| |];
    [|constructor..].
  assert (Hputs : Forall (fun ev => isJobSubmission ev = false)
                         (map (PutObject InputBucket) commands)).
  { apply List.Forall_forall. intros ev (key & <- & _)%in_map_iff. reflexivity. }
  assert (Hall : Forall (fun ev => isJobSubmission ev = false)
            (snd (perform _ <~ (Returned tt, map (PutObject InputBucket) commands);
                  if allResolved (map (putObject cloud InputBucket) commands) then
                    if Nat.eqb (failCount (map (putObject cloud InputBucket) commands)) 0
                    then
                      match createFlatPageMetadataList (Obj d subpages) with
                      | Returned _ =>
                          perform _ <~ emit (PutObject OutputBucket (metadataKeyOf d));
                          match putObject cloud OutputBucket (metadataKeyOf d) with
                          | Rejected => raise
                          | _ => ret true
                          end
                      | _ => raise
                      end
                    else ret false
                  else raise))).
  { apply andThen_requests; [exact Hputs|]. intros _.
    destruct (allResolved _); [|constructor].
    destruct (Nat.eqb _ 0); [|constructor].
    destruct (createFlatPageMetadataList _); [|constructor..].
    apply andThen_requests; [repeat constructor|]. intros _.
    destruct (putObject cloud OutputBucket _); constructor. }
  unfold metadataKeyOf in Hall. unfold orElse.
  destruct (fst _); exact Hall.
Qed.

(** X14: when the platform serves the cover page with its listing but
    fails to serve some page below it, stage A neither returns [false] nor
    goes on to the export: the fetcher throws on the [null] that discovery
    left in the tree, stage A throws, and nothing was written to object
    storage and no translation job was submitted. *)
Theorem partial_discovery_stops_stage_A (env : SourceEnv) (reqParams : Request)
    (l p : string) (info : PageInfo) (listing : list Site) :
  request env = Some reqParams ->
  queueDelete env = Ok200 -> libraryKeys env = true ->
  site (platform env) = Served l p info listing ->
  includesTag "coverpage:yes" (processTags (pageTags info)) = true ->
  forallb allServed listing = false ->
  fst (startTranslation env) = Thrown /\
  Forall (fun ev => isExport ev = false) (snd (startTranslation env)).
Proof.
  intros Hreq Hqueue Hkeys Hsite Hcover Hlisting.
  pose proof (DiscoveryMore.retrieveSubpages_unserved (site (platform env))
                (reqLib reqParams) (reqPath reqParams) None) as Hnull.
  pose proof (DiscoveryMore.retrieveSubpages_discovery (site (platform env))
                (reqLib reqParams) (reqPath reqParams) None) as Hquiet.
  assert (Hobj : exists rootData subpages,
            fst (retrieveSubpages (site (platform env)) (reqLib reqParams)
                   (reqPath reqParams) None) = Obj rootData subpages).
  { rewrite Hsite. cbn [retrieveSubpages truthy]. rewrite Hcover.
    cbn [fst]. eauto. }
  rewrite Hsite in Hnull at 1. specialize (Hnull Hlisting).
  destruct Hobj as (rootData & subpages & Hobj).
  unfold startTranslation. rewrite Hreq, Hqueue, Hkeys.
  destruct (retrieveSubpages (site (platform env)) (reqLib reqParams)
              (reqPath reqParams) None) as [found requested].
  cbn [fst snd] in Hnull, Hquiet, Hobj. subst found.
  pose proof (FetchMore.getSubpageContents_fetched (platform env)
                (Obj rootData subpages)) as Hfetch.
  rewrite Hnull in Hfetch.
  pose proof (FetchMore.getSubpageContents_requests (platform env)
                (Obj rootData subpages)) as Hfetches.
  unfold andThen. cbn [emit ret fst snd negb]. rewrite Hfetch. cbn [fst snd].
  split; [reflexivity|].
  repeat constructor. apply Forall_app. split.
  - eapply List.Forall_impl; [|exact Hquiet]. intros ev Hev. now destruct ev.
  - eapply List.Forall_impl; [|exact Hfetches]. intros ev Hev. now destruct ev.
Qed.

Lemma partial_discovery_stops_stage_A_witness :
  fst (startTranslation Cases.brokenDiscovery) = Thrown /\
  Forall (fun ev => isExport ev = false) (snd (startTranslation Cases.brokenDiscovery)).
Proof.
  apply (partial_discovery_stops_stage_A Cases.brokenDiscovery Sample.request
           "chem" "Cover"
           (mkPageInfo "10" "https://chem.libretexts.org/Cover" "Cover"
              (OneTag (Some "coverpage:yes")))
           [Unreachable "chem" "Cover/1%3A_Intro"]); reflexivity.
Defined.

(** X15: a request that names no language, or one of fewer than two
    characters, goes through the whole of stage A all the same: when
    discovery, fetch and transform succeed, stage A returns [true] and no
    translation job was submitted. *)
Theorem no_language_no_job (env : SourceEnv) (reqParams : Request)
    (rootData : PageData) (subpages : list Page) (afterFetch afterTransform : Page) :
  request env = Some reqParams ->
  queueDelete env = Ok200 -> libraryKeys env = true ->
  fst (retrieveSubpages (site (platform env)) (reqLib reqParams)
                        (reqPath reqParams) None) = Obj rootData subpages ->
  fst (getSubpageContents (platform env) (Obj rootData subpages)) = Returned afterFetch ->
  processPageContents afterFetch = Returned afterTransform ->
  (forall code, reqLanguage reqParams = Some code -> String.length code < 2) ->
  fst (startTranslation env) = Returned true /\
  Forall (fun ev => isJobSubmission ev = false) (snd (startTranslation env)) /\
  incl (snd (uploadLibreText (cloud env) afterTransform)) (snd (startTranslation env)).
Proof.
  intros Hreq Hqueue Hkeys Hfound Hfetched Hprocessed Hlang.
  pose proof (DiscoveryMore.retrieveSubpages_discovery (site (platform env))
                (reqLib reqParams) (reqPath reqParams) None) as Hquiet.
  pose proof (FetchMore.getSubpageContents_requests (platform env)
                (Obj rootData subpages)) as Hfetches.
  pose proof (uploadLibreText_requests (cloud env) afterTransform) as Hputs.
  destruct (StageA.uploadLibreText_returns (cloud env) afterTransform) as [ok Hok].
  assert (Hjob : initiateTranslationJob (cloud env) (coverIDOf rootData)
                   (reqLanguage reqParams) = ret false).
  { unfold initiateTranslationJob. destruct (reqLanguage reqParams) as [code|];
      [|reflexivity].
    specialize (Hlang code eq_refl). apply Nat.ltb_lt in Hlang. now rewrite Hlang. }
  unfold startTranslation. rewrite Hreq, Hqueue, Hkeys.
  destruct (retrieveSubpages (site (platform env)) (reqLib reqParams)
              (reqPath reqParams) None) as [found requested].
  cbn [fst snd] in Hfound, Hquiet. subst found. rewrite Hjob.
  unfold andThen. cbn [emit ret fst snd negb].
  rewrite Hfetched. cbn [fst snd]. rewrite Hprocessed. cbn [fst snd].
  rewrite Hok. cbn [fst snd]. split; [reflexivity|]. split.
  - repeat constructor. apply Forall_app. split.
    { eapply List.Forall_impl; [|exact Hquiet]. intros ev Hev. now destruct ev. }
    apply Forall_app. split.
    { eapply List.Forall_impl; [|exact Hfetches]. intros ev Hev. now destruct ev. }
    cbn [app]. rewrite app_nil_r. exact Hputs.
  - intros ev Hev. cbn [app In]. right. right.
    apply in_or_app. right. apply in_or_app. right. apply in_or_app. now left.
Qed.

Lemma no_language_no_job_witness :
  fst (startTranslation Cases.noLanguage) = Returned true /\
  Forall (fun ev => isJobSubmission ev = false) (snd (startTranslation Cases.noLanguage)) /\
  incl (snd (uploadLibreText (cloud Cases.noLanguage)
               (processed (fetched Sample.source Cases.discovered))))
       (snd (startTranslation Cases.noLanguage)).
Proof.
  apply (no_language_no_job Cases.noLanguage
           (mkRequest "chem" "Cover" "espanol" "Sandboxes/Translated" None)
           (deleteContents Sample.cover) [Obj (deleteContents Sample.chapter) []]
           (fetched Sample.source Cases.discovered)
           (processed (fetched Sample.source Cases.discovered)));
    try reflexivity.
  intros code Hcode. discriminate Hcode.
Defined.

End StageAMore.

(** ** Job Correlator, from the job that stage A submits *)

Module CorrelationMore.
Import JsFacts.

Local Open Scope string_scope.

Lemma dropPrefix_append p s : Js.dropPrefix p (p ++ s) = Some s.
Proof.
  induction p as [|a p IH]; [reflexivity|].
  cbn [String.append Js.dropPrefix]. now rewrite Ascii.eqb_refl.
Qed.

Lemma replaceFirst_prefix p r s : Js.replaceFirst p r (p ++ s) = r ++ s.
Proof.
  assert (Hunfold : forall x, Js.replaceFirst p r x =
            match Js.dropPrefix p x with
            | Some rest => r ++ rest
            | None => match x with
                      | String c x' => String c (Js.replaceFirst p r x')
                      | EmptyString => EmptyString
                      end
            end) by (now intros []).
  now rewrite Hunfold, dropPrefix_append.
Qed.

Lemma replaceFirst_absent p r : forall s,
  Js.includes s p = false -> Js.replaceFirst p r s = s.
Proof.
  induction s as [|c s IH]; cbn [Js.includes Js.replaceFirst]; unfold Js.startsWith;
    intros H; apply orb_false_iff in H as [Hhere Hlater].
  - now destruct (Js.dropPrefix p "").
  - destruct (Js.dropPrefix p (String c s)); [discriminate|].
    now rewrite (IH Hlater).
Qed.

Lemma includes_append a p b : Js.includes (a ++ p ++ b) p = true.
Proof.
  assert (Hhere : forall s, Js.includes (p ++ s) p = true).
  { intros s. destruct (p ++ s) eqn:E; cbn [Js.includes]; unfold Js.startsWith;
      rewrite <- E, dropPrefix_append; reflexivity. }
  induction a as [|c a IH]; [apply Hhere|].
  cbn [String.append Js.includes]. rewrite IH. apply orb_true_r.
Qed.

Lemma lacks_cons c b s :
  lacks c (String b s) = true -> Ascii.eqb c b = false /\ lacks c s = true.
Proof.
  unfold lacks. cbn [Js.anyChar]. intros H%negb_true_iff.
  apply orb_false_iff in H as [H1 H2]. now rewrite H2.
Qed.

Lemma lacks_append c a b :
  lacks c a = true -> lacks c b = true -> lacks c (a ++ b) = true.
Proof.
  unfold lacks. rewrite anyChar_append.
  intros ->%negb_true_iff ->%negb_true_iff. reflexivity.
Qed.

(** Splitting at a character: the text before its first occurrence is the
    first piece. *)
Lemma splitFrom_char c t : forall s fuel acc,
  lacks c s = true -> String.length s + S (String.length t) <= fuel ->
  Js.splitFrom fuel (String c "") acc (s ++ String c t) =
  (acc ++ s) :: Js.split (String c "") t.
Proof.
  induction s as [|b s IH]; intros fuel acc Hfree Hlen.
  - destruct fuel as [|fuel]; [simpl in Hlen; lia|].
    cbn [String.append Js.splitFrom Js.dropPrefix]. rewrite Ascii.eqb_refl.
    rewrite append_empty_r. f_equal. unfold Js.split.
    apply splitFrom_fuel; [discriminate | simpl in Hlen; lia | lia].
  - destruct fuel as [|fuel]; [simpl in Hlen; lia|].
    apply lacks_cons in Hfree as [Hb Hfree].
    cbn [String.append Js.splitFrom Js.dropPrefix]. rewrite Hb.
    rewrite IH by (auto; simpl in Hlen; lia).
    now rewrite append_assoc.
Qed.

Lemma split_char c s t :
  lacks c s = true ->
  Js.split (String c "") (s ++ String c t) = s :: Js.split (String c "") t.
Proof.
  intros Hfree. unfold Js.split at 1.
  rewrite splitFrom_char; [reflexivity | exact Hfree|].
  rewrite length_append. simpl. lia.
Qed.

Lemma splitFrom_lacks c : forall s fuel acc,
  lacks c s = true -> Js.splitFrom fuel (String c "") acc s = [acc ++ s].
Proof.
  induction s as [|b s IH]; intros fuel acc Hfree.
  - destruct fuel; cbn [Js.splitFrom]; now rewrite append_empty_r.
  - destruct fuel as [|fuel]; [reflexivity|].
    apply lacks_cons in Hfree as [Hb Hfree].
    cbn [Js.splitFrom Js.dropPrefix]. rewrite Hb.
    rewrite IH by exact Hfree. now rewrite append_assoc.
Qed.

Lemma split_lacks c s : lacks c s = true -> Js.split (String c "") s = [s].
Proof. intros Hfree. unfold Js.split. now rewrite splitFrom_lacks. Qed.

Lemma inputCoverIDOf_jobInputURI bucket coverID :
  lacks "/" bucket = true -> lacks "/" coverID = true ->
  inputCoverIDOf (jobInputURI bucket coverID) = Some coverID.
Proof.
  intros Hbucket Hcover. unfold inputCoverIDOf, jobInputURI.
  rewrite replaceFirst_prefix. cbn [String.append].
  change (bucket ++ String "/" (coverID ++ "/"))
    with (bucket ++ String "/" (coverID ++ String "/" "")).
  rewrite (split_char "/" bucket) by exact Hbucket.
  now rewrite (split_char "/" coverID) by exact Hcover.
Qed.

Lemma decodeCoverID_coverIDOf d :
  lacks "-" (lib d) = true -> lacks "-" (id d) = true ->
  Js.nonEmpty (lib d) = true -> Js.nonEmpty (id d) = true ->
  decodeCoverID (coverIDOf d) = Some (lib d, id d).
Proof.
  intros Hlib Hid Hl Hi. unfold decodeCoverID, coverIDOf.
  change (lib d ++ "-" ++ id d) with (lib d ++ String "-" (id d)).
  rewrite (split_char "-" (lib d)) by exact Hlib.
  rewrite (split_lacks "-" (id d)) by exact Hid.
  now rewrite Hl, Hi.
Qed.

(** X16: the cover identifier survives the way from stage A to stage B.
    For a cover whose library and page identifier are not blank and hold
    neither a hyphen nor a slash, the manifest of the job that stage A
    submitted (its input prefix is [s3://<bucket>/<lib>-<id>/]) is decoded
    to that library and that identifier, and the key under which stage B
    then looks for the metadata record is the key under which stage A
    wrote it. *)
Theorem cover_id_round_trip (bucket : string) (d : PageData) (m : Manifest)
    (files : list Detail) (clientErrs serverErrs : Z) :
  lacks "/" bucket = true ->
  lacks "/" (lib d) = true -> lacks "/" (id d) = true ->
  lacks "-" (lib d) = true -> lacks "-" (id d) = true ->
  Js.nonEmpty (lib d) = true -> Js.nonEmpty (id d) = true ->
  details m = Some files ->
  inputDataPrefix m = Some (jobInputURI bucket (coverIDOf d)) ->
  parseInt10 (documentCountWithCustomerError m) = Some clientErrs ->
  parseInt10 (documentCountWithServerError m) = Some serverErrs ->
  let job := mkJobDetails (lib d) (id d) (outputDataPrefix m) files
                          clientErrs serverErrs in
  jobDetailsOf m = Returned (Some job) /\ metadataKeyFor job = metadataKeyOf d.
Proof.
  intros Hbucket Hlib Hid Hlib' Hid' Hl Hi Hfiles Hprefix Hclient Hserver job.
  split; [|reflexivity].
  assert (Hcover : lacks "/" (coverIDOf d) = true).
  { unfold coverIDOf. apply lacks_append; [exact Hlib|].
    apply (lacks_append "/" "-" (id d)); [reflexivity | exact Hid]. }
  unfold jobDetailsOf. rewrite Hfiles, Hprefix.
  rewrite inputCoverIDOf_jobInputURI by assumption.
  rewrite decodeCoverID_coverIDOf by assumption.
  rewrite Hclient, Hserver.
  assert (Hne : Js.nonEmpty (coverIDOf d) = true)
    by (unfold coverIDOf; now apply nonEmpty_append_l).
  now rewrite Hne.
Qed.

Lemma cover_id_round_trip_witness :
  let job := mkJobDetails "chem" "10"
               "s3://polyglot-output/chem-10/123-TranslateText-abc/"
               [mkDetail "chem-10.html" "es.chem-10.html"] 0 0 in
  jobDetailsOf Cases.manifest = Returned (Some job) /\
  metadataKeyFor job = metadataKeyOf Sample.cover.
Proof.
  apply (cover_id_round_trip "polyglot-input" Sample.cover Cases.manifest
           [mkDetail "chem-10.html" "es.chem-10.html"] 0 0); reflexivity.
Defined.

(** X17: stage B asks object storage for the metadata record under the
    key under which stage A wrote it, provided the key holds neither the
    text [s3://] nor the name of the output bucket followed by a slash
    ([getFileContents] removes the first occurrence of each, wherever it
    stands).  The record is accepted only with a target library and a
    target path that are not blank and with a list of pages; a rejected
    read throws. *)
Theorem metadata_is_read_where_it_was_written (env : TargetEnv) (d : PageData) :
  let key := metadataKeyOf d in
  Js.includes key "s3://" = false ->
  Js.includes key (outputBucket env ++ "/") = false ->
  snd (retrieveInputMetadata env key) = [GetObject key] /\
  (getObject env key = ReadRejected -> fst (retrieveInputMetadata env key) = Thrown) /\
  (forall metadata,
     fst (retrieveInputMetadata env key) = Returned (Some metadata) ->
     getObject env key = Body (MetadataDoc metadata) /\
     Js.isNonEmptyString (targetLib metadata) = true /\
     Js.isNonEmptyString (targetPath metadata) = true /\
     exists inputPages, allPages metadata = Some inputPages).
Proof.
  intros key Hscheme Hbucket.
  assert (Hne : Js.nonEmpty key = true).
  { unfold key, metadataKeyOf. apply nonEmpty_append_r, nonEmpty_append_l. reflexivity. }
  assert (Hlen : Nat.eqb (String.length key) 0 = false).
  { apply Nat.eqb_neq. now apply nonEmpty_length. }
  assert (Hnamed : Nat.eqb (String.length (outputBucket env)) 0 = false).
  { destruct (outputBucket env) as [|c bucket]; [|reflexivity].
    unfold key, metadataKeyOf in Hbucket.
    now rewrite (includes_append (coverIDOf d) "/") in Hbucket. }
  assert (Hread : getFileContents env key =
            andThen (emit (GetObject key))
              (fun _ => match getObject env key with
                        | Body doc => ret (Some doc)
                        | NoBody => ret None
                        | ReadRejected => raise
                        end)).
  { unfold getFileContents. rewrite Hnamed, Hlen. cbn [orb].
    rewrite (replaceFirst_absent "s3://" "" key Hscheme).
    now rewrite (replaceFirst_absent (outputBucket env ++ "/") "" key Hbucket). }
  unfold retrieveInputMetadata. rewrite Hne, Hread. cbn [negb].
  unfold andThen, emit, ret, raise. cbn [fst snd].
  destruct (getObject env key) as [[m|metadata|fragment|]| |]; cbn [fst snd app];
    try (split; [reflexivity|]; split; [discriminate || reflexivity|];
         intros metadata' Hm; discriminate Hm).
  destruct (Js.isNonEmptyString (targetLib metadata)) eqn:El;
    [|cbn [andb fst snd]; split; [reflexivity|]; split; [discriminate|];
      intros metadata' Hm; discriminate Hm].
  destruct (Js.isNonEmptyString (targetPath metadata)) eqn:Ep;
    [|cbn [andb fst snd]; split; [reflexivity|]; split; [discriminate|];
      intros metadata' Hm; discriminate Hm].
  destruct (allPages metadata) as [inputPages|] eqn:Ea;
    cbn [andb is_Some_bool fst snd app];
    (split; [reflexivity|]; split; [discriminate|]); intros metadata' Hm;
    [|discriminate Hm].
  injection Hm as <-. rewrite El, Ep, Ea. repeat split. now exists inputPages.
Qed.

Lemma metadata_is_read_where_it_was_written_witness :
  let key := metadataKeyOf Sample.cover in
  snd (retrieveInputMetadata Cases.completedJob key) = [GetObject key] /\
  (getObject Cases.completedJob key = ReadRejected ->
   fst (retrieveInputMetadata Cases.completedJob key) = Thrown) /\
  (forall metadata,
     fst (retrieveInputMetadata Cases.completedJob key) = Returned (Some metadata) ->
     getObject Cases.completedJob key = Body (MetadataDoc metadata) /\
     Js.isNonEmptyString (targetLib metadata) = true /\
     Js.isNonEmptyString (targetPath metadata) = true /\
     exists inputPages, allPages metadata = Some inputPages).
Proof.
  apply (metadata_is_read_where_it_was_written Cases.completedJob Sample.cover);
    reflexivity.
Defined.

End CorrelationMore.

(** ** Tree Reconstructor *)

Module ReconstructMore.

Lemma mergePages_null inputPages translatedPages :
  In None translatedPages -> mergePages inputPages translatedPages = Thrown.
Proof.
  induction translatedPages as [|page rest IH]; [intros []|].
  destruct page as [page|]; [|reflexivity].
  intros [Hpage|Hrest]; [discriminate|].
  cbn [mergePages]. now rewrite (IH Hrest).
Qed.

(** X18: one translated file that could not be read as a page (a [null]
    among the translated pages) makes [mergeInputStructure] throw, whatever
    the other pages are. *)
Theorem merge_throws_on_a_missing_page (fuel : nat) (metadata : JobMetadataRecord)
    (inputPages : list PageData) (translatedPages : list (option PageData)) :
  allPages metadata = Some inputPages ->
  In None translatedPages ->
  mergeInputStructure fuel (Some metadata) translatedPages = Thrown.
Proof.
  intros Hpages Hnull. unfold mergeInputStructure. rewrite Hpages.
  now rewrite (mergePages_null inputPages translatedPages Hnull).
Qed.

Lemma merge_throws_on_a_missing_page_witness :
  mergeInputStructure 5 (Some Sample.metadata)
    [Some Sample.translatedCover; None] = Thrown.
Proof.
  apply (merge_throws_on_a_missing_page 5 Sample.metadata Sample.flat
           [Some Sample.translatedCover; None]).
  - reflexivity.
  - right. now left.
Defined.

Lemma mergePages_Some inputPages translated :
  mergePages inputPages (map Some translated) =
  Returned (map (fun page =>
                   option_map (fun foundInput => withStructureOf foundInput page)
                              (List.find (samePage page) inputPages))
                translated).
Proof.
  induction translated as [|page rest IH]; [reflexivity|].
  cbn [map mergePages]. now rewrite IH.
Qed.

(** X19: when no translated page matches an entry of the input metadata
    that is a root, [mergeInputStructure] returns [null]: pages without a
    matching entry are dropped, and the root flag of a page is that of its
    entry. *)
Theorem merge_without_root_is_null (fuel : nat) (metadata : JobMetadataRecord)
    (inputPages translated : list PageData) :
  allPages metadata = Some inputPages ->
  (forall page foundInput,
     In page translated ->
     List.find (samePage page) inputPages = Some foundInput ->
     root foundInput = false) ->
  mergeInputStructure fuel (Some metadata) (map Some translated) = Returned Null.
Proof.
  intros Hpages Hroot. unfold mergeInputStructure.
  rewrite Hpages, mergePages_Some. cbn [bind].
  assert (Hnone : List.find root
            (omap (fun page => page)
               (map (fun page =>
                       option_map (fun foundInput => withStructureOf foundInput page)
                                  (List.find (samePage page) inputPages))
                    translated)) = None).
  { induction translated as [|page rest IH]; [reflexivity|].
    cbn [map omap list_omap].
    specialize (IH ltac:(intros q e Hq; apply Hroot; now right)).
    destruct (List.find (samePage page) inputPages) as [foundInput|] eqn:E;
      cbn [option_map]; [|exact IH].
    cbn [List.find withStructureOf root].
    rewrite (Hroot page foundInput ltac:(now left) E). exact IH. }
  now rewrite Hnone.
Qed.

Lemma merge_without_root_is_null_witness :
  mergeInputStructure 5 (Some Sample.metadata)
    (map Some [Sample.translatedChapter]) = Returned Null.
Proof.
  apply (merge_without_root_is_null 5 Sample.metadata Sample.flat
           [Sample.translatedChapter]).
  - reflexivity.
  - intros page foundInput [<-|[]]. vm_compute. now intros [= <-].
Defined.

Lemma attachSubpages_settles structure currPage pages :
  (forall sub, structure sub <> Thrown) ->
  attachSubpages structure currPage pages <> Thrown.
Proof.
  intros Hnever. induction pages as [|sub rest IH]; [discriminate|].
  cbn [attachSubpages]. fold (attachSubpages structure currPage).
  destruct (isSubpageOf currPage sub); [|exact IH].
  specialize (Hnever sub).
  destruct (structure sub); [|congruence | discriminate]. cbn [bind].
  destruct (attachSubpages structure currPage rest); [discriminate | congruence | discriminate].
Qed.

Lemma createPageStructure_settles fuel : forall page inputPages,
  createPageStructure fuel page inputPages <> Thrown.
Proof.
  induction fuel as [|fuel IH]; intros page inputPages; [discriminate|].
  cbn [createPageStructure].
  pose proof (attachSubpages_settles
                (fun subpage => createPageStructure fuel subpage inputPages)
                page inputPages (fun sub => IH sub inputPages)) as Hloop.
  destruct (attachSubpages _ page inputPages); [discriminate | congruence | discriminate].
Qed.

Lemma attachSubpages_unbounded structure currPage pages e :
  (forall sub, structure sub <> Thrown) ->
  In e pages -> isSubpageOf currPage e = true -> structure e = Diverges ->
  attachSubpages structure currPage pages = Diverges.
Proof.
  intros Hnever Hin Hsub He.
  induction pages as [|sub rest IH]; [destruct Hin|].
  cbn [attachSubpages]. fold (attachSubpages structure currPage).
  destruct Hin as [->|Hin].
  - now rewrite Hsub, He.
  - rewrite (IH Hin). specialize (Hnever sub).
    destruct (isSubpageOf currPage sub); [|reflexivity].
    destruct (structure sub); [reflexivity | congruence | reflexivity].
Qed.

(** X20: [createPageStructure] does not guard against cycles.  Where an
    entry of the list is no root and names its own identifier as its
    parent, the structure of every page that bears this identifier is
    never built: whatever the depth of recursion allowed, the call does
    not return. *)
Theorem structure_unbounded_on_a_self_parent (fuel : nat)
    (page e : PageData) (inputPages : list PageData) :
  In e inputPages -> isSubpageOf e e = true -> id page = id e ->
  createPageStructure fuel page inputPages = Diverges.
Proof.
  intros Hin Hself. revert page.
  induction fuel as [|fuel IH]; intros page Hid; [reflexivity|].
  cbn [createPageStructure].
  rewrite (attachSubpages_unbounded
             (fun subpage => createPageStructure fuel subpage inputPages)
             page inputPages e); [reflexivity | | exact Hin | | now apply IH].
  - intros sub. apply createPageStructure_settles.
  - unfold isSubpageOf in Hself |- *. now rewrite Hid.
Qed.

Lemma structure_unbounded_on_a_self_parent_witness :
  createPageStructure 9 Cases.selfParent
    [deleteContents Sample.cover; Cases.selfParent] = Diverges.
Proof.
  apply (structure_unbounded_on_a_self_parent 9 Cases.selfParent Cases.selfParent
           [deleteContents Sample.cover; Cases.selfParent]).
  - right. now left.
  - reflexivity.
  - reflexivity.
Defined.

End ReconstructMore.

(** ** Hierarchical Writer and stage B as a whole *)

Module WriterMore.
Import FlattenFacts JsFacts RunFacts.

Lemma eachLimit_requests {A} (P : Event -> Prop)
    (f : A -> Library -> bool * Trace * Library) l :
  Forall (fun a => forall library, Forall P (snd (fst (f a library)))) l ->
  forall library : Library, Forall P (fst (eachLimit f l library)).
Proof.
  induction 1 as [|a rest Ha _ IH]; intros library; [constructor|].
  cbn [eachLimit]. specialize (Ha library).
  destruct (f a library) as [[ok requested] library'].
  fold (eachLimit f). specialize (IH library').
  destruct (eachLimit f rest library') as [requested' library''].
  cbn [fst snd] in *. apply Forall_app. now split.
Qed.

Lemma assembleUrl_from parts : forall url,
  exists rest,
    fold_left
      (fun url currPart =>
         if Js.nonEmpty currPart then
           (if negb (Js.endsWith url "/") && Nat.ltb 1 (String.length (Js.trim url))
            then url ++ "/" else url) ++ currPart
         else url)%string
      parts url = (url ++ rest)%string.
Proof.
  induction parts as [|part parts IH]; intros url.
  - exists EmptyString. cbn [fold_left]. now rewrite append_empty_r.
  - cbn [fold_left]. destruct (Js.nonEmpty part); [|apply IH].
    destruct (negb (Js.endsWith url "/") && Nat.ltb 1 (String.length (Js.trim url))).
    + destruct (IH ((url ++ "/") ++ part)%string) as [rest ->].
      exists ("/" ++ part ++ rest)%string. now rewrite !append_assoc.
    + destruct (IH (url ++ part)%string) as [rest ->].
      exists (part ++ rest)%string. now rewrite !append_assoc.
Qed.

(** The first part, when it is not blank, starts the assembled path. *)
Lemma assembleUrl_prefix part parts :
  Js.nonEmpty part = true ->
  exists rest, assembleUrl (part :: parts) = (part ++ rest)%string.
Proof.
  intros Hpart. unfold assembleUrl. cbn [fold_left]. rewrite Hpart.
  apply assembleUrl_from.
Qed.

(** A request of the writer other than a page creation satisfies a
    property of creations. *)
Lemma saveToLibrary_requests (P : Event -> Prop) assign parses targetLib targetPath :
  (forall pagePath pageTitle,
     Js.nonEmpty targetLib = true -> Js.nonEmpty targetPath = true ->
     (exists rest, pagePath = (targetPath ++ rest)%string) ->
     P (CreatePage targetLib pagePath pageTitle true)) ->
  (forall l i t, P (PutTags l i t)) -> (forall l i, P (PutProperties l i)) ->
  (forall l i l' i', P (CopyThumbnail l i l' i')) ->
  forall page parentPath (library : Library),
    Forall P (snd (fst (saveToLibrary assign parses page targetLib targetPath
                                      parentPath library))).
Proof.
  intros Hcreate Htags Hprops Hcopy.
  induction page as [|d subpages IH] using Page_induction;
    intros parentPath library; [constructor|].
  cbn [saveToLibrary].
  destruct (Js.nonEmpty targetLib) eqn:Elib; [|constructor].
  destruct (Js.nonEmpty targetPath) eqn:Epath; [|constructor].
  cbn [negb orb].
  destruct (contents d) as [body|]; [|constructor].
  assert (Hrequest : P (CreatePage targetLib
                          (assembleUrl [targetPath; parentPath; newPagePath d])
                          (Js.trim (title d)) true)).
  { apply Hcreate; auto. now apply assembleUrl_prefix. }
  destruct (createPage assign true _ (Js.trim body) library) as [[newPageID|] library1];
    [|repeat constructor; exact Hrequest].
  destruct (negb (Js.nonEmpty newPageID)); [repeat constructor; exact Hrequest|].
  pose proof (eachLimit_requests P
    (fun subpage => saveToLibrary assign parses subpage targetLib targetPath
                      (assembleUrl [parentPath; newPagePath d])) subpages) as Heach.
  specialize (Heach ltac:(rewrite List.Forall_forall in IH |- *;
                          intros sub Hsub lib0; now apply IH)).
  specialize (Heach library1).
  destruct (eachLimit _ subpages library1) as [below library2].
  cbn [fst snd] in *. constructor; [exact Hrequest|].
  unfold savePageTags, savePageProperties.
  repeat (apply Forall_app; split).
  - repeat constructor. apply Htags.
  - destruct (forallb _ _); [|constructor].
    destruct (match props d with Some l => l | None => [] end);
      [destruct (Js.isNonEmptyString (summary d))|]; repeat constructor; apply Hprops.
  - exact Heach.
  - destruct (hasThumbnail d); repeat constructor. apply Hcopy.
Qed.

(** X21: every page that the writer creates lies in the target library
    under the target path: the path of every creation request starts with
    the target path, for every page, parent path and library. *)
Theorem pages_are_created_under_the_target_path (assign : string -> string)
    (parses : string -> bool) (page : Page) (targetLib targetPath parentPath : string)
    (library : Library) :
  Forall (createdUnder targetLib targetPath)
         (snd (fst (saveToLibrary assign parses page targetLib targetPath
                                  parentPath library))).
Proof.
  apply saveToLibrary_requests; try (intros; exact I).
  intros pagePath pageTitle _ _ Hrest. now split.
Qed.

(** X22: the writer reports a page as saved as soon as the page itself was
    created: when the path of a page is free and the platform names the new
    page, [saveToLibrary] returns [true] whatever its subpages are (a
    [null] or a page without contents among them included) and whatever
    became of their saves, and the library then holds the trimmed contents
    at the path. *)
Theorem created_page_reports_success (assign : string -> string)
    (parses : string -> bool) (d : PageData) (subpages : list Page)
    (body targetLib targetPath parentPath : string) (library : Library) :
  let pagePath := destinationOf d targetPath parentPath in
  let r := saveToLibrary assign parses (Obj d subpages) targetLib targetPath
                         parentPath library in
  Js.nonEmpty targetLib = true -> Js.nonEmpty targetPath = true ->
  contents d = Some body ->
  library !! pagePath = None ->
  Js.nonEmpty (assign pagePath) = true ->
  fst (fst r) = true /\ snd r !! pagePath = Some (Js.trim body).
Proof.
  intros pagePath r Hlib Hpath Hbody Hfree Hid. subst r.
  cbn [saveToLibrary]. rewrite Hlib, Hpath, Hbody. cbn [negb orb].
  unfold createPage. fold (destinationOf d targetPath parentPath). fold pagePath.
  rewrite Hfree, Hid. cbn [negb].
  pose proof (Writer.eachLimit_safe
    (fun subpage => saveToLibrary assign parses subpage targetLib targetPath
                      (assembleUrl [parentPath; newPagePath d])) subpages) as Heach.
  specialize (Heach ltac:(apply List.Forall_forall; intros sub _ lib0;
                          apply Writer.saveToLibrary_safe)).
  specialize (Heach (<[pagePath := Js.trim body]> library)).
  destruct (eachLimit _ subpages _) as [below library2].
  destruct Heach as [_ Hkept]. cbn [fst snd] in *. split; [reflexivity|].
  apply Hkept. apply lookup_insert_eq.
Qed.

Lemma created_page_reports_success_witness :
  let r := saveToLibrary (fun pagePath => ("id:" ++ pagePath)%string) (fun _ => true)
             (Obj Sample.cover [Null; Obj Sample.section []])
             "espanol" "Sandboxes/Translated" "" ∅ in
  fst (fst r) = true /\
  snd r !! destinationOf Sample.cover "Sandboxes/Translated" "" = Some (Js.trim "<p>cover</p>").
Proof.
  apply (created_page_reports_success (fun pagePath => ("id:" ++ pagePath)%string)
           (fun _ => true) Sample.cover [Null; Obj Sample.section []]
           "<p>cover</p>" "espanol" "Sandboxes/Translated" "" ∅); reflexivity.
Defined.

Lemma after_orderly {A} (m : Run A) (library : Library) (k : A -> Save bool) :
  Forall (fun ev => isEmail ev = false) (snd m) ->
  (forall a, orderly library (k a)) ->
  orderly library (after m library k).
Proof.
  intros Hm Hk. unfold after.
  destruct (fst m) as [a| |].
  - destruct (Hk a) as [Hmail Hkept].
    destruct (k a) as [[o requested] library']. cbn [fst snd] in *. split.
    + intros ev [Hev|Hev]%in_app_or Hemail; [|now apply (Hmail ev)].
      rewrite List.Forall_forall in Hm. rewrite (Hm ev Hev) in Hemail. discriminate.
    + exact Hkept.
  - split; cbn [fst snd]; [|auto].
    intros ev Hev Hemail.
    rewrite List.Forall_forall in Hm. rewrite (Hm ev Hev) in Hemail. discriminate.
  - split; cbn [fst snd]; [|auto].
    intros ev Hev Hemail.
    rewrite List.Forall_forall in Hm. rewrite (Hm ev Hev) in Hemail. discriminate.
Qed.

Lemma orderly_false (library : Library) : orderly library (Returned false, [], library).
Proof. split; cbn [fst snd]; [intros ev [] | auto]. Qed.

Lemma getFileContents_requests env key :
  Forall (fun ev => isEmail ev = false) (snd (getFileContents env key)).
Proof.
  unfold getFileContents. destruct (_ || _); [constructor|].
  apply andThen_requests; [repeat constructor|]. intros _.
  destruct (getObject env _); constructor.
Qed.

(** X23: stage B, whatever it meets: a completion notification is sent
    only by a run that returns [true] (after the save of the cover page
    succeeded), and every page that the destination library held before
    the run is still there, with its contents, afterwards. *)
Theorem stage_B_notifies_only_after_saving (fuel : nat) (env : TargetEnv)
    (library : Library) :
  let r := processTranslated fuel env library in
  (forall addrs, In (SendEmail addrs) (snd (fst r)) -> fst (fst r) = Returned true) /\
  (forall p body, library !! p = Some body -> snd r !! p = Some body).
Proof.
  intros r.
  assert (Horderly : orderly library r).
  { subst r. unfold processTranslated.
    destruct (negb (Js.isNonEmptyString (jobId env))); [apply orderly_false|].
    apply after_orderly.
    { unfold getTranslationDetailsURI. apply andThen_requests; [repeat constructor|].
      intros _. destruct (describeJob env _) as [[folder code]|]; constructor. }
    intros [uri|]; [|apply orderly_false].
    apply after_orderly.
    { unfold retrieveTranslationJobDetails.
      destruct (negb (Js.nonEmpty uri)); [constructor|].
      apply andThen_requests; [apply getFileContents_requests|].
      intros [[m|r0|fragment|]|]; constructor. }
    intros [job|]; [|apply orderly_false].
    apply after_orderly.
    { unfold retrieveInputMetadata.
      destruct (negb (Js.nonEmpty _)); [constructor|].
      apply andThen_requests; [apply getFileContents_requests|].
      intros [[m|r0|fragment|]|]; try constructor.
      destruct (_ && _); constructor. }
    intros [metadata|]; [|apply orderly_false].
    apply after_orderly; [repeat constructor|]. intros _.
    destruct (negb _); [apply orderly_false|].
    apply after_orderly.
    { unfold translatedPagesOf. apply mapLimit_requests.
      apply List.Forall_forall. intros f _.
      unfold retrieveAndProcessTranslatedContent.
      destruct (negb (Js.nonEmpty _)); [constructor|].
      apply andThen_requests; [apply getFileContents_requests|].
      intros [[m|r0|fragment|]|]; constructor. }
    intros translatedPages.
    apply after_orderly; [constructor|]. intros pageStructure.
    pose proof (Writer.saveToLibrary_safe (assignID env) (parsesAsJSON env)
                  pageStructure
                  (match targetLib metadata with Some t => t | None => EmptyString end)
                  (match targetPath metadata with Some t => t | None => EmptyString end)
                  EmptyString library) as [_ Hkept].
    pose proof (saveToLibrary_requests (fun ev => isEmail ev = false)
                  (assignID env) (parsesAsJSON env)
                  (match targetLib metadata with Some t => t | None => EmptyString end)
                  (match targetPath metadata with Some t => t | None => EmptyString end)
                  ltac:(reflexivity) ltac:(reflexivity) ltac:(reflexivity)
                  ltac:(reflexivity) pageStructure EmptyString library) as Hquiet.
    destruct (saveToLibrary _ _ pageStructure _ _ _ library)
      as [[saveSuccess requested] library'].
    cbn [fst snd] in Hkept, Hquiet.
    destruct saveSuccess; split; cbn [fst snd]; auto.
    intros ev Hev Hemail.
    rewrite List.Forall_forall in Hquiet. rewrite (Hquiet ev Hev) in Hemail.
    discriminate. }
  destruct Horderly as [Hmail Hkept]. split; [|exact Hkept].
  intros addrs Hin. now apply (Hmail (SendEmail addrs)).
Qed.

End WriterMore.

(** ** Content transform *)

Module TransformMore.
Import JsFacts.

Local Open Scope string_scope.

Lemma scan_cover matchAt : sound matchAt -> forall n before s,
  String.length s <= n -> render (fun m => m) (scan n matchAt before s) = s.
Proof.
  intros Hsound. induction n as [|n IH]; intros before s Hlen.
  - destruct s; [reflexivity | simpl in Hlen; lia].
  - destruct s as [|c s]; [reflexivity|]. cbn [scan].
    destruct (matchAt before (String c s)) as [[m rest]|] eqn:E.
    + destruct (Hsound _ _ _ _ E) as [Heq Hm]. cbn [render].
      rewrite IH; [now rewrite Heq|].
      assert (Hl : String.length (String c s) = String.length m + String.length rest)
        by (now rewrite Heq, length_append).
      destruct m; [congruence|]. simpl in Hl, Hlen. lia.
    + cbn [render]. rewrite IH; [reflexivity | simpl in Hlen; lia].
Qed.

Lemma length_rendered f k l :
  (forall m, String.length (f m) = String.length m + k) ->
  String.length (render f l) =
  String.length (render (fun m => m) l) + k * countFound l.
Proof.
  intros Hf. induction l as [|[c|m] l IH]; cbn [render countFound String.length];
    [lia | lia |].
  rewrite !length_append, Hf. lia.
Qed.

Lemma length_replaceAll matchAt f k s :
  sound matchAt -> (forall m, String.length (f m) = String.length m + k) ->
  String.length (replaceAll matchAt f s) =
  String.length s + k * countFound (matchesOf matchAt s).
Proof.
  intros Hsound Hf. unfold replaceAll, matchesOf.
  rewrite (length_rendered f k) by exact Hf.
  now rewrite scan_cover.
Qed.

Lemma dekiRegex_sound : sound dekiRegex.
Proof.
  intros before s m rest H.
  apply TransformFacts.dekiRegex_match in H as (Heq & Hlen & _).
  split; [exact Heq|]. intros ->. simpl in Hlen. lia.
Qed.

Lemma lazyUntil_unfold closing before s :
  lazyUntil closing before s =
  match (if Js.startsWith before "\\" then None else Js.dropPrefix closing s) with
  | Some rest => Some (closing, rest)
  | None =>
      match s with
      | String c s' =>
          if isLineTerminator c then None
          else match lazyUntil closing (String c before) s' with
               | Some (m, rest) => Some (String c m, rest)
               | None => None
               end
      | EmptyString => None
      end
  end.
Proof. now destruct s. Qed.

Lemma lazyUntil_split closing : forall s before m rest,
  lazyUntil closing before s = Some (m, rest) -> s = m ++ rest.
Proof.
  induction s as [|c s IH]; intros before m rest H; rewrite lazyUntil_unfold in H.
  - destruct (if Js.startsWith before "\\" then None else Js.dropPrefix closing "")
      as [r|] eqn:E; [|discriminate].
    injection H as <- <-.
    destruct (Js.startsWith before "\\"); [discriminate|].
    now apply dropPrefix_Some.
  - destruct (if Js.startsWith before "\\" then None
              else Js.dropPrefix closing (String c s)) as [r|] eqn:E.
    + injection H as <- <-.
      destruct (Js.startsWith before "\\"); [discriminate|].
      now apply dropPrefix_Some.
    + destruct (isLineTerminator c); [discriminate|].
      destruct (lazyUntil closing (String c before) s) as [[m' rest']|] eqn:E';
        [|discriminate].
      injection H as <- <-. cbn [String.append]. f_equal. now apply (IH _ _ _ E').
Qed.

Lemma mathRegex_sound opening closing :
  opening <> "" -> sound (mathRegex opening closing).
Proof.
  intros Hopen before s m rest H. unfold mathRegex in H.
  destruct (Js.dropPrefix opening s) as [s1|] eqn:E1; [|discriminate].
  destruct (lazyUntil closing (revOnto opening before) s1) as [[m' rest']|] eqn:E2;
    [|discriminate].
  injection H as <- <-.
  apply dropPrefix_Some in E1. apply lazyUntil_split in E2. subst. split.
  - now rewrite append_assoc.
  - destruct opening; [congruence | discriminate].
Qed.

Lemma length_noTranslateSpan m :
  String.length (noTranslateSpan m) = String.length m + 28.
Proof. unfold noTranslateSpan, quote. simpl. rewrite length_append. simpl. lia. Qed.

(** X24: the three rewrites of the content transform only insert
    wrappers.  Each of the three expressions cuts the text it reads into
    matches and single characters that, put together again, are that text;
    so the transformed contents are longer than the contents with their
    provenance block by 26 characters for every template token and 28 for
    every inline and every display expression found. *)
Theorem transform_only_inserts_wrappers (page : PageData) (text : string) :
  let w := withProvenance page text in
  let w1 := replaceAll dekiRegex noTranslateDiv w in
  let w2 := replaceAll mathInlineRegex noTranslateSpan w1 in
  (forall s, replaceAll dekiRegex (fun m => m) s = s /\
             replaceAll mathInlineRegex (fun m => m) s = s /\
             replaceAll mathDisplayRegex (fun m => m) s = s) /\
  String.length (transformContents page text) =
    String.length w + 26 * countFound (matchesOf dekiRegex w)
    + 28 * countFound (matchesOf mathInlineRegex w1)
    + 28 * countFound (matchesOf mathDisplayRegex w2).
Proof.
  intros w w1 w2.
  assert (Hinline : sound mathInlineRegex) by (apply mathRegex_sound; discriminate).
  assert (Hdisplay : sound mathDisplayRegex) by (apply mathRegex_sound; discriminate).
  split.
  - intros s. unfold replaceAll.
    rewrite !scan_cover; auto using dekiRegex_sound.
  - unfold transformContents. fold w. fold w1. fold w2.
    rewrite (length_replaceAll mathDisplayRegex noTranslateSpan 28 w2 Hdisplay
               length_noTranslateSpan).
    unfold w2.
    rewrite (length_replaceAll mathInlineRegex noTranslateSpan 28 w1 Hinline
               length_noTranslateSpan).
    unfold w1 at 1.
    rewrite (length_replaceAll dekiRegex noTranslateDiv 26 w dekiRegex_sound
               TransformFacts.length_noTranslateDiv).
    reflexivity.
Qed.

Lemma scan_without_opening matchAt c :
  (forall before s m rest, matchAt before s = Some (m, rest) ->
                           exists s', s = String c s') ->
  forall n before s,
    lacks c s = true -> String.length s <= n ->
    render (fun m => m) (scan n matchAt before s) = s /\
    countFound (scan n matchAt before s) = 0.
Proof.
  intros Hopen. induction n as [|n IH]; intros before s Hfree Hlen.
  - destruct s; [now split | simpl in Hlen; lia].
  - destruct s as [|a s]; [now split|]. cbn [scan].
    apply CorrelationMore.lacks_cons in Hfree as [Ha Hfree].
    destruct (matchAt before (String a s)) as [[m rest]|] eqn:E.
    + destruct (Hopen _ _ _ _ E) as [s' Hs']. injection Hs' as -> ->.
      rewrite Ascii.eqb_refl in Ha. discriminate.
    + cbn [render countFound].
      destruct (IH (String a before) s Hfree ltac:(simpl in Hlen; lia)) as [-> ->].
      now split.
Qed.

Lemma replaceAll_without_opening matchAt c f s :
  (forall before s m rest, matchAt before s = Some (m, rest) ->
                           exists s', s = String c s') ->
  lacks c s = true -> replaceAll matchAt f s = s.
Proof.
  intros Hopen Hfree. unfold replaceAll.
  destruct (scan_without_opening matchAt c Hopen (String.length s) "" s Hfree
              (le_n _)) as [Hcover Hnone].
  now rewrite (TransformFacts.render_without_tokens f _ Hnone).
Qed.

Lemma dekiRegex_opening before s m rest :
  dekiRegex before s = Some (m, rest) -> exists s', s = String "{" s'.
Proof.
  unfold dekiRegex. destruct (Js.dropPrefix "{{" s) as [s1|] eqn:E; [|discriminate].
  intros _. apply dropPrefix_Some in E. rewrite E. now eexists.
Qed.

Lemma mathRegex_opening c opening closing before s m rest :
  mathRegex (String c opening) closing before s = Some (m, rest) ->
  exists s', s = String c s'.
Proof.
  unfold mathRegex.
  destruct (Js.dropPrefix (String c opening) s) as [s1|] eqn:E; [|discriminate].
  intros _. apply dropPrefix_Some in E. rewrite E. now eexists.
Qed.

(** X25: contents that, with their provenance block, hold neither an
    opening brace nor a backslash go through the three rewrites unchanged:
    the transform only adds the provenance block to them. *)
Theorem plain_contents_only_get_provenance (page : PageData) (text : string) :
  lacks "{" (withProvenance page text) = true ->
  lacks backslash (withProvenance page text) = true ->
  transformContents page text = withProvenance page text.
Proof.
  intros Hbrace Hslash. unfold transformContents.
  rewrite (replaceAll_without_opening dekiRegex "{" noTranslateDiv _
             dekiRegex_opening Hbrace).
  rewrite (replaceAll_without_opening mathInlineRegex backslash noTranslateSpan _
             (mathRegex_opening backslash "(" "\)") Hslash).
  now rewrite (replaceAll_without_opening mathDisplayRegex backslash noTranslateSpan _
                 (mathRegex_opening backslash "[" "\]") Hslash).
Qed.

Lemma plain_contents_only_get_provenance_witness :
  transformContents Sample.cover "<p>cover</p>" =
  withProvenance Sample.cover "<p>cover</p>".
Proof.
  apply (plain_contents_only_get_provenance Sample.cover "<p>cover</p>");
    vm_compute; reflexivity.
Defined.

End TransformMore.

(** ** Section numbering *)

Module PathMore.
Import JsFacts.

Local Open Scope string_scope.

Lemma lacks_replaceAllChar a b s :
  Ascii.eqb a b = false -> lacks a (Js.replaceAllChar a b s) = true.
Proof.
  intros Hab. unfold lacks. apply negb_true_iff.
  induction s as [|c s IH]; [reflexivity|].
  cbn [Js.replaceAllChar Js.anyChar]. rewrite IH, orb_false_r.
  destruct (Ascii.eqb c a) eqn:E; [exact Hab|].
  now rewrite Ascii.eqb_sym.
Qed.

Lemma lacks_trimStart c s : lacks c s = true -> lacks c (Js.trimStart s) = true.
Proof.
  induction s as [|a s IH]; [auto|]. intros H. cbn [Js.trimStart].
  destruct (Js.isWhiteSpace a); [|exact H].
  apply IH. now apply CorrelationMore.lacks_cons in H.
Qed.

Lemma lacks_trimEnd c s : lacks c s = true -> lacks c (Js.trimEnd s) = true.
Proof.
  induction s as [|a s IH]; [auto|]. intros H.
  apply CorrelationMore.lacks_cons in H as [Ha Hs]. specialize (IH Hs).
  cbn [Js.trimEnd]. destruct (Js.trimEnd s) as [|b t] eqn:E.
  - destruct (Js.isWhiteSpace a); [reflexivity|].
    unfold lacks. cbn [Js.anyChar]. now rewrite Ha.
  - unfold lacks in IH |- *. cbn [Js.anyChar] in IH |- *. now rewrite Ha.
Qed.

(** X26: what a parsed path tells.  When [parsePagePath] succeeds, the
    number part holds a digit or the back-matter marker, the last segment
    of the path is the number part, the encoded colon, and more, and the
    title part is free of underscores. *)
Theorem parsed_path_has_a_numbered_segment (path numberPart titlePart : string) :
  parsePagePath path = PathParsed numberPart titlePart ->
  hasSectionNumber numberPart = true /\
  lacks "_" titlePart = true /\
  exists rest,
    List.last (Js.split "/" path) "" = numberPart ++ "%3A" ++ rest.
Proof.
  unfold parsePagePath.
  pose proof (join_split "%3A" (List.last (Js.split "/" path) "")
                ltac:(discriminate)) as Hjoin.
  destruct (Js.split "%3A" (List.last (Js.split "/" path) ""))
    as [|n [|t more]]; try discriminate.
  destruct (hasSectionNumber n) eqn:En; [|discriminate].
  intros [= <- <-]. split; [exact En|]. split.
  - apply lacks_trimEnd, lacks_trimStart, lacks_replaceAllChar. reflexivity.
  - exists (Js.join "%3A" (t :: more)). rewrite <- Hjoin.
    now rewrite join_cons.
Qed.

Lemma parsed_path_has_a_numbered_segment_witness :
  hasSectionNumber "2.03" = true /\
  lacks "_" "Some Title" = true /\
  exists rest,
    List.last (Js.split "/" "Bookshelves/2.03%3ASome_Title") "" = "2.03" ++ "%3A" ++ rest.
Proof.
  apply (parsed_path_has_a_numbered_segment "Bookshelves/2.03%3ASome_Title"
           "2.03" "Some Title").
  vm_compute. reflexivity.
Defined.

End PathMore.

(** ** Request addresses and request ignition *)

Module IgnitionMore.
Import JsFacts.

Local Open Scope string_scope.

Lemma firstMatch_here {A} (matchAt : string -> option A) s a :
  matchAt s = Some a -> Url.firstMatch matchAt s = Some a.
Proof. intros H. destruct s; cbn [Url.firstMatch]; now rewrite H. Qed.

Lemma afterScheme_https t : Url.afterScheme ("https://" ++ t) = Some t.
Proof.
  unfold Url.afterScheme. now rewrite CorrelationMore.dropPrefix_append.
Qed.

Lemma lazyUpTo_unfold stop s :
  Url.lazyUpTo stop s =
  match Js.dropPrefix stop s with
  | Some rest => Some ("", rest)
  | None =>
      match s with
      | String c s' =>
          if isLineTerminator c then None
          else match Url.lazyUpTo stop s' with
               | Some (run, rest) => Some (String c run, rest)
               | None => None
               end
      | EmptyString => None
      end
  end.
Proof. now destruct s. Qed.

Lemma oneLine_cons c s :
  Url.oneLine (String c s) = true -> isLineTerminator c = false /\ Url.oneLine s = true.
Proof.
  unfold Url.oneLine. cbn [Js.anyChar]. intros H%negb_true_iff.
  apply orb_false_iff in H as [H1 H2]. now rewrite H2.
Qed.

(** A lazy run reaches a stop that follows a one-line text. *)
Lemma lazyUpTo_reaches stop rest : forall x,
  Url.oneLine x = true ->
  is_Some_bool (Url.lazyUpTo stop (x ++ stop ++ rest)) = true.
Proof.
  induction x as [|c x IH]; intros Hline; rewrite lazyUpTo_unfold.
  - cbn [String.append]. now rewrite CorrelationMore.dropPrefix_append.
  - destruct (Js.dropPrefix stop (String c x ++ stop ++ rest)); [reflexivity|].
    apply oneLine_cons in Hline as [Hc Hline]. cbn [String.append]. rewrite Hc.
    specialize (IH Hline). now destruct (Url.lazyUpTo stop (x ++ stop ++ rest)) as [[]|].
Qed.

(** A lazy run up to a character stops at its first occurrence. *)
Lemma lazyUpTo_char c rest : forall x,
  Url.oneLine x = true -> lacks c x = true ->
  Url.lazyUpTo (String c "") (x ++ String c rest) = Some (x, rest).
Proof.
  induction x as [|a x IH]; intros Hline Hfree; rewrite lazyUpTo_unfold.
  - cbn [String.append Js.dropPrefix]. now rewrite Ascii.eqb_refl.
  - apply oneLine_cons in Hline as [Ha Hline].
    apply CorrelationMore.lacks_cons in Hfree as [Hc Hfree].
    cbn [String.append Js.dropPrefix]. rewrite Hc, Ha.
    now rewrite (IH Hline Hfree).
Qed.

Lemma restOfLine_oneLine s : Url.oneLine s = true -> Url.restOfLine s = s.
Proof.
  induction s as [|c s IH]; [reflexivity|]. intros H.
  apply oneLine_cons in H as [Hc Hs]. cbn [Url.restOfLine].
  now rewrite Hc, (IH Hs).
Qed.

Lemma oneLine_append a b :
  Url.oneLine a = true -> Url.oneLine b = true -> Url.oneLine (a ++ b) = true.
Proof.
  unfold Url.oneLine. rewrite anyChar_append.
  intros ->%negb_true_iff ->%negb_true_iff. reflexivity.
Qed.

(** An address that starts with the secure scheme: the library is the
    text up to the first dot, the path the rest of the line after the
    first slash; it is accepted when [.libretexts.org] follows the scheme
    somewhere on the first line. *)
Lemma parseURL_after_scheme sub host p x y :
  Url.oneLine sub = true -> lacks "." sub = true -> lacks "/" sub = true ->
  Url.oneLine host = true -> lacks "/" host = true ->
  sub ++ "." ++ host ++ "/" ++ p = x ++ ".libretexts.org" ++ y ->
  Url.oneLine x = true ->
  Url.parseURL (Some ("https://" ++ sub ++ "." ++ host ++ "/" ++ p)) =
  Some (sub, Url.restOfLine p).
Proof.
  intros Hsub Hdot Hslash Hhost Hslash' Hmark Hx.
  unfold Url.parseURL.
  rewrite (nonEmpty_append_l "https://" _ eq_refl). cbn [andb].
  assert (Hguard : is_Some_bool
            (Url.libretextsRegex ("https://" ++ sub ++ "." ++ host ++ "/" ++ p)) = true).
  { unfold Url.libretextsRegex.
    pose proof (lazyUpTo_reaches ".libretexts.org" y x Hx) as Hreach.
    rewrite <- Hmark in Hreach.
    destruct (Url.lazyUpTo ".libretexts.org" (sub ++ "." ++ host ++ "/" ++ p))
      as [found|] eqn:E; [|discriminate].
    rewrite (firstMatch_here _ _ found); [reflexivity|].
    now rewrite afterScheme_https. }
  rewrite Hguard.
  assert (Hpath : Url.pathRegex ("https://" ++ sub ++ "." ++ host ++ "/" ++ p) =
                  Some (Url.restOfLine p)).
  { unfold Url.pathRegex. apply firstMatch_here. rewrite afterScheme_https.
    replace (sub ++ "." ++ host ++ "/" ++ p)
      with ((sub ++ "." ++ host) ++ String "/" p)
      by (now rewrite !append_assoc).
    rewrite lazyUpTo_char; [reflexivity | |].
    - apply oneLine_append; [exact Hsub|].
      now apply (oneLine_append "." host).
    - apply CorrelationMore.lacks_append; [exact Hslash|].
      now apply (CorrelationMore.lacks_append "/" "." host). }
  assert (Hdomain : Url.subdomainRegex ("https://" ++ sub ++ "." ++ host ++ "/" ++ p) =
                    Some sub).
  { unfold Url.subdomainRegex. apply firstMatch_here. rewrite afterScheme_https.
    change (sub ++ "." ++ host ++ "/" ++ p) with (sub ++ String "." (host ++ "/" ++ p)).
    now rewrite lazyUpTo_char. }
  now rewrite Hpath, Hdomain.
Qed.

(** X27: [parseURL] on the address of a library page.  For
    [https://<lib>.libretexts.org/<path>], where the library name holds no
    dot, no slash and no line terminator and the path no line terminator,
    it returns the library name and the path. *)
Theorem parseURL_of_a_library_address (sub p : string) :
  Url.oneLine sub = true -> lacks "." sub = true -> lacks "/" sub = true ->
  Url.oneLine p = true ->
  Url.parseURL (Some ("https://" ++ sub ++ ".libretexts.org/" ++ p)) = Some (sub, p).
Proof.
  intros Hsub Hdot Hslash Hp.
  rewrite <- (restOfLine_oneLine p Hp) at 2.
  apply (parseURL_after_scheme sub "libretexts.org" p sub ("/" ++ p));
    auto.
Qed.

Lemma parseURL_of_a_library_address_witness :
  Url.parseURL (Some ("https://" ++ "chem" ++ ".libretexts.org/" ++ "Bookshelves/Cover")) =
  Some ("chem", "Bookshelves/Cover").
Proof.
  apply (parseURL_of_a_library_address "chem" "Bookshelves/Cover"); reflexivity.
Defined.

(** X28: the guard of [parseURL] does not look at the host: an address
    on any host is accepted, and parsed into the first label of the host
    and the path, as soon as the text [.libretexts.org] occurs in its
    path. *)
Theorem parseURL_accepts_any_host (sub host q y : string) :
  Url.oneLine sub = true -> lacks "." sub = true -> lacks "/" sub = true ->
  Url.oneLine host = true -> lacks "/" host = true ->
  Url.oneLine q = true ->
  Url.parseURL
    (Some ("https://" ++ sub ++ "." ++ host ++ "/" ++ q ++ ".libretexts.org" ++ y)) =
  Some (sub, Url.restOfLine (q ++ ".libretexts.org" ++ y)).
Proof.
  intros Hsub Hdot Hslash Hhost Hslash' Hq.
  apply (parseURL_after_scheme sub host (q ++ ".libretexts.org" ++ y)
           (sub ++ "." ++ host ++ "/" ++ q) y); auto.
  - now rewrite !append_assoc.
  - apply oneLine_append; [exact Hsub|].
    apply (oneLine_append "." (host ++ "/" ++ q)); [reflexivity|].
    apply oneLine_append; [exact Hhost|].
    now apply (oneLine_append "/" q).
Qed.

Lemma parseURL_accepts_any_host_witness :
  Url.parseURL
    (Some ("https://" ++ "evil" ++ "." ++ "example" ++ "/" ++ "x" ++ ".libretexts.org" ++ "")) =
  Some ("evil", Url.restOfLine ("x" ++ ".libretexts.org" ++ "")).
Proof.
  apply (parseURL_accepts_any_host "evil" "example" "x" ""); reflexivity.
Defined.

(** X29: what [verifyAuthorization] accepts.  A header that is [Bearer],
    a space and the stored passphrase is accepted; so is the bare
    passphrase, since the prefix is removed where it occurs and not
    required; without a header the request is refused and the parameter
    store is not asked. *)
Theorem bearer_prefix_is_optional (p : string) (upper stored : option string) :
  p <> "" -> Js.includes p "Bearer " = false ->
  Ignition.verifyAuthorization
    (Some (Ignition.mkHeaders (Some ("Bearer " ++ p)) upper)) (Some p)
    = (true, [Ignition.GetPassphrase]) /\
  Ignition.verifyAuthorization (Some (Ignition.mkHeaders (Some p) upper)) (Some p)
    = (true, [Ignition.GetPassphrase]) /\
  Ignition.verifyAuthorization (Some (Ignition.mkHeaders None None)) stored
    = (false, []) /\
  Ignition.verifyAuthorization None stored = (false, []).
Proof.
  intros Hp Hfree. split; [|split; [|split]]; try reflexivity.
  - unfold Ignition.verifyAuthorization. cbn [Ignition.authorizationLower
      Ignition.orElseString String.append].
    change (String "B" (String "e" (String "a" (String "r" (String "e"
              (String "r" (String " " p)))))))
      with ("Bearer " ++ p).
    now rewrite CorrelationMore.replaceFirst_prefix, String.eqb_refl.
  - unfold Ignition.verifyAuthorization. cbn [Ignition.authorizationLower].
    destruct p as [|c p]; [congruence|]. cbn [Ignition.orElseString].
    now rewrite (CorrelationMore.replaceFirst_absent "Bearer " "" _ Hfree), String.eqb_refl.
Qed.

Lemma bearer_prefix_is_optional_witness :
  Ignition.verifyAuthorization
    (Some (Ignition.mkHeaders (Some ("Bearer " ++ "secret")) None)) (Some "secret")
    = (true, [Ignition.GetPassphrase]) /\
  Ignition.verifyAuthorization (Some (Ignition.mkHeaders (Some "secret") None))
    (Some "secret")
    = (true, [Ignition.GetPassphrase]) /\
  Ignition.verifyAuthorization (Some (Ignition.mkHeaders None None)) None
    = (false, []) /\
  Ignition.verifyAuthorization None None = (false, []).
Proof.
  apply (bearer_prefix_is_optional "secret" None None); [discriminate | reflexivity].
Defined.

Lemma checkAddresses_valid inputAddrs :
  fst (Ignition.checkAddresses inputAddrs) = [] ->
  snd (Ignition.checkAddresses inputAddrs) = map Js.trim inputAddrs /\
  Forall (fun email => Js.includes email "@" = true /\ Js.trim email <> "") inputAddrs.
Proof.
  induction inputAddrs as [|email rest IH]; [now split|].
  cbn [Ignition.checkAddresses].
  destruct (Ignition.checkAddresses rest) as [validationErrors addrs].
  destruct (Js.includes email "@") eqn:Eat; cbn [andb]; [|discriminate].
  destruct (Nat.ltb 0 (String.length (Js.trim email))) eqn:Elen; [|discriminate].
  cbn [fst snd] in *. intros Hnone. destruct (IH Hnone) as [-> Hall].
  split; [reflexivity|]. constructor; [|exact Hall]. split; [exact Eat|].
  intros Hempty. rewrite Hempty in Elen. discriminate.
Qed.

Lemma validateEventParams_valid q paramErrs foundParams :
  Ignition.validateEventParams (Some q) = Returned (true, paramErrs, foundParams) ->
  Ignition.given (Ignition.queryUrl q) /\
  Ignition.given (Ignition.queryTargetpath q) /\
  Ignition.given (Ignition.queryLanguage q) /\
  (exists lib path targetLib targetPath,
     Url.parseURL (Ignition.queryUrl q) = Some (lib, path) /\
     Url.parseURL (Ignition.queryTargetpath q) = Some (targetLib, targetPath) /\
     lib <> "" /\ path <> "" /\ targetLib <> "" /\ targetPath <> "" /\
     foundParams = Ignition.mkFound (Ignition.queryLanguage q) (Some lib) (Some path)
                     (Some targetLib) (Some targetPath)
                     (Ignition.notifyAddrs foundParams)) /\
  (forall notify, Ignition.queryNotify q = Some notify ->
     Ignition.notifyAddrs foundParams = map Js.trim (Js.split "," notify) /\
     Forall (fun email => Js.includes email "@" = true /\ Js.trim email <> "")
            (Js.split "," notify)).
Proof.
  unfold Ignition.validateEventParams.
  assert (Hgiven : forall v, Js.isNonEmptyString v = true -> Ignition.given v).
  { intros [text|] Hv; [|discriminate]. now exists text. }
  destruct (Js.isNonEmptyString (Ignition.queryUrl q)) eqn:E1;
    [|destruct (match Ignition.queryNotify q with Some _ => _ | None => _ end);
      discriminate].
  destruct (Js.isNonEmptyString (Ignition.queryTargetpath q)) eqn:E2;
    [|destruct (match Ignition.queryNotify q with Some _ => _ | None => _ end);
      discriminate].
  destruct (Js.isNonEmptyString (Ignition.queryLanguage q)) eqn:E3;
    [|destruct (match Ignition.queryNotify q with Some _ => _ | None => _ end);
      discriminate].
  cbn [app].
  pose proof (fun notify => checkAddresses_valid (Js.split "," notify)) as Hnotify.
  destruct (Ignition.queryNotify q) as [notify|].
  - specialize (Hnotify notify).
    destruct (Ignition.checkAddresses (Js.split "," notify)) as [e4 addrs].
    destruct e4 as [|e e4]; [|discriminate]. cbn [app fst snd] in *.
    destruct (Url.parseURL (Ignition.queryUrl q)) as [[[|c lib] [|c' path]]|];
      try discriminate;
      destruct (Url.parseURL (Ignition.queryTargetpath q))
        as [[[|c2 targetLib] [|c3 targetPath]]|]; try discriminate.
    intros [= <- <-]. destruct (Hnotify eq_refl) as [Haddrs Hall].
    split; [auto|]. split; [auto|]. split; [auto|]. split.
    + eexists _, _, _, _.
      do 6 (split; [reflexivity || discriminate|]). reflexivity.
    + intros notify' [= <-]. cbn [Ignition.notifyAddrs]. now split.
  - cbn [app].
    destruct (Url.parseURL (Ignition.queryUrl q)) as [[[|c lib] [|c' path]]|];
      try discriminate;
      destruct (Url.parseURL (Ignition.queryTargetpath q))
        as [[[|c2 targetLib] [|c3 targetPath]]|]; try discriminate.
    intros [= <- <-].
    split; [auto|]. split; [auto|]. split; [auto|]. split.
    + eexists _, _, _, _.
      do 6 (split; [reflexivity || discriminate|]). reflexivity.
    + intros notify' Hnone. discriminate Hnone.
Qed.

(** X30: what reaches the queue.  [engineIgnition] sends a message only
    for a request that was authorized and whose parameters are all valid:
    the address, the target and the language are given, both addresses
    parse into a library and a path that are not empty, and every notify
    address holds an at sign and is not blank (they are queued trimmed).
    The response has status 200 exactly when a message was sent and the
    queue answered with status 200. *)
Theorem queued_requests_are_valid (env : Ignition.Env)
    (original : Ignition.QueryParams) (foundParams : Ignition.FoundParams) :
  In (Ignition.SendMessage original foundParams) (snd (Ignition.engineIgnition env)) ->
  fst (Ignition.verifyAuthorization (Ignition.headers env)
         (Ignition.storedPassphrase env)) = true /\
  Ignition.queryStringParameters env = Some original /\
  Ignition.given (Ignition.queryUrl original) /\
  Ignition.given (Ignition.queryTargetpath original) /\
  Ignition.given (Ignition.queryLanguage original) /\
  (exists lib path targetLib targetPath,
     Url.parseURL (Ignition.queryUrl original) = Some (lib, path) /\
     Url.parseURL (Ignition.queryTargetpath original) = Some (targetLib, targetPath) /\
     lib <> "" /\ path <> "" /\ targetLib <> "" /\ targetPath <> "" /\
     foundParams = Ignition.mkFound (Ignition.queryLanguage original) (Some lib)
                     (Some path) (Some targetLib) (Some targetPath)
                     (Ignition.notifyAddrs foundParams)) /\
  (forall notify, Ignition.queryNotify original = Some notify ->
     Ignition.notifyAddrs foundParams = map Js.trim (Js.split "," notify) /\
     Forall (fun email => Js.includes email "@" = true /\ Js.trim email <> "")
            (Js.split "," notify)) /\
  (forall response, fst (Ignition.engineIgnition env) = Returned response ->
     (Ignition.status response = 200 <-> Ignition.queue env = Ok200)).
Proof.
  unfold Ignition.engineIgnition.
  assert (Hasked : forall c, In c (snd (Ignition.verifyAuthorization
                     (Ignition.headers env) (Ignition.storedPassphrase env))) ->
                   c = Ignition.GetPassphrase).
  { intros c. unfold Ignition.verifyAuthorization.
    destruct (Ignition.headers env) as [h|]; [|intros []].
    destruct (Ignition.orElseString _ _) as [[|a authField]|]; cbn [snd];
      [intros [] | intros [<-|[]]; reflexivity | intros []]. }
  destruct (Ignition.verifyAuthorization _ _) as [authorized asked].
  cbn [fst snd] in *.
  destruct authorized; cbn [negb];
    [|intros Hin; apply Hasked in Hin; discriminate].
  destruct (Ignition.queryStringParameters env) as [q|] eqn:Eq;
    [|cbn [Ignition.validateEventParams]; intros Hin; apply Hasked in Hin;
      discriminate].
  destruct (Ignition.validateEventParams (Some q)) as [[[valid errs] found]| |] eqn:Ev;
    try (intros Hin; apply Hasked in Hin; discriminate).
  destruct valid; cbn [negb];
    [|intros Hin; apply Hasked in Hin; discriminate].
  intros Hin.
  assert (Hsent : original = q /\ foundParams = found).
  { destruct (Ignition.queue env); cbn [snd] in Hin;
      apply in_app_or in Hin as [Hin|[Hin|[]]];
      try (apply Hasked in Hin; discriminate); now injection Hin as <- <-. }
  destruct Hsent as [-> ->].
  destruct (validateEventParams_valid q errs found Ev)
    as (Hurl & Htarget & Hlang & Hparsed & Hnotify).
  repeat (split; [assumption || reflexivity|]).
  intros response.
  destruct (Ignition.queue env); cbn [fst]; intros [= <-]; cbn [Ignition.status];
    split; intros; try reflexivity; discriminate.
Qed.

Lemma queued_requests_are_valid_witness :
  let original :=
    Ignition.mkQuery (Some "https://chem.libretexts.org/Cover")
      (Some "https://espanol.libretexts.org/Sandboxes/Translated")
      (Some "es") (Some "a@b.org, c@d.org") in
  let foundParams :=
    Ignition.mkFound (Some "es") (Some "chem") (Some "Cover") (Some "espanol")
      (Some "Sandboxes/Translated") ["a@b.org"; "c@d.org"] in
  fst (Ignition.verifyAuthorization (Ignition.headers Cases.ignition)
         (Ignition.storedPassphrase Cases.ignition)) = true /\
  Ignition.queryStringParameters Cases.ignition = Some original /\
  Ignition.given (Ignition.queryUrl original) /\
  Ignition.given (Ignition.queryTargetpath original) /\
  Ignition.given (Ignition.queryLanguage original) /\
  (exists lib path targetLib targetPath,
     Url.parseURL (Ignition.queryUrl original) = Some (lib, path) /\
     Url.parseURL (Ignition.queryTargetpath original) = Some (targetLib, targetPath) /\
     lib <> "" /\ path <> "" /\ targetLib <> "" /\ targetPath <> "" /\
     foundParams = Ignition.mkFound (Ignition.queryLanguage original) (Some lib)
                     (Some path) (Some targetLib) (Some targetPath)
                     (Ignition.notifyAddrs foundParams)) /\
  (forall notify, Ignition.queryNotify original = Some notify ->
     Ignition.notifyAddrs foundParams = map Js.trim (Js.split "," notify) /\
     Forall (fun email => Js.includes email "@" = true /\ Js.trim email <> "")
            (Js.split "," notify)) /\
  (forall response, fst (Ignition.engineIgnition Cases.ignition) = Returned response ->
     (Ignition.status response = 200 <-> Ignition.queue Cases.ignition = Ok200)).
Proof.
  apply (queued_requests_are_valid Cases.ignition
           (Ignition.mkQuery (Some "https://chem.libretexts.org/Cover")
              (Some "https://espanol.libretexts.org/Sandboxes/Translated")
              (Some "es") (Some "a@b.org, c@d.org"))
           (Ignition.mkFound (Some "es") (Some "chem") (Some "Cover") (Some "espanol")
              (Some "Sandboxes/Translated") ["a@b.org"; "c@d.org"])).
  vm_compute. right. left. reflexivity.
Defined.

End IgnitionMore.
